(** * PiRexBot: the supervisor of src/app/pirexbot.cpp

    A shallow embedding of the command-line resolver ([SetDefaultSettings],
    [ParseCommandLine]), of the camera error listener and the signal handler,
    and of [main] with its control loop, followed by the properties of the
    specification that concern them.

    Conventions.
    - [uint32_t] and [int] values are integers of [Z]; every value stored in
      such a field is a constant of the source or the result of a scan that is
      already reduced to 32 bits, and no arithmetic is done on them except the
      save counter's increment, which stays below 61.
    - [printf] is recorded with its format string as the source spells it:
      escape sequences such as the backslash followed by n stay unexpanded.
    - Calls to the collaborators (web server, camera, serializer, motors,
      wiringPi) are recorded as a trace of [Action]s; what a collaborator
      answers is read from an environment. *)

From Stdlib Require Import ZArith List String Ascii Bool Lia.
Import ListNotations.

Local Open Scope string_scope.
Local Open Scope list_scope.
Local Open Scope Z_scope.

(** ** Text helpers of the C and C++ libraries *)

(** [strchr s c]: offset of the first occurrence of [c] in [s]. *)
Fixpoint strchr (s : string) (c : ascii) : option nat :=
  match s with
  | EmptyString => None
  | String a rest =>
      if Ascii.eqb a c then Some O else option_map S (strchr rest c)
  end.

(** [std::string::empty]. *)
Definition empty (s : string) : bool :=
  match s with
  | EmptyString => true
  | String _ _ => false
  end.

Definition char_code (c : ascii) : Z := Z.of_N (N_of_ascii c).

(** [isspace] in the C locale. *)
Definition isspace (c : ascii) : bool :=
  (char_code c =? 32) || ((9 <=? char_code c) && (char_code c <=? 13)).

Definition isdigit (c : ascii) : bool :=
  (48 <=? char_code c) && (char_code c <=? 57).

Fixpoint skip_spaces (s : string) : string :=
  match s with
  | String a rest => if isspace a then skip_spaces rest else s
  | EmptyString => s
  end.

(** The longest run of decimal digits at the head of [s], accumulated on
    [acc]; [None] when [s] does not start with a digit. *)
Fixpoint scan_digits (s : string) (acc : option Z) : option Z :=
  match s with
  | String a rest =>
      if isdigit a
      then scan_digits rest
             (Some (10 * match acc with Some v => v | None => 0 end
                    + (char_code a - 48)))
      else acc
  | EmptyString => acc
  end.

(** [unsigned long] of the 32-bit Raspberry Pi userland. *)
Definition ULONG_MAX : Z := 4294967295.
Definition UINT_MODULUS : Z := 4294967296.

(** [strtoul]'s result for the magnitude [v] read after an optional sign:
    saturation on overflow, negation modulo 2^32 otherwise. *)
Definition strtoul_value (negative : bool) (v : Z) : Z :=
  if ULONG_MAX <? v then ULONG_MAX
  else if negative then (UINT_MODULUS - v) mod UINT_MODULUS
  else v.

(** [sscanf( s, "%u", &x )]: [Some x] when one item was converted (the call
    returns 1), [None] when it returns 0 or EOF and leaves [x] alone.
    White space is skipped, one sign is accepted, digits are read as far as
    they go. *)
Definition sscanf_u (s : string) : option Z :=
  let s1 := skip_spaces s in
  let '(negative, s2) :=
    match s1 with
    | String a rest =>
        if Ascii.eqb a "-" then (true, rest)
        else if Ascii.eqb a "+" then (false, rest)
        else (false, s1)
    | EmptyString => (false, s1)
    end in
  match scan_digits s2 None with
  | Some v => Some (strtoul_value negative v mod UINT_MODULUS)
  | None => None
  end.

(** ** Settings *)

(** [UserGroup] of XWebServer.hpp, with the three values the source names. *)
Inductive UserGroup : Type := Anyone | User | Admin.

Definition UserGroup_eqb (a b : UserGroup) : bool :=
  match a, b with
  | Anyone, Anyone | User, User | Admin, Admin => true
  | _, _ => false
  end.

Record SettingsT : Type := mkSettings {
  FrameWidth : Z;
  FrameHeight : Z;
  FrameRate : Z;
  JpegQuality : Z;
  WebPort : Z;
  HtRealm : string;
  HtDigestFileName : string;
  CameraConfigFileName : string;
  CustomWebContent : string;
  BotTitle : string;
  ViewersGroup : UserGroup;
  ConfigGroup : UserGroup
}.

Definition set_FrameSize (w h : Z) (s : SettingsT) : SettingsT :=
  mkSettings w h (FrameRate s) (JpegQuality s) (WebPort s) (HtRealm s)
    (HtDigestFileName s) (CameraConfigFileName s) (CustomWebContent s)
    (BotTitle s) (ViewersGroup s) (ConfigGroup s).

Definition set_FrameRate (v : Z) (s : SettingsT) : SettingsT :=
  mkSettings (FrameWidth s) (FrameHeight s) v (JpegQuality s) (WebPort s)
    (HtRealm s) (HtDigestFileName s) (CameraConfigFileName s)
    (CustomWebContent s) (BotTitle s) (ViewersGroup s) (ConfigGroup s).

Definition set_JpegQuality (v : Z) (s : SettingsT) : SettingsT :=
  mkSettings (FrameWidth s) (FrameHeight s) (FrameRate s) v (WebPort s)
    (HtRealm s) (HtDigestFileName s) (CameraConfigFileName s)
    (CustomWebContent s) (BotTitle s) (ViewersGroup s) (ConfigGroup s).

Definition set_WebPort (v : Z) (s : SettingsT) : SettingsT :=
  mkSettings (FrameWidth s) (FrameHeight s) (FrameRate s) (JpegQuality s) v
    (HtRealm s) (HtDigestFileName s) (CameraConfigFileName s)
    (CustomWebContent s) (BotTitle s) (ViewersGroup s) (ConfigGroup s).

Definition set_HtRealm (v : string) (s : SettingsT) : SettingsT :=
  mkSettings (FrameWidth s) (FrameHeight s) (FrameRate s) (JpegQuality s)
    (WebPort s) v (HtDigestFileName s) (CameraConfigFileName s)
    (CustomWebContent s) (BotTitle s) (ViewersGroup s) (ConfigGroup s).

Definition set_HtDigestFileName (v : string) (s : SettingsT) : SettingsT :=
  mkSettings (FrameWidth s) (FrameHeight s) (FrameRate s) (JpegQuality s)
    (WebPort s) (HtRealm s) v (CameraConfigFileName s)
    (CustomWebContent s) (BotTitle s) (ViewersGroup s) (ConfigGroup s).

Definition set_CameraConfigFileName (v : string) (s : SettingsT) : SettingsT :=
  mkSettings (FrameWidth s) (FrameHeight s) (FrameRate s) (JpegQuality s)
    (WebPort s) (HtRealm s) (HtDigestFileName s) v
    (CustomWebContent s) (BotTitle s) (ViewersGroup s) (ConfigGroup s).

Definition set_CustomWebContent (v : string) (s : SettingsT) : SettingsT :=
  mkSettings (FrameWidth s) (FrameHeight s) (FrameRate s) (JpegQuality s)
    (WebPort s) (HtRealm s) (HtDigestFileName s) (CameraConfigFileName s)
    v (BotTitle s) (ViewersGroup s) (ConfigGroup s).

Definition set_BotTitle (v : string) (s : SettingsT) : SettingsT :=
  mkSettings (FrameWidth s) (FrameHeight s) (FrameRate s) (JpegQuality s)
    (WebPort s) (HtRealm s) (HtDigestFileName s) (CameraConfigFileName s)
    (CustomWebContent s) v (ViewersGroup s) (ConfigGroup s).

Definition set_ViewersGroup (v : UserGroup) (s : SettingsT) : SettingsT :=
  mkSettings (FrameWidth s) (FrameHeight s) (FrameRate s) (JpegQuality s)
    (WebPort s) (HtRealm s) (HtDigestFileName s) (CameraConfigFileName s)
    (CustomWebContent s) (BotTitle s) v (ConfigGroup s).

Definition set_ConfigGroup (v : UserGroup) (s : SettingsT) : SettingsT :=
  mkSettings (FrameWidth s) (FrameHeight s) (FrameRate s) (JpegQuality s)
    (WebPort s) (HtRealm s) (HtDigestFileName s) (CameraConfigFileName s)
    (CustomWebContent s) (BotTitle s) (ViewersGroup s) v.

(** What the build fixes: [NDEBUG] and the macros of BotConfig.h, which is
    not part of the sources at hand.  A pin macro that is not defined is
    [None]. *)
Record BuildConfig : Type := mkBuild {
  NDEBUG : bool;
  BOT_PIN_ON_LED : option Z;
  BOT_PIN_CONNECTION_ACTIVE_LED : option Z;
  BOT_DISTANCE_ENABLE_MEASUREMENTS : bool
}.

(** The global [Settings] before [main] runs: static storage, so numbers are
    zero and strings empty; the first enumerator stands for the zeroed
    groups. *)
Definition Settings0 : SettingsT :=
  mkSettings 0 0 0 0 0 "" "" "" "" "" Anyone Anyone.

Definition BOT_NAME : string := "PiRex Bot".

(** [SetDefaultSettings]; [pw_dir] is the home directory [getpwuid] found,
    [None] when it returned a null pointer. *)
Definition SetDefaultSettings (build : BuildConfig) (pw_dir : option string)
    (s : SettingsT) : SettingsT :=
  let s := set_FrameSize 640 480 s in
  let s := set_FrameRate 30 s in
  let s := set_JpegQuality 10 s in
  let s := set_WebPort 8000 s in
  let s := set_HtRealm "pirexbot" s in
  let s := set_HtDigestFileName "" s in
  let s := set_ViewersGroup Anyone s in
  let s := set_ConfigGroup Anyone s in
  let s := match pw_dir with
           | Some dir => set_CameraConfigFileName (dir ++ "/.cam_config")%string s
           | None => s
           end in
  let s := if NDEBUG build then set_CustomWebContent "" s
           else set_CustomWebContent "./web" s in
  set_BotTitle BOT_NAME s.

(** ** Recorded effects *)

Inductive PrintfArg : Type :=
| ArgStr (s : string)
| ArgInt (z : Z).

Inductive PinModeT : Type := OUTPUT.
Inductive PinLevel : Type := LOW | HIGH.

(** The signals [main] installs [sigIntHandler] for. *)
Inductive SignalT : Type := SIGINT | SIGQUIT | SIGTERM | SIGABRT.

(** One call to the outside.  [ServerAddHandler path group] has
    [group = None] where the source leaves the group argument to its
    default. *)
Inductive Action : Type :=
| Printf (fmt : string) (args : list PrintfArg)
| WiringPiSetupPhys
| PinMode (pin : Z) (mode : PinModeT)
| DigitalWrite (pin : Z) (level : PinLevel)
| Sigaction (sig : SignalT)
| CameraCreate
| SerializerCreate (fileName : string)
| ServerCreate (port : Z)
| ServerSetAuthDomain (realm : string)
| ServerLoadUsersFromFile (fileName : string)
| CameraSetVideoSize (width height : Z)
| CameraSetFrameRate (rate : Z)
| CameraSetJpegQuality (quality : Z)
| SerializerLoadConfiguration
| MotorsCreate
| DistanceCreate
| ServerAddHandler (path : string) (group : option UserGroup)
| ServerSetDocumentRoot (folder : string)
| CameraSetListener
| ServerStart
| CameraStart
| DistanceStartMeasurements
| SerializerSaveConfiguration
| MotorsStop
| DistanceStopMeasurements
| CameraSignalToStop
| CameraWaitForStop
| ServerStop.

(** ** ParseCommandLine *)

Definition STR_INFO_VERSION : string := "1.0.0".

Definition SupportedWidth : list Z := [320; 480; 640; 800; 1120].
Definition SupportedHeight : list Z := [240; 360; 480; 600; 840].

Definition SupportedUserGroups : list (string * UserGroup) :=
  [("any", Anyone); ("user", User); ("admin", Admin)].

(** [std::map::find]: the value stored under [key], [None] for [end()]. *)
Fixpoint map_find (m : list (string * UserGroup)) (key : string)
    : option UserGroup :=
  match m with
  | [] => None
  | (k, g) :: rest => if String.eqb k key then Some g else map_find rest key
  end.

(** The state the loop of [ParseCommandLine] works on.  [viewersGroup] holds
    the local of that name together with its flag [overrideViewersGroup]:
    [None] while the flag is false and the local still uninitialised,
    [Some g] from the moment lines 260-261 assign both; likewise
    [configGroup]. *)
Record ParseState : Type := mkParse {
  settings : SettingsT;
  viewersGroup : option UserGroup;
  configGroup : option UserGroup
}.

Definition overrideViewersGroup (st : ParseState) : bool :=
  match viewersGroup st with Some _ => true | None => false end.

Definition overrideConfigGroup (st : ParseState) : bool :=
  match configGroup st with Some _ => true | None => false end.

Definition with_settings (st : ParseState) (s : SettingsT) : ParseState :=
  mkParse s (viewersGroup st) (configGroup st).

(** [value[0]]; [operator[]] at the end of a string yields the null
    character. *)
Definition char0 (value : string) : ascii :=
  match value with
  | String c _ => c
  | EmptyString => zero
  end.

(** Lines 183-191: the key and the value of [arg], [None] where the loop
    breaks at line 187. *)
Definition split_arg (arg : string) : option (string * string) :=
  match strchr arg ":" with
  | None => None
  | Some d =>
      if Ascii.eqb (char0 arg) "-"
      then Some (substring 1 (d - 1) arg,
                 substring (d + 1) (String.length arg - (d + 1)) arg)
      else None
  end.

(** Lines 196-293: the chain of comparisons on [key]; [None] is [break]. *)
Definition apply_option (key value : string) (st : ParseState)
    : option ParseState :=
  let s := settings st in
  if String.eqb key "size" then
    let v := char_code (char0 value) - 48 in
    if (v <? 0) || (4 <? v) then None
    else Some (with_settings st
                 (set_FrameSize (nth (Z.to_nat v) SupportedWidth 0)
                                (nth (Z.to_nat v) SupportedHeight 0) s))
  else if String.eqb key "fps" then
    match sscanf_u value with
    | None => None
    | Some n =>
        let s := set_FrameRate n s in
        let s := if (FrameRate s <? 1) || (30 <? FrameRate s)
                 then set_FrameRate 30 s else s in
        Some (with_settings st s)
    end
  else if String.eqb key "jpeg" then
    match sscanf_u value with
    | None => None
    | Some n =>
        let s := set_JpegQuality n s in
        let s := if JpegQuality s <? 1 then set_JpegQuality 1 s else s in
        let s := if 100 <? JpegQuality s then set_JpegQuality 100 s else s in
        Some (with_settings st s)
    end
  else if String.eqb key "port" then
    match sscanf_u value with
    | None => None
    | Some n =>
        let s := set_WebPort n s in
        let s := if 65535 <? WebPort s then set_WebPort 65535 s else s in
        Some (with_settings st s)
    end
  else if String.eqb key "realm" then
    Some (with_settings st (set_HtRealm value s))
  else if String.eqb key "htpass" then
    Some (with_settings st
            (set_ConfigGroup Admin
               (set_ViewersGroup User (set_HtDigestFileName value s))))
  else if String.eqb key "viewer" then
    match map_find SupportedUserGroups value with
    | None => None
    | Some g => Some (mkParse s (Some g) (configGroup st))
    end
  else if String.eqb key "config" then
    match map_find SupportedUserGroups value with
    | None => None
    | Some g => Some (mkParse s (viewersGroup st) (Some g))
    end
  else if String.eqb key "fcfg" then
    Some (with_settings st (set_CameraConfigFileName value s))
  else if String.eqb key "web" then
    Some (with_settings st (set_CustomWebContent value s))
  else if String.eqb key "title" then
    Some (with_settings st (set_BotTitle value s))
  else None.

(** One iteration of the loop at lines 181-294 on [argv[i]]. *)
Definition parse_arg (arg : string) (st : ParseState) : option ParseState :=
  match split_arg arg with
  | None => None
  | Some (key, value) =>
      if empty key || empty value then None
      else apply_option key value st
  end.

(** The loop itself, on the arguments from [argv[i]] on; it returns the state
    and the value of [i] at which it was left. *)
Fixpoint parse_loop (args : list string) (i : nat) (st : ParseState)
    : ParseState * nat :=
  match args with
  | [] => (st, i)
  | arg :: rest =>
      match parse_arg arg st with
      | Some st' => parse_loop rest (S i) st'
      | None => (st, i)
      end
  end.

Definition warning_text : string :=
  "Warning: users file was not specified, so ignoring the specified viewer/configuration groups. \n\n".

Definition help_text : list Action :=
  [ Printf "PiRexBot - remote controlled bot based on RaspberryPi \n" [];
    Printf "Version: %s \n\n" [ArgStr STR_INFO_VERSION];
    Printf "Available command line options: \n" [];
    Printf "  -size:<0-4> Sets video size to one from the list below: \n" [];
    Printf "              0: 320x240 \n" [];
    Printf "              1: 480x360 \n" [];
    Printf "              2: 640x480 (default) \n" [];
    Printf "              3: 800x600 \n" [];
    Printf "              4: 1120x840 \n" [];
    Printf "  -fps:<1-30> Sets camera frame rate. Same is used for MJPEG stream. \n" [];
    Printf "              Default is 30. \n" [];
    Printf "  -jpeg:<num> JPEG quantization factor (quality). \n" [];
    Printf "              Default is 10. \n" [];
    Printf "  -port:<num> Port number for web server to listen on. \n" [];
    Printf "              Default is 8000. \n" [];
    Printf "  -realm:<?>  HTTP digest authentication domain. \n" [];
    Printf "              Default is 'pirexbot'. \n" [];
    Printf "  -htpass:<?> htdigest file containing list of users to access the camera. \n" [];
    Printf "              Note: only users for the specified/default realm are loaded. \n" [];
    Printf "              Note: if users file is specified, then by default only users \n" [];
    Printf "                    from that list are allowed to view camera and only \n" [];
    Printf "                    'admin' user is allowed to change its settings. \n" [];
    Printf "  -viewer:<?> Group of users allowed to view camera of the bot: any, user, admin. \n" [];
    Printf "              Default is 'any' if users file is not specified, \n" [];
    Printf "              or 'user' otherwise. \n" [];
    Printf "  -config:<?> Group of users allowed to control the bot. \n" [];
    Printf "              Default is 'any' if users file is not specified, \n" [];
    Printf "              or 'admin' otherwise. \n" [];
    Printf "  -fcfg:<?>   Name of the file to store camera settings in. \n" [];
    Printf "              Default is '~/.cam_config'. \n" [];
    Printf "  -web:<?>    Name of the folder to serve custom web content. \n" [];
    Printf "              By default embedded web files are used. \n" [];
    Printf "  -title:<?>  Name of the bot to be shown in WebUI. \n" [];
    Printf "              Use double quotes if the name contains spaces. \n" [];
    Printf "\n" [] ].

(** Lines 296-298: a group other than [Anyone] was asked for while no users
    file is named. *)
Definition groups_ignored (st : ParseState) : bool :=
  ((match viewersGroup st with
    | Some g => negb (UserGroup_eqb g Anyone)
    | None => false
    end)
   || (match configGroup st with
       | Some g => negb (UserGroup_eqb g Anyone)
       | None => false
       end))
  && empty (HtDigestFileName (settings st)).

(** Lines 296-312. *)
Definition resolve_groups (st : ParseState) : SettingsT * list Action :=
  if groups_ignored st
  then (settings st, [Printf warning_text []])
  else
    let s := settings st in
    let s := match viewersGroup st with
             | Some g => set_ViewersGroup g s
             | None => s
             end in
    let s := match configGroup st with
             | Some g => set_ConfigGroup g s
             | None => s
             end in
    (s, []).

(** [ParseCommandLine( argc, argv )] with [argc = length argv], run on the
    global [Settings = s]: the returned flag, [Settings] afterwards, and what
    was printed. *)
Definition ParseCommandLine (argv : list string) (s : SettingsT)
    : bool * SettingsT * list Action :=
  let argc := List.length argv in
  let '(st, i) := parse_loop (skipn 1 argv) 1 (mkParse s None None) in
  let '(s', warned) := resolve_groups st in
  if negb (Nat.eqb i argc)
  then (false, s', warned ++ help_text)
  else (true, s', warned).

Definition parse_ret (r : bool * SettingsT * list Action) : bool := fst (fst r).
Definition parse_settings (r : bool * SettingsT * list Action) : SettingsT :=
  snd (fst r).
Definition parse_output (r : bool * SettingsT * list Action) : list Action :=
  snd r.

(** ** The exit event, the signal handler and the camera listener *)

(** Modelled from the spec: [XManualResetEvent] (XManualResetEvent.hpp is not
    among the sources).  A single boolean event, initially unset; [Signal]
    sets it and is idempotent; [Wait] with a timeout answers whether the event
    is set when the wait ends, and keeps answering so once it is. *)
Record XManualResetEvent : Type := mkEvent { is_signaled : bool }.

Definition Event_new : XManualResetEvent := mkEvent false.

Definition Event_Signal (e : XManualResetEvent) : XManualResetEvent :=
  mkEvent true.

Definition Event_Wait (e : XManualResetEvent) (msec : Z) : bool :=
  is_signaled e.

(** [sigIntHandler], acting on the global [ExitEvent]. *)
Definition sigIntHandler (s : SignalT) (ExitEvent : XManualResetEvent)
    : XManualResetEvent :=
  Event_Signal ExitEvent.

(** [CameraErrorListener::OnNewImage]: ignored. *)
Definition OnNewImage (ExitEvent : XManualResetEvent) : XManualResetEvent :=
  ExitEvent.

(** [CameraErrorListener::OnError]: what is printed and [ExitEvent]
    afterwards. *)
Definition OnError (errorMessage : string) (fatal : bool)
    (ExitEvent : XManualResetEvent) : list Action * XManualResetEvent :=
  ([Printf "[%s] : %s \n"
      [ArgStr (if fatal then "Fatal" else "Error"); ArgStr errorMessage]],
   if fatal then Event_Signal ExitEvent else ExitEvent).

(** What reaches the process from other contexts while the control thread
    runs: a handled signal, or a notification of the camera. *)
Inductive Notification : Type :=
| SignalDelivered (s : SignalT)
| NewImage
| VideoError (errorMessage : string) (fatal : bool).

Definition notify (n : Notification) (ExitEvent : XManualResetEvent)
    : list Action * XManualResetEvent :=
  match n with
  | SignalDelivered s => ([], sigIntHandler s ExitEvent)
  | NewImage => ([], OnNewImage ExitEvent)
  | VideoError errorMessage fatal => OnError errorMessage fatal ExitEvent
  end.

Fixpoint deliver (ns : list Notification) (ExitEvent : XManualResetEvent)
    : list Action * XManualResetEvent :=
  match ns with
  | [] => ([], ExitEvent)
  | n :: rest =>
      let '(out, e) := notify n ExitEvent in
      let '(out', e') := deliver rest e in
      (out ++ out', e')
  end.

(** ** The control loop of main *)

(** What one turn of the loop reads from outside.  Time points are those of
    [steady_clock], in its period of a nanosecond.
    - [notifications]: what was delivered since the previous [Wait] returned
      and until this one does;
    - [motor_now], [motor_access]: [steady_clock::now( )] and
      [server.LastAccessTime( "/motors/config" )] of line 546;
    - [led_now], [led_access]: [steady_clock::now( )] and
      [server.LastAccessTime( )] of line 555. *)
Record TickEnv : Type := mkTick {
  notifications : list Notification;
  motor_now : Z;
  motor_access : Z;
  led_now : Z;
  led_access : Z
}.

(** [duration_cast<milliseconds>( d ).count( )] of a nanosecond duration:
    division truncating toward zero. *)
Definition duration_cast_ms (d : Z) : Z := Z.quot d 1000000.

(** Lines 538-543: the new counter and whether the configuration is saved. *)
Definition save_tick (saveCounter : Z) : bool * Z :=
  let saveCounter := saveCounter + 1 in
  if saveCounter =? 60 then (true, 0) else (false, saveCounter).

(** Lines 546-551. *)
Definition timeSinceMotorAccess (t : TickEnv) : Z :=
  duration_cast_ms (motor_now t - motor_access t).

Definition watchdog (t : TickEnv) : list Action :=
  if 1000 <=? timeSinceMotorAccess t then [MotorsStop] else [].

(** Lines 553-558. *)
Definition timeSinceLastAccess (t : TickEnv) : Z :=
  duration_cast_ms (led_now t - led_access t).

Definition activity_led (build : BuildConfig) (t : TickEnv) : list Action :=
  match BOT_PIN_CONNECTION_ACTIVE_LED build with
  | Some pin =>
      [DigitalWrite pin (if timeSinceLastAccess t <? 2000 then HIGH else LOW)]
  | None => []
  end.

(** The body of the loop, lines 538-558. *)
Definition loop_body (build : BuildConfig) (t : TickEnv) (saveCounter : Z)
    : list Action * Z :=
  let '(save, saveCounter) := save_tick saveCounter in
  ((if save then [SerializerSaveConfiguration] else [])
     ++ watchdog t ++ activity_led build t,
   saveCounter).

(** [while ( !ExitEvent.Wait( 1000 ) ) { ... }] against a script of turns.
    The result is [None] when the script ends while the loop is still
    running, and the event and the counter at exit otherwise. *)
Fixpoint control_loop (build : BuildConfig) (ticks : list TickEnv)
    (ExitEvent : XManualResetEvent) (saveCounter : Z)
    : list Action * option (XManualResetEvent * Z) :=
  match ticks with
  | [] => ([], None)
  | t :: rest =>
      let '(out, ExitEvent) := deliver (notifications t) ExitEvent in
      if Event_Wait ExitEvent 1000
      then (out, Some (ExitEvent, saveCounter))
      else
        let '(acts, saveCounter) := loop_body build t saveCounter in
        let '(acts', r) := control_loop build rest ExitEvent saveCounter in
        (out ++ acts ++ acts', r)
  end.

(** ** main *)

Definition BotInit (build : BuildConfig) : list Action :=
  [WiringPiSetupPhys]
    ++ match BOT_PIN_ON_LED build with
       | Some pin => [PinMode pin OUTPUT; DigitalWrite pin HIGH]
       | None => []
       end
    ++ match BOT_PIN_CONNECTION_ACTIVE_LED build with
       | Some pin => [PinMode pin OUTPUT; DigitalWrite pin LOW]
       | None => []
       end.

Definition BotShutDown (build : BuildConfig) : list Action :=
  match BOT_PIN_ON_LED build with
  | Some pin => [DigitalWrite pin LOW]
  | None => []
  end
    ++ match BOT_PIN_CONNECTION_ACTIVE_LED build with
       | Some pin => [DigitalWrite pin LOW]
       | None => []
       end.

(** What a run of [main] meets: its arguments, the home directory, the
    answers of [server.Start( )] and [server.Port( )], and the script of the
    control loop. *)
Record Env : Type := mkEnv {
  argv : list string;
  pw_dir : option string;
  server_Start : bool;
  server_Port : Z;
  ticks : list TickEnv
}.

(** Lines 397-521: everything between the command line and
    [server.Start( )]. *)
Definition setup (build : BuildConfig) (Settings : SettingsT) : list Action :=
  let viewers := Some (ViewersGroup Settings) in
  let config := Some (ConfigGroup Settings) in
  BotInit build
    ++ [Sigaction SIGINT; Sigaction SIGQUIT; Sigaction SIGTERM;
        Sigaction SIGABRT; Sigaction SIGTERM]
    ++ [CameraCreate; SerializerCreate (CameraConfigFileName Settings);
        ServerCreate (WebPort Settings)]
    ++ (if empty (HtRealm Settings) then []
        else [ServerSetAuthDomain (HtRealm Settings)])
    ++ (if empty (HtDigestFileName Settings) then []
        else [ServerLoadUsersFromFile (HtDigestFileName Settings)])
    ++ [CameraSetVideoSize (FrameWidth Settings) (FrameHeight Settings);
        CameraSetFrameRate (FrameRate Settings);
        CameraSetJpegQuality (JpegQuality Settings);
        SerializerLoadConfiguration;
        MotorsCreate;
        ServerAddHandler "/version" None;
        ServerAddHandler "/camera/config" config;
        ServerAddHandler "/motors/config" config;
        ServerAddHandler "/camera/properties" config;
        ServerAddHandler "/camera/info" viewers;
        ServerAddHandler "/info" viewers;
        ServerAddHandler "/camera/jpeg" viewers;
        ServerAddHandler "/camera/mjpeg" viewers]
    ++ (if BOT_DISTANCE_ENABLE_MEASUREMENTS build
        then [DistanceCreate; ServerAddHandler "/distance" viewers]
        else [])
    ++ (if negb (empty (CustomWebContent Settings))
        then [ServerSetDocumentRoot (CustomWebContent Settings)]
        else if NDEBUG build
        then [ServerAddHandler "/" viewers;
              ServerAddHandler "index.html" viewers;
              ServerAddHandler "styles.css" viewers;
              ServerAddHandler "pirex.png" None;
              ServerAddHandler "pirex_white.png" None;
              ServerAddHandler "camera.js" viewers;
              ServerAddHandler "cameraproperties.js" viewers;
              ServerAddHandler "cameraproperties.html" config;
              ServerAddHandler "botcontrols.html" config;
              ServerAddHandler "jquery.js" viewers;
              ServerAddHandler "jquery.mobile.js" viewers;
              ServerAddHandler "jquery.mobile.css" viewers;
              ServerAddHandler "forward.png" None;
              ServerAddHandler "backward.png" None;
              ServerAddHandler "slight_left.png" None;
              ServerAddHandler "slight_right.png" None;
              ServerAddHandler "rotate_left.png" None;
              ServerAddHandler "rotate_right.png" None]
        else [])
    ++ [CameraSetListener].

(** Lines 527-534: after the server has started, before the loop. *)
Definition startup (build : BuildConfig) (env : Env) : list Action :=
  [Printf "Web server started on port %d ...\n" [ArgInt (server_Port env)];
   Printf "Ctrl+C to stop.\n" [];
   CameraStart]
    ++ (if BOT_DISTANCE_ENABLE_MEASUREMENTS build
        then [DistanceStartMeasurements] else []).

(** Lines 561-570: after the loop. *)
Definition teardown (build : BuildConfig) : list Action :=
  (if BOT_DISTANCE_ENABLE_MEASUREMENTS build
   then [DistanceStopMeasurements] else [])
    ++ [SerializerSaveConfiguration;
        CameraSignalToStop;
        CameraWaitForStop;
        ServerStop;
        Printf "Done \n" []].

(** [main]: the trace of its calls and the value it returns, [None] when the
    script of [env] ends while the control loop is still running. *)
Definition main (build : BuildConfig) (env : Env)
    : list Action * option Z :=
  let Settings := SetDefaultSettings build (pw_dir env) Settings0 in
  let '(ok, Settings, printed) := ParseCommandLine (argv env) Settings in
  if negb ok then (printed, Some (-1))
  else
    let before := printed ++ setup build Settings ++ [ServerStart] in
    if server_Start env
    then
      let '(looped, r) := control_loop build (ticks env) Event_new 0 in
      match r with
      | None => (before ++ startup build env ++ looped, None)
      | Some _ =>
          (before ++ startup build env ++ looped ++ teardown build
             ++ BotShutDown build,
           Some 0)
      end
    else
      (before
         ++ [Printf "Failed starting web server on port %d\n"
               [ArgInt (server_Port env)]]
         ++ BotShutDown build,
       Some 0).

(** ** The command line in the words of the specification

    The notions the specification uses for a token, stated on the text of
    the token alone; the theorems below relate them to [parse_arg]. *)

Fixpoint has_char (c : ascii) (s : string) : bool :=
  match s with
  | EmptyString => false
  | String a rest => Ascii.eqb a c || has_char c rest
  end.

(** [t] reads [-key:value], the key ending at the first colon of [t]. *)
Definition token_parts (t key value : string) : Prop :=
  t = String "-" (key ++ String ":" value)%string /\ has_char ":" key = false.

(** Missing colon, no option marker, empty key, empty value. *)
Definition malformed (t : string) : Prop :=
  has_char ":" t = false
  \/ char0 t <> "-"%char
  \/ (exists value, token_parts t "" value)
  \/ (exists key, token_parts t key "").

Definition option_keys : list string :=
  ["size"; "fps"; "jpeg"; "port"; "realm"; "htpass"; "viewer"; "config";
   "fcfg"; "web"; "title"].

Definition unrecognized_key (t : string) : Prop :=
  exists key value, token_parts t key value /\ ~ In key option_keys.

(** A key of the list with a value its option does not take: a size that
    does not start with a digit from 0 to 4, a frame rate, quality or port
    that does not scan as an unsigned number, a group that is not one of
    any, user, admin. *)
Definition rejected_value (t : string) : Prop :=
  exists key value,
    token_parts t key value
    /\ ((key = "size" /\ ~ (48 <= char_code (char0 value) <= 52))
        \/ (In key ["fps"; "jpeg"; "port"] /\ sscanf_u value = None)
        \/ (In key ["viewer"; "config"]
            /\ ~ In value ["any"; "user"; "admin"])).

Definition rejected (t : string) : Prop :=
  malformed t \/ unrecognized_key t \/ rejected_value t.

(** A notification that sets the exit event: a handled signal or a fatal
    error of the camera. *)
Definition raises_exit (n : Notification) : bool :=
  match n with
  | SignalDelivered _ => true
  | NewImage => false
  | VideoError _ fatal => fatal
  end.

(** The warning of line 300. *)
Definition is_warning (a : Action) : bool :=
  match a with
  | Printf fmt [] => String.eqb fmt warning_text
  | _ => false
  end.

(** Calls to the collaborators, as opposed to diagnostics printed. *)
Definition is_call (a : Action) : bool :=
  match a with
  | Printf _ _ => false
  | _ => true
  end.

(** ** Invariants of the parsing loop *)

(** While no users file is named, both groups are still [Anyone]. *)
Definition open_without_users_file (st : ParseState) : Prop :=
  HtDigestFileName (settings st) = "" ->
  ViewersGroup (settings st) = Anyone /\ ConfigGroup (settings st) = Anyone.

(** Once a users file is named, the settings hold it with the groups [User]
    and [Admin] until the loop ends. *)
Definition tightened (st : ParseState) : Prop :=
  HtDigestFileName (settings st) <> ""
  /\ ViewersGroup (settings st) = User
  /\ ConfigGroup (settings st) = Admin.

(** The documented ranges of the numeric settings. *)
Definition in_ranges (st : ParseState) : Prop :=
  1 <= FrameRate (settings st) <= 30
  /\ 1 <= JpegQuality (settings st) <= 100
  /\ 0 <= WebPort (settings st) <= 65535.

(** The frame sizes of the two tables, index by index. *)
Definition supported_sizes : list (Z * Z) :=
  combine SupportedWidth SupportedHeight.

(** Some token of [tokens] reads [-key:value]. *)
Definition mentions (key : string) (tokens : list string) : Prop :=
  exists t value, In t tokens /\ token_parts t key value.

(** Two steps of the loop in a row, [None] when either breaks. *)
Definition parse_two (t1 t2 : string) (st : ParseState) : option ParseState :=
  match parse_arg t1 st with
  | Some st1 => parse_arg t2 st1
  | None => None
  end.

(** During the loop the groups of [Settings] are the defaults without a
    users file and [User], [Admin] with one. *)
Definition groups_follow_users_file (st : ParseState) : Prop :=
  (HtDigestFileName (settings st) = ""
   -> ViewersGroup (settings st) = Anyone
      /\ ConfigGroup (settings st) = Anyone)
  /\ (HtDigestFileName (settings st) <> ""
      -> ViewersGroup (settings st) = User
         /\ ConfigGroup (settings st) = Admin).

(** ** The control loop in the words of the specification *)

(** A turn during which nothing sets the exit event. *)
Definition quiet (t : TickEnv) : bool :=
  forallb (fun n => negb (raises_exit n)) (notifications t).

(** A turn during which the exit event is set. *)
Definition signals_exit (t : TickEnv) : bool :=
  existsb raises_exit (notifications t).

(** The save counter after [n] turns of the loop, from 0. *)
Definition counter_after (n : nat) : Z :=
  Nat.iter n (fun c => snd (save_tick c)) 0.

Definition is_save (a : Action) : bool :=
  match a with
  | SerializerSaveConfiguration => true
  | _ => false
  end.

Definition count_saves (trace : list Action) : nat :=
  List.length (filter is_save trace).

(** Two turns that read the same clocks and access times. *)
Definition same_readings (t1 t2 : TickEnv) : Prop :=
  motor_now t1 = motor_now t2 /\ motor_access t1 = motor_access t2
  /\ led_now t1 = led_now t2 /\ led_access t1 = led_access t2.

(** Two turns the control thread cannot tell apart: the same readings, and
    notifications that leave the exit event in the same state. *)
Definition same_turn (t1 t2 : TickEnv) : Prop :=
  same_readings t1 t2
  /\ forall e, snd (deliver (notifications t1) e)
               = snd (deliver (notifications t2) e).

(** What the control loop can do: print, save, stop the motors, write a
    pin. *)
Definition loop_action (a : Action) : bool :=
  match a with
  | Printf _ _ | SerializerSaveConfiguration | MotorsStop
  | DigitalWrite _ _ => true
  | _ => false
  end.

Definition is_motors_stop (a : Action) : bool :=
  match a with
  | MotorsStop => true
  | _ => false
  end.

(** A turn at which the last access to /motors/config is at least 1000 ms
    old. *)
Definition stale (t : TickEnv) : bool := 1000 <=? timeSinceMotorAccess t.

(** The calls that hand a setting to a collaborator. *)
Definition is_configuration (a : Action) : bool :=
  match a with
  | ServerCreate _ | CameraSetVideoSize _ _ | CameraSetFrameRate _
  | CameraSetJpegQuality _ | SerializerCreate _ => true
  | _ => false
  end.

(** The calls that register a handler or load the users. *)
Definition is_access_control (a : Action) : bool :=
  match a with
  | ServerAddHandler _ _ | ServerLoadUsersFromFile _ => true
  | _ => false
  end.

(** The calls that only a started server sees: the start of the camera and
    of the measurements, the work of the loop, and the teardown. *)
Definition is_running (a : Action) : bool :=
  match a with
  | CameraStart | DistanceStartMeasurements | SerializerSaveConfiguration
  | MotorsStop | DistanceStopMeasurements | CameraSignalToStop
  | CameraWaitForStop | ServerStop => true
  | _ => false
  end.

(** What [main] can do once [server.Start( )] has been called. *)
Definition after_setup (a : Action) : bool := is_running a || loop_action a.

(** A handler anyone may reach: registered for [Anyone] or with the group
    left to its default. *)
Definition open_handler (a : Action) : bool :=
  match a with
  | ServerAddHandler _ None | ServerAddHandler _ (Some Anyone) => true
  | _ => false
  end.

(** A handler registered for [User] or [Admin], or with the group left to
    its default, or the loading of the users. *)
Definition guarded_handler (a : Action) : bool :=
  match a with
  | ServerAddHandler _ None | ServerAddHandler _ (Some User)
  | ServerAddHandler _ (Some Admin) | ServerLoadUsersFromFile _ => true
  | _ => false
  end.

(** * Properties *)

(** ** Text *)

Lemma substring_all (s : string) : substring 0 (String.length s) s = s.
Proof.
  induction s as [|a s IH]; simpl; [reflexivity | now rewrite IH].
Qed.

Lemma substring_prefix (p s : string) :
  substring 0 (String.length p) (p ++ s) = p.
Proof.
  induction p as [|a p IH]; simpl.
  - destruct s; reflexivity.
  - now rewrite IH.
Qed.

Lemma substring_suffix (p s : string) :
  substring (String.length p) (String.length (p ++ s) - String.length p)
    (p ++ s) = s.
Proof.
  induction p as [|a p IH]; simpl.
  - rewrite Nat.sub_0_r. apply substring_all.
  - exact IH.
Qed.

Lemma strchr_None_has_char (s : string) (c : ascii) :
  strchr s c = None <-> has_char c s = false.
Proof.
  induction s as [|a s IH]; simpl.
  - tauto.
  - destruct (Ascii.eqb a c); simpl.
    + split; discriminate.
    + destruct (strchr s c); simpl in *.
      * split; [discriminate | intros H; apply IH in H; discriminate].
      * split; [intros _; now apply IH | reflexivity].
Qed.

Lemma strchr_app (p s : string) (c : ascii) :
  has_char c p = false ->
  strchr (p ++ String c s) c = Some (String.length p).
Proof.
  induction p as [|a p IH]; simpl; intros H.
  - now rewrite Ascii.eqb_refl.
  - apply orb_false_iff in H as [Ha Hp].
    rewrite Ha, (IH Hp). reflexivity.
Qed.

Lemma strchr_Some_split (s : string) (c : ascii) (d : nat) :
  strchr s c = Some d ->
  exists p q, s = (p ++ String c q)%string /\ String.length p = d
              /\ has_char c p = false.
Proof.
  revert d. induction s as [|a s IH]; simpl; intros d H.
  - discriminate.
  - destruct (Ascii.eqb a c) eqn:E.
    + injection H as <-. apply Ascii.eqb_eq in E. subst a.
      exists ""%string, s. repeat split.
    + destruct (strchr s c) as [d'|]; simpl in H; [|discriminate].
      injection H as <-.
      destruct (IH d' eq_refl) as (p & q & -> & Hl & Hp).
      exists (String a p), q. simpl. rewrite E, Hl, Hp. repeat split.
Qed.

Lemma length_append (p s : string) :
  String.length (p ++ s) = (String.length p + String.length s)%nat.
Proof.
  induction p as [|a p IH]; simpl; [reflexivity | now rewrite IH].
Qed.

Lemma substring_after (p q : string) (c : ascii) :
  substring (S (String.length p)) (String.length q) (p ++ String c q) = q.
Proof.
  induction p as [|a p IH]; simpl; [apply substring_all | exact IH].
Qed.

(** What [split_arg] computes on a token that reads [-key:value]. *)
Lemma split_arg_compute (key value : string) :
  has_char ":" key = false ->
  split_arg (String "-" (key ++ String ":" value)) = Some (key, value).
Proof.
  intros Hk. unfold split_arg. simpl.
  rewrite (strchr_app key value ":" Hk). simpl.
  rewrite Nat.sub_0_r, substring_prefix.
  replace (String.length (key ++ String ":" value)
           - (String.length key + 1))%nat with (String.length value).
  2:{ rewrite length_append. simpl. lia. }
  rewrite Nat.add_1_r. simpl. now rewrite substring_after.
Qed.

(** [split_arg] cuts a token at its first colon, after the marker. *)
Lemma split_arg_parts (t key value : string) :
  split_arg t = Some (key, value) <-> token_parts t key value.
Proof.
  unfold token_parts. split.
  - unfold split_arg.
    destruct (strchr t ":") as [d|] eqn:E; [|discriminate].
    destruct t as [|a t]; [discriminate|]. simpl char0.
    destruct (Ascii.eqb a "-") eqn:Ea; [|discriminate].
    apply Ascii.eqb_eq in Ea. subst a. simpl in E.
    destruct (strchr t ":") as [d'|] eqn:E'; [|discriminate].
    destruct (strchr_Some_split _ _ _ E') as (p & q & -> & Hl & Hp).
    pose proof (split_arg_compute p q Hp) as Hc.
    unfold split_arg in Hc. simpl in Hc. rewrite E' in Hc. simpl in Hc.
    simpl in E. injection E as <-. simpl.
    intros H. rewrite Hc in H. injection H as <- <-. now split.
  - intros [-> Hk]. now apply split_arg_compute.
Qed.

Lemma empty_true (s : string) : empty s = true <-> s = "".
Proof.
  destruct s; simpl; split; intros H; try reflexivity; discriminate.
Qed.

(** ** One option *)

Lemma map_find_groups (value : string) :
  map_find SupportedUserGroups value = None
  <-> ~ In value ["any"; "user"; "admin"].
Proof.
  change (map_find SupportedUserGroups value)
    with (if String.eqb "any" value then Some Anyone
          else if String.eqb "user" value then Some User
          else if String.eqb "admin" value then Some Admin
          else None).
  destruct (String.eqb_spec "any" value) as [<-|H1];
    [split; [discriminate | intros H; exfalso; apply H; simpl; tauto] |].
  destruct (String.eqb_spec "user" value) as [<-|H2];
    [split; [discriminate | intros H; exfalso; apply H; simpl; tauto] |].
  destruct (String.eqb_spec "admin" value) as [<-|H3];
    [split; [discriminate | intros H; exfalso; apply H; simpl; tauto] |].
  split; [intros _ | reflexivity].
  intros [H|[H|[H|[]]]]; congruence.
Qed.

Lemma apply_option_size (value : string) (st : ParseState) :
  apply_option "size" value st =
  let v := char_code (char0 value) - 48 in
  if (v <? 0) || (4 <? v) then None
  else Some (with_settings st
               (set_FrameSize (nth (Z.to_nat v) SupportedWidth 0)
                  (nth (Z.to_nat v) SupportedHeight 0) (settings st))).
Proof. reflexivity. Qed.

Lemma apply_option_fps (value : string) (st : ParseState) :
  apply_option "fps" value st =
  match sscanf_u value with
  | None => None
  | Some n =>
      Some (with_settings st
              (if (n <? 1) || (30 <? n)
               then set_FrameRate 30 (set_FrameRate n (settings st))
               else set_FrameRate n (settings st)))
  end.
Proof.
  unfold apply_option. simpl. destruct (sscanf_u value) as [n|]; [|reflexivity].
  simpl. destruct ((n <? 1) || (30 <? n)); reflexivity.
Qed.

Lemma apply_option_jpeg (value : string) (st : ParseState) :
  apply_option "jpeg" value st =
  match sscanf_u value with
  | None => None
  | Some n =>
      Some (with_settings st
              (set_JpegQuality (Z.min 100 (Z.max 1 n))
                 (set_JpegQuality n (settings st))))
  end.
Proof.
  unfold apply_option. simpl. destruct (sscanf_u value) as [n|]; [|reflexivity].
  simpl. destruct (Z.ltb_spec n 1) as [H1|H1]; simpl.
  - replace (Z.min 100 (Z.max 1 n)) with 1 by lia. reflexivity.
  - destruct (Z.ltb_spec 100 n) as [H2|H2]; simpl.
    + replace (Z.min 100 (Z.max 1 n)) with 100 by lia. reflexivity.
    + replace (Z.min 100 (Z.max 1 n)) with n by lia.
      destruct (settings st); reflexivity.
Qed.

Lemma apply_option_port (value : string) (st : ParseState) :
  apply_option "port" value st =
  match sscanf_u value with
  | None => None
  | Some n =>
      Some (with_settings st
              (set_WebPort (Z.min 65535 n) (set_WebPort n (settings st))))
  end.
Proof.
  unfold apply_option. simpl. destruct (sscanf_u value) as [n|]; [|reflexivity].
  simpl. destruct (Z.ltb_spec 65535 n) as [H|H].
  - replace (Z.min 65535 n) with 65535 by lia. reflexivity.
  - replace (Z.min 65535 n) with n by lia.
    destruct (settings st); reflexivity.
Qed.

Lemma apply_option_htpass (value : string) (st : ParseState) :
  apply_option "htpass" value st =
  Some (with_settings st
          (set_ConfigGroup Admin
             (set_ViewersGroup User
                (set_HtDigestFileName value (settings st))))).
Proof. reflexivity. Qed.

Lemma apply_option_viewer (value : string) (st : ParseState) :
  apply_option "viewer" value st =
  match map_find SupportedUserGroups value with
  | None => None
  | Some g => Some (mkParse (settings st) (Some g) (configGroup st))
  end.
Proof. reflexivity. Qed.

Lemma apply_option_config (value : string) (st : ParseState) :
  apply_option "config" value st =
  match map_find SupportedUserGroups value with
  | None => None
  | Some g => Some (mkParse (settings st) (viewersGroup st) (Some g))
  end.
Proof. reflexivity. Qed.

Lemma apply_option_unknown (key value : string) (st : ParseState) :
  ~ In key option_keys -> apply_option key value st = None.
Proof.
  intros H. unfold apply_option.
  repeat match goal with
         | |- context [String.eqb key ?k] =>
             destruct (String.eqb_spec key k) as [->|?];
             [exfalso; apply H; simpl; tauto|]
         end.
  reflexivity.
Qed.

(** Closes a goal from a hypothesis that places one concrete key in a list
    of other keys. *)
Ltac wrong_key H :=
  exfalso; cbn [In] in H; intuition discriminate.

(** The cases of [apply_option_None] in which the option is taken. *)
Ltac option_taken Hkeys :=
  split; [discriminate|];
  let H := fresh "H" in
  intros [H|[[H _]|[[H _]|[H _]]]];
  [exfalso; exact (H Hkeys) | discriminate H | wrong_key H | wrong_key H].

(** Whether an option is taken depends on its text alone. *)
Lemma apply_option_None (key value : string) (st : ParseState) :
  apply_option key value st = None
  <-> ~ In key option_keys
      \/ (key = "size" /\ ~ (48 <= char_code (char0 value) <= 52))
      \/ (In key ["fps"; "jpeg"; "port"] /\ sscanf_u value = None)
      \/ (In key ["viewer"; "config"]
          /\ ~ In value ["any"; "user"; "admin"]).
Proof.
  destruct (in_dec string_dec key option_keys) as [Hin|Hout].
  2:{ split; [intros _; now left | intros _; now apply apply_option_unknown]. }
  assert (Hkeys : In key option_keys) by exact Hin.
  unfold option_keys in Hin. cbn [In] in Hin.
  destruct Hin as [<-|[<-|[<-|[<-|[<-|[<-|[<-|[<-|[<-|[<-|[<-|[]]]]]]]]]]]].
  - (* size *)
    rewrite apply_option_size. cbv zeta.
    destruct ((char_code (char0 value) - 48 <? 0)
              || (4 <? char_code (char0 value) - 48)) eqn:E.
    + split; [intros _ | reflexivity]. right; left. split; [reflexivity|].
      apply orb_true_iff in E as [E|E]; apply Z.ltb_lt in E; lia.
    + apply orb_false_iff in E as [E1 E2].
      apply Z.ltb_ge in E1. apply Z.ltb_ge in E2.
      split; [discriminate|].
      intros [H|[[_ H]|[[H _]|[H _]]]];
        [exfalso; exact (H Hkeys) | lia | wrong_key H | wrong_key H].
  - (* fps *)
    rewrite apply_option_fps. destruct (sscanf_u value) as [n|].
    + split; [discriminate|].
      intros [H|[[H _]|[[_ H]|[H _]]]];
        [exfalso; exact (H Hkeys) | discriminate H | discriminate H
        | wrong_key H].
    + split; [intros _ | reflexivity]. right; right; left.
      split; [cbn [In]; tauto | reflexivity].
  - (* jpeg *)
    rewrite apply_option_jpeg. destruct (sscanf_u value) as [n|].
    + split; [discriminate|].
      intros [H|[[H _]|[[_ H]|[H _]]]];
        [exfalso; exact (H Hkeys) | discriminate H | discriminate H
        | wrong_key H].
    + split; [intros _ | reflexivity]. right; right; left.
      split; [cbn [In]; tauto | reflexivity].
  - (* port *)
    rewrite apply_option_port. destruct (sscanf_u value) as [n|].
    + split; [discriminate|].
      intros [H|[[H _]|[[_ H]|[H _]]]];
        [exfalso; exact (H Hkeys) | discriminate H | discriminate H
        | wrong_key H].
    + split; [intros _ | reflexivity]. right; right; left.
      split; [cbn [In]; tauto | reflexivity].
  - (* realm *) option_taken Hkeys.
  - (* htpass *) option_taken Hkeys.
  - (* viewer *)
    rewrite apply_option_viewer.
    destruct (map_find SupportedUserGroups value) as [g|] eqn:E.
    + split; [discriminate|].
      intros [H|[[H _]|[[H _]|[_ H]]]];
        [exfalso; exact (H Hkeys) | discriminate H | wrong_key H |].
      apply map_find_groups in H. congruence.
    + split; [intros _ | reflexivity]. right; right; right.
      split; [cbn [In]; tauto | now apply map_find_groups].
  - (* config *)
    rewrite apply_option_config.
    destruct (map_find SupportedUserGroups value) as [g|] eqn:E.
    + split; [discriminate|].
      intros [H|[[H _]|[[H _]|[_ H]]]];
        [exfalso; exact (H Hkeys) | discriminate H | wrong_key H |].
      apply map_find_groups in H. congruence.
    + split; [intros _ | reflexivity]. right; right; right.
      split; [cbn [In]; tauto | now apply map_find_groups].
  - (* fcfg *) option_taken Hkeys.
  - (* web *) option_taken Hkeys.
  - (* title *) option_taken Hkeys.
Qed.

(** ** One token *)

Lemma token_parts_unique (t k1 v1 k2 v2 : string) :
  token_parts t k1 v1 -> token_parts t k2 v2 -> k1 = k2 /\ v1 = v2.
Proof.
  intros H1 H2. apply split_arg_parts in H1, H2.
  rewrite H1 in H2. injection H2 as <- <-. now split.
Qed.

Lemma split_arg_None (t : string) :
  split_arg t = None <-> has_char ":" t = false \/ char0 t <> "-"%char.
Proof.
  unfold split_arg.
  destruct (strchr t ":") as [d|] eqn:E.
  - assert (Hc : has_char ":" t <> false).
    { intros Hc. apply strchr_None_has_char in Hc. congruence. }
    destruct (Ascii.eqb_spec (char0 t) "-") as [Ha|Ha].
    + split; [discriminate | intros [H|H]; contradiction].
    + split; [intros _; now right | reflexivity].
  - apply strchr_None_has_char in E.
    split; [intros _; now left | reflexivity].
Qed.

(** The loop breaks on a token exactly when the token is rejected in the
    sense of the specification, whatever was parsed before. *)
Lemma parse_arg_None (t : string) (st : ParseState) :
  parse_arg t st = None <-> rejected t.
Proof.
  unfold parse_arg, rejected, malformed, unrecognized_key, rejected_value.
  destruct (split_arg t) as [[key value]|] eqn:E.
  - assert (Hp : token_parts t key value) by now apply split_arg_parts.
    assert (Hs : ~ (has_char ":" t = false \/ char0 t <> "-"%char)).
    { intros H. apply split_arg_None in H. congruence. }
    destruct (empty key) eqn:Ek; simpl.
    { apply empty_true in Ek. subst key.
      split; [intros _ | reflexivity].
      left. right. right. left. now exists value. }
    destruct (empty value) eqn:Ev; simpl.
    { apply empty_true in Ev. subst value.
      split; [intros _ | reflexivity].
      left. right. right. right. now exists key. }
    assert (Hk : key <> "") by (intros ->; discriminate).
    assert (Hv : value <> "") by (intros ->; discriminate).
    rewrite apply_option_None. split.
    + intros [H|H].
      * right. left. exists key, value. now split.
      * right. right. exists key, value. now split.
    + intros [[H|[H|[[v H]|[k H]]]]|[(k & v & H & Hn)|(k & v & H & Hr)]].
      * tauto.
      * tauto.
      * destruct (token_parts_unique _ _ _ _ _ Hp H). congruence.
      * destruct (token_parts_unique _ _ _ _ _ Hp H). congruence.
      * destruct (token_parts_unique _ _ _ _ _ Hp H) as [-> ->]. now left.
      * destruct (token_parts_unique _ _ _ _ _ Hp H) as [-> ->]. now right.
  - split; [intros _ | reflexivity].
    apply split_arg_None in E. left. tauto.
Qed.

Lemma parse_arg_state_free (t : string) (st st' : ParseState) :
  parse_arg t st = None -> parse_arg t st' = None.
Proof.
  intros H. apply parse_arg_None. now apply parse_arg_None in H.
Qed.

Lemma rejected_dec (t : string) : {rejected t} + {~ rejected t}.
Proof.
  destruct (parse_arg t (mkParse Settings0 None None)) as [st|] eqn:E.
  - right. intros H. apply (parse_arg_None t (mkParse Settings0 None None)) in H.
    congruence.
  - left. now apply (parse_arg_None t (mkParse Settings0 None None)).
Qed.

(** ** The loop *)

Lemma parse_loop_bound (args : list string) (i : nat) (st : ParseState) :
  (i <= snd (parse_loop args i st) <= i + List.length args)%nat.
Proof.
  revert i st. induction args as [|a args IH]; intros i st; simpl.
  - lia.
  - destruct (parse_arg a st) as [st'|]; simpl.
    + specialize (IH (S i) st'). lia.
    + lia.
Qed.

(** A loop that reaches the end of [pre] goes on with what follows. *)
Lemma parse_loop_app (pre post : list string) (i : nat) (st st' : ParseState) :
  parse_loop pre i st = (st', (i + List.length pre)%nat) ->
  parse_loop (pre ++ post) i st = parse_loop post (i + List.length pre) st'.
Proof.
  revert i st. induction pre as [|a pre IH]; intros i st; simpl.
  - rewrite Nat.add_0_r. now intros [= ->].
  - destruct (parse_arg a st) as [st1|].
    + intros H. rewrite (IH (S i) st1).
      * f_equal. lia.
      * rewrite H. f_equal. lia.
    + intros [= _ H]. lia.
Qed.

Lemma parse_loop_accepted (pre : list string) (i : nat) (st : ParseState) :
  Forall (fun t => ~ rejected t) pre <->
  snd (parse_loop pre i st) = (i + List.length pre)%nat.
Proof.
  revert i st. induction pre as [|a pre IH]; intros i st; simpl.
  - split; [intros _; lia | constructor].
  - destruct (parse_arg a st) as [st1|] eqn:E.
    + rewrite <- Nat.add_succ_comm, <- IH. split.
      * intros H. now inversion H.
      * intros H. constructor; [|exact H].
        intros Hr. apply (parse_arg_None a st) in Hr. congruence.
    + simpl. split.
      * intros H. inversion H as [|? ? Ha _]. exfalso. apply Ha.
        now apply (parse_arg_None a st).
      * lia.
Qed.

Lemma parse_loop_rejected (bad : string) (rest : list string) (i : nat)
    (st : ParseState) :
  rejected bad -> parse_loop (bad :: rest) i st = (st, i).
Proof.
  intros H. simpl. apply (parse_arg_None bad st) in H. now rewrite H.
Qed.

(** Every token sequence is a run of accepted tokens followed by nothing or
    by a rejected token and a rest. *)
Lemma tokens_split (tokens : list string) :
  exists pre post,
    tokens = pre ++ post
    /\ Forall (fun t => ~ rejected t) pre
    /\ (post = [] \/ exists bad rest, post = bad :: rest /\ rejected bad).
Proof.
  induction tokens as [|t tokens (pre & post & -> & Hpre & Hpost)].
  - exists [], []. repeat split; [constructor | now left].
  - destruct (rejected_dec t) as [Hr|Ha].
    + exists [], (t :: pre ++ post). repeat split; [constructor|].
      right. now exists t, (pre ++ post).
    + exists (t :: pre), post. repeat split; [now constructor | exact Hpost].
Qed.

Lemma parse_loop_invariant (P : ParseState -> Prop) :
  (forall t st st', P st -> parse_arg t st = Some st' -> P st') ->
  forall args i st, P st -> P (fst (parse_loop args i st)).
Proof.
  intros Hstep args. induction args as [|a args IH]; intros i st HP; simpl.
  - exact HP.
  - destruct (parse_arg a st) as [st'|] eqn:E.
    + apply IH. now apply (Hstep a st).
    + exact HP.
Qed.

Lemma parse_arg_Some (t : string) (st st' : ParseState) :
  parse_arg t st = Some st' ->
  exists key value,
    token_parts t key value /\ key <> "" /\ value <> ""
    /\ apply_option key value st = Some st'.
Proof.
  unfold parse_arg.
  destruct (split_arg t) as [[key value]|] eqn:E; [|discriminate].
  apply split_arg_parts in E.
  destruct (empty key) eqn:Ek; [discriminate|].
  destruct (empty value) eqn:Ev; [discriminate|]. simpl.
  intros H. exists key, value. split; [exact E|].
  split; [intros ->; discriminate|].
  split; [intros ->; discriminate | exact H].
Qed.

Lemma parse_arg_token (key value : string) (st : ParseState) :
  has_char ":" key = false -> key <> "" -> value <> "" ->
  parse_arg (String "-" (key ++ String ":" value)) st
  = apply_option key value st.
Proof.
  intros Hc Hk Hv. unfold parse_arg. rewrite (split_arg_compute _ _ Hc).
  destruct key; [contradiction|]. destruct value; [contradiction|].
  reflexivity.
Qed.

(** What an option that is taken does to the state: the users file option
    sets the file and both groups, the group options record an override, and
    every other option leaves the file, the groups and the overrides as
    they were. *)
Lemma apply_option_Some (key value : string) (st st' : ParseState) :
  apply_option key value st = Some st' ->
  (key = "htpass"
   /\ st' = with_settings st
              (set_ConfigGroup Admin
                 (set_ViewersGroup User
                    (set_HtDigestFileName value (settings st)))))
  \/ (key = "viewer"
      /\ exists g, map_find SupportedUserGroups value = Some g
                   /\ st' = mkParse (settings st) (Some g) (configGroup st))
  \/ (key = "config"
      /\ exists g, map_find SupportedUserGroups value = Some g
                   /\ st' = mkParse (settings st) (viewersGroup st) (Some g))
  \/ (viewersGroup st' = viewersGroup st
      /\ configGroup st' = configGroup st
      /\ HtDigestFileName (settings st') = HtDigestFileName (settings st)
      /\ ViewersGroup (settings st') = ViewersGroup (settings st)
      /\ ConfigGroup (settings st') = ConfigGroup (settings st)).
Proof.
  destruct (in_dec string_dec key option_keys) as [Hin|Hout].
  2:{ rewrite (apply_option_unknown _ _ _ Hout). discriminate. }
  unfold option_keys in Hin. cbn [In] in Hin.
  destruct Hin as [<-|[<-|[<-|[<-|[<-|[<-|[<-|[<-|[<-|[<-|[<-|[]]]]]]]]]]]].
  - rewrite apply_option_size. cbv zeta.
    destruct (_ || _); [discriminate|]. intros [= <-].
    right; right; right. repeat split.
  - rewrite apply_option_fps. destruct (sscanf_u value) as [n|]; [|discriminate].
    intros [= <-]. right; right; right.
    destruct (_ || _); repeat split.
  - rewrite apply_option_jpeg.
    destruct (sscanf_u value) as [n|]; [|discriminate].
    intros [= <-]. right; right; right. repeat split.
  - rewrite apply_option_port.
    destruct (sscanf_u value) as [n|]; [|discriminate].
    intros [= <-]. right; right; right. repeat split.
  - intros [= <-]. right; right; right. repeat split.
  - rewrite apply_option_htpass. intros [= <-]. left. now split.
  - rewrite apply_option_viewer.
    destruct (map_find SupportedUserGroups value) as [g|] eqn:E; [|discriminate].
    intros [= <-]. right; left. split; [reflexivity|]. now exists g.
  - rewrite apply_option_config.
    destruct (map_find SupportedUserGroups value) as [g|] eqn:E; [|discriminate].
    intros [= <-]. right; right; left. split; [reflexivity|]. now exists g.
  - intros [= <-]. right; right; right. repeat split.
  - intros [= <-]. right; right; right. repeat split.
  - intros [= <-]. right; right; right. repeat split.
Qed.

(** ** ParseCommandLine as a whole *)

Lemma ParseCommandLine_eq (prog : string) (tokens : list string)
    (s : SettingsT) :
  ParseCommandLine (prog :: tokens) s =
  let '(st, i) := parse_loop tokens 1 (mkParse s None None) in
  let '(s', warned) := resolve_groups st in
  if negb (Nat.eqb i (S (List.length tokens)))
  then (false, s', warned ++ help_text)
  else (true, s', warned).
Proof. reflexivity. Qed.

Lemma ParseCommandLine_ret (prog : string) (tokens : list string)
    (s : SettingsT) :
  parse_ret (ParseCommandLine (prog :: tokens) s)
  = Nat.eqb (snd (parse_loop tokens 1 (mkParse s None None)))
            (S (List.length tokens)).
Proof.
  rewrite ParseCommandLine_eq.
  destruct (parse_loop tokens 1 (mkParse s None None)) as [st i].
  cbn [fst snd].
  destruct (resolve_groups st) as [s' warned]. simpl.
  destruct (Nat.eqb i (S (List.length tokens))); reflexivity.
Qed.

Lemma ParseCommandLine_settings (prog : string) (tokens : list string)
    (s : SettingsT) :
  parse_settings (ParseCommandLine (prog :: tokens) s)
  = fst (resolve_groups (fst (parse_loop tokens 1 (mkParse s None None)))).
Proof.
  rewrite ParseCommandLine_eq.
  destruct (parse_loop tokens 1 (mkParse s None None)) as [st i].
  cbn [fst snd].
  destruct (resolve_groups st) as [s' warned]. simpl.
  destruct (Nat.eqb i (S (List.length tokens))); reflexivity.
Qed.

Lemma ParseCommandLine_output (prog : string) (tokens : list string)
    (s : SettingsT) :
  parse_output (ParseCommandLine (prog :: tokens) s)
  = snd (resolve_groups (fst (parse_loop tokens 1 (mkParse s None None))))
    ++ (if parse_ret (ParseCommandLine (prog :: tokens) s)
        then [] else help_text).
Proof.
  rewrite ParseCommandLine_eq.
  destruct (parse_loop tokens 1 (mkParse s None None)) as [st i].
  cbn [fst snd].
  destruct (resolve_groups st) as [s' warned]. simpl.
  destruct (Nat.eqb i (S (List.length tokens))); simpl;
    [now rewrite app_nil_r | reflexivity].
Qed.

(** The tokens before a given point were all consumed exactly when parsing
    them alone succeeds. *)
Lemma ParseCommandLine_true (prog : string) (tokens : list string)
    (s : SettingsT) :
  parse_ret (ParseCommandLine (prog :: tokens) s) = true
  <-> Forall (fun t => ~ rejected t) tokens.
Proof.
  rewrite ParseCommandLine_ret, Nat.eqb_eq.
  symmetry. apply (parse_loop_accepted tokens 1).
Qed.

Lemma parse_loop_prefix (pre post : list string) (s : ParseState) :
  Forall (fun t => ~ rejected t) pre ->
  parse_loop (pre ++ post) 1 s
  = parse_loop post (S (List.length pre)) (fst (parse_loop pre 1 s)).
Proof.
  intros H. apply (parse_loop_accepted pre 1 s) in H.
  apply (parse_loop_app pre post 1 s).
  destruct (parse_loop pre 1 s) as [st i]. simpl in *. now subst i.
Qed.

Lemma resolve_groups_numbers (st : ParseState) :
  FrameRate (fst (resolve_groups st)) = FrameRate (settings st)
  /\ JpegQuality (fst (resolve_groups st)) = JpegQuality (settings st)
  /\ WebPort (fst (resolve_groups st)) = WebPort (settings st)
  /\ HtDigestFileName (fst (resolve_groups st))
     = HtDigestFileName (settings st).
Proof.
  unfold resolve_groups.
  destruct (groups_ignored st); simpl; [tauto|].
  destruct (viewersGroup st), (configGroup st); simpl; tauto.
Qed.

Lemma help_text_no_warning : ~ In (Printf warning_text []) help_text.
Proof.
  intros H.
  assert (Hall : forallb (fun a => negb (is_warning a)) help_text = true)
    by (vm_compute; reflexivity).
  rewrite forallb_forall in Hall. specialize (Hall _ H).
  cbn [is_warning] in Hall. now rewrite String.eqb_refl in Hall.
Qed.

(** ** Malformed and unrecognised tokens (C4) *)

(** C4, as amended.  Every token sequence splits into a run [pre] of tokens
    that are not rejected and a remainder [post] that is empty or starts with
    a rejected token, where a token is rejected when it is malformed, has an
    unrecognised key, or has a recognised key with a value its option does
    not take.  The loop of [ParseCommandLine] is left exactly at the end of
    [pre]; the settings are those of parsing [pre] alone, which succeeds; the
    function returns true exactly when [post] is empty, that is when every
    token was consumed, and otherwise returns false after printing the help
    text behind whatever parsing [pre] printed. *)
Theorem ParseCommandLine_stops_at_first_rejected
    (prog : string) (tokens : list string) (s : SettingsT) :
  exists pre post,
    tokens = pre ++ post
    /\ Forall (fun t => ~ rejected t) pre
    /\ (post = [] \/ exists bad rest, post = bad :: rest /\ rejected bad)
    /\ snd (parse_loop tokens 1 (mkParse s None None)) = S (List.length pre)
    /\ parse_ret (ParseCommandLine (prog :: pre) s) = true
    /\ parse_settings (ParseCommandLine (prog :: tokens) s)
       = parse_settings (ParseCommandLine (prog :: pre) s)
    /\ parse_ret (ParseCommandLine (prog :: tokens) s)
       = Nat.eqb (snd (parse_loop tokens 1 (mkParse s None None)))
           (S (List.length tokens))
    /\ parse_ret (ParseCommandLine (prog :: tokens) s)
       = match post with [] => true | _ :: _ => false end
    /\ parse_output (ParseCommandLine (prog :: tokens) s)
       = parse_output (ParseCommandLine (prog :: pre) s)
         ++ match post with [] => [] | _ :: _ => help_text end.
Proof.
  destruct (tokens_split tokens) as (pre & post & -> & Hpre & Hpost).
  exists pre, post.
  assert (Hloop : parse_loop (pre ++ post) 1 (mkParse s None None)
                  = (fst (parse_loop pre 1 (mkParse s None None)),
                     S (List.length pre))).
  { rewrite (parse_loop_prefix pre post _ Hpre).
    destruct Hpost as [->|(bad & rest & -> & Hbad)].
    - reflexivity.
    - now apply parse_loop_rejected. }
  assert (Hpre_loop : parse_loop pre 1 (mkParse s None None)
                      = (fst (parse_loop pre 1 (mkParse s None None)),
                         S (List.length pre))).
  { pose proof (proj1 (parse_loop_accepted pre 1 (mkParse s None None)) Hpre).
    destruct (parse_loop pre 1 (mkParse s None None)) as [st i].
    simpl in *. now subst i. }
  assert (Hret_pre : parse_ret (ParseCommandLine (prog :: pre) s) = true)
    by now apply ParseCommandLine_true.
  assert (Hret : parse_ret (ParseCommandLine (prog :: pre ++ post) s)
                 = match post with [] => true | _ :: _ => false end).
  { rewrite ParseCommandLine_ret, Hloop. cbn [snd].
    destruct post as [|b post].
    - rewrite app_nil_r. apply Nat.eqb_refl.
    - apply Nat.eqb_neq. rewrite length_app. simpl. lia. }
  repeat split; try assumption.
  - now rewrite Hloop.
  - now rewrite !ParseCommandLine_settings, Hloop, Hpre_loop.
  - apply ParseCommandLine_ret.
  - rewrite !ParseCommandLine_output, Hret, Hret_pre, Hloop.
    cbn [fst]. rewrite app_nil_r. now destruct post.
Qed.

(** C4, as the claim words it, fails on a well-formed token with a known
    key whose value the option does not take: [-size:9] is neither malformed
    nor of an unrecognised key, yet the loop breaks on it without consuming
    it and the function returns false. *)
Lemma ParseCommandLine_refuses_size_9 :
  ~ malformed "-size:9"
  /\ ~ unrecognized_key "-size:9"
  /\ snd (parse_loop ["-size:9"] 1
            (mkParse (SetDefaultSettings (mkBuild true None None false)
                        (Some "/home/pi") Settings0) None None)) = 1%nat
  /\ parse_ret (ParseCommandLine ["pirexbot"; "-size:9"]
                  (SetDefaultSettings (mkBuild true None None false)
                     (Some "/home/pi") Settings0)) = false.
Proof.
  assert (Hp : token_parts "-size:9" "size" "9") by (split; reflexivity).
  split; [|split; [|split; reflexivity]].
  - intros [H|[H|[[v H]|[k H]]]].
    + discriminate H.
    + now apply H.
    + destruct (token_parts_unique _ _ _ _ _ Hp H). discriminate.
    + destruct (token_parts_unique _ _ _ _ _ Hp H). discriminate.
  - intros (k & v & H & Hn).
    destruct (token_parts_unique _ _ _ _ _ Hp H) as [<- _].
    apply Hn. unfold option_keys. cbn [In]. tauto.
Qed.

(** ** Numeric options (C3) *)

Lemma sscanf_u_nonempty (value : string) (n : Z) :
  sscanf_u value = Some n -> value <> "".
Proof. intros H ->. discriminate H. Qed.

(** What each numeric option does to its field, wherever the token stands:
    the option is taken and the field holds the scanned number brought into
    range. *)
Lemma numeric_option_step (value : string) (n : Z) (st : ParseState) :
  sscanf_u value = Some n ->
  (exists st', parse_arg ("-fps:" ++ value) st = Some st'
               /\ FrameRate (settings st')
                  = if (n <? 1) || (30 <? n) then 30 else n)
  /\ (exists st', parse_arg ("-jpeg:" ++ value) st = Some st'
                  /\ JpegQuality (settings st') = Z.min 100 (Z.max 1 n))
  /\ (exists st', parse_arg ("-port:" ++ value) st = Some st'
                  /\ WebPort (settings st') = Z.min 65535 n).
Proof.
  intros Hscan. pose proof (sscanf_u_nonempty _ _ Hscan) as Hv.
  split; [|split].
  - change ("-fps:" ++ value)%string
      with (String "-" ("fps" ++ String ":" value)).
    rewrite parse_arg_token, apply_option_fps, Hscan;
      [|reflexivity | discriminate | exact Hv].
    eexists. split; [reflexivity|].
    simpl. now destruct ((n <? 1) || (30 <? n)).
  - change ("-jpeg:" ++ value)%string
      with (String "-" ("jpeg" ++ String ":" value)).
    rewrite parse_arg_token, apply_option_jpeg, Hscan;
      [|reflexivity | discriminate | exact Hv].
    eexists. split; reflexivity.
  - change ("-port:" ++ value)%string
      with (String "-" ("port" ++ String ":" value)).
    rewrite parse_arg_token, apply_option_port, Hscan;
      [|reflexivity | discriminate | exact Hv].
    eexists. split; reflexivity.
Qed.

Lemma ParseCommandLine_last_token
    (prog : string) (pre : list string) (t : string) (s : SettingsT)
    (st' : ParseState) :
  parse_ret (ParseCommandLine (prog :: pre) s) = true ->
  parse_arg t (fst (parse_loop pre 1 (mkParse s None None))) = Some st' ->
  parse_settings (ParseCommandLine (prog :: pre ++ [t]) s)
  = fst (resolve_groups st').
Proof.
  intros Hpre Harg. apply ParseCommandLine_true in Hpre.
  rewrite ParseCommandLine_settings, (parse_loop_prefix pre _ _ Hpre).
  cbn [parse_loop]. now rewrite Harg.
Qed.

(** C3.  When the tokens before it are consumed and [value] scans as the
    unsigned number [n], the option [-fps:value] leaves the frame rate at [n]
    if [n] lies in [1,30] and at 30 otherwise, [-jpeg:value] leaves the
    quality at 1 below 1, at 100 above 100 and at [n] between, and
    [-port:value] leaves the port at 65535 above 65535 and at [n] otherwise;
    the same holds of the loop's state right after such a token, whatever the
    state before it.  The tokens -port:9090 -fps:45 -jpeg:150 give port 9090, frame rate 30
    and quality 100 from any settings. *)
Theorem numeric_options_are_clamped
    (prog : string) (pre : list string) (value : string) (n : Z)
    (s : SettingsT) :
  parse_ret (ParseCommandLine (prog :: pre) s) = true ->
  sscanf_u value = Some n ->
  FrameRate (parse_settings
               (ParseCommandLine (prog :: pre ++ [("-fps:" ++ value)%string]) s))
  = (if (n <? 1) || (30 <? n) then 30 else n)
  /\ JpegQuality (parse_settings
                    (ParseCommandLine
                       (prog :: pre ++ [("-jpeg:" ++ value)%string]) s))
     = (if n <? 1 then 1 else if 100 <? n then 100 else n)
  /\ WebPort (parse_settings
                (ParseCommandLine
                   (prog :: pre ++ [("-port:" ++ value)%string]) s))
     = (if 65535 <? n then 65535 else n)
  /\ (forall st,
        (exists st', parse_arg ("-fps:" ++ value) st = Some st'
                     /\ FrameRate (settings st')
                        = if (n <? 1) || (30 <? n) then 30 else n)
        /\ (exists st', parse_arg ("-jpeg:" ++ value) st = Some st'
                        /\ JpegQuality (settings st') = Z.min 100 (Z.max 1 n))
        /\ (exists st', parse_arg ("-port:" ++ value) st = Some st'
                        /\ WebPort (settings st') = Z.min 65535 n))
  /\ (let r := ParseCommandLine
                 [prog; "-port:9090"; "-fps:45"; "-jpeg:150"] s in
      parse_ret r = true
      /\ WebPort (parse_settings r) = 9090
      /\ FrameRate (parse_settings r) = 30
      /\ JpegQuality (parse_settings r) = 100).
Proof.
  intros Hpre Hscan.
  destruct (numeric_option_step value n
              (fst (parse_loop pre 1 (mkParse s None None))) Hscan)
    as ((st1 & Ha1 & Hfps) & (st2 & Ha2 & Hjpeg) & (st3 & Ha3 & Hport)).
  split; [|split; [|split; [|split]]].
  - rewrite (ParseCommandLine_last_token _ _ _ _ _ Hpre Ha1).
    destruct (resolve_groups_numbers st1) as (-> & _). exact Hfps.
  - rewrite (ParseCommandLine_last_token _ _ _ _ _ Hpre Ha2).
    destruct (resolve_groups_numbers st2) as (_ & -> & _). rewrite Hjpeg.
    destruct (Z.ltb_spec n 1); [lia|]. destruct (Z.ltb_spec 100 n); lia.
  - rewrite (ParseCommandLine_last_token _ _ _ _ _ Hpre Ha3).
    destruct (resolve_groups_numbers st3) as (_ & _ & -> & _). rewrite Hport.
    destruct (Z.ltb_spec 65535 n); lia.
  - intros st. now apply numeric_option_step.
  - cbv zeta. repeat split; reflexivity.
Qed.

Lemma numeric_options_are_clamped_witness :
  parse_ret (ParseCommandLine ["pirexbot"]
               (SetDefaultSettings (mkBuild true None None false)
                  (Some "/home/pi") Settings0)) = true
  /\ sscanf_u "45" = Some 45
  /\ FrameRate (parse_settings
                  (ParseCommandLine ["pirexbot"; "-fps:45"]
                     (SetDefaultSettings (mkBuild true None None false)
                        (Some "/home/pi") Settings0))) = 30.
Proof.
  split; [reflexivity | split; [reflexivity|]].
  exact (proj1 (numeric_options_are_clamped "pirexbot" [] "45" 45
                  (SetDefaultSettings (mkBuild true None None false)
                     (Some "/home/pi") Settings0)
                  eq_refl eq_refl)).
Defined.

Lemma sscanf_u_range (value : string) (n : Z) :
  sscanf_u value = Some n -> 0 <= n < UINT_MODULUS.
Proof.
  unfold sscanf_u.
  destruct (match skip_spaces value with
            | String a rest =>
                if Ascii.eqb a "-" then (true, rest)
                else if Ascii.eqb a "+" then (false, rest)
                else (false, skip_spaces value)
            | EmptyString => (false, skip_spaces value)
            end) as [negative s2].
  destruct (scan_digits s2 None) as [v|]; [|discriminate].
  intros [= <-]. apply Z.mod_pos_bound. reflexivity.
Qed.

Lemma in_ranges_step (t : string) (st st' : ParseState) :
  in_ranges st -> parse_arg t st = Some st' -> in_ranges st'.
Proof.
  unfold in_ranges. intros Hinv Harg.
  destruct (parse_arg_Some _ _ _ Harg) as (key & value & _ & _ & _ & Hopt).
  destruct (in_dec string_dec key option_keys) as [Hin|Hout].
  2:{ rewrite (apply_option_unknown _ _ _ Hout) in Hopt. discriminate. }
  unfold option_keys in Hin. cbn [In] in Hin.
  destruct Hin as [<-|[<-|[<-|[<-|[<-|[<-|[<-|[<-|[<-|[<-|[<-|[]]]]]]]]]]]].
  - rewrite apply_option_size in Hopt. cbv zeta in Hopt.
    destruct (_ || _); [discriminate|]. now injection Hopt as <-.
  - rewrite apply_option_fps in Hopt.
    destruct (sscanf_u value) as [n|]; [|discriminate].
    injection Hopt as <-.
    destruct (Z.ltb_spec n 1); destruct (Z.ltb_spec 30 n); simpl; lia.
  - rewrite apply_option_jpeg in Hopt.
    destruct (sscanf_u value) as [n|]; [|discriminate].
    injection Hopt as <-. simpl. lia.
  - rewrite apply_option_port in Hopt.
    destruct (sscanf_u value) as [n|] eqn:E; [|discriminate].
    apply sscanf_u_range in E. unfold UINT_MODULUS in E.
    injection Hopt as <-. simpl. lia.
  - now injection Hopt as <-.
  - now injection Hopt as <-.
  - rewrite apply_option_viewer in Hopt.
    destruct (map_find SupportedUserGroups value); [|discriminate].
    now injection Hopt as <-.
  - rewrite apply_option_config in Hopt.
    destruct (map_find SupportedUserGroups value); [|discriminate].
    now injection Hopt as <-.
  - now injection Hopt as <-.
  - now injection Hopt as <-.
  - now injection Hopt as <-.
Qed.

(** From the default settings, whatever the command line, the frame rate,
    the quality and the port end in their documented ranges. *)
Lemma ParseCommandLine_in_ranges
    (build : BuildConfig) (home : option string) (args : list string) :
  1 <= FrameRate (parse_settings
                    (ParseCommandLine args
                       (SetDefaultSettings build home Settings0))) <= 30
  /\ 1 <= JpegQuality (parse_settings
                         (ParseCommandLine args
                            (SetDefaultSettings build home Settings0))) <= 100
  /\ 0 <= WebPort (parse_settings
                     (ParseCommandLine args
                        (SetDefaultSettings build home Settings0))) <= 65535.
Proof.
  assert (Hinv : in_ranges
                   (fst (parse_loop (skipn 1 args) 1
                           (mkParse (SetDefaultSettings build home Settings0)
                              None None)))).
  { apply parse_loop_invariant; [exact in_ranges_step|].
    unfold in_ranges, SetDefaultSettings.
    destruct home, (NDEBUG build); simpl; lia. }
  unfold ParseCommandLine, parse_settings.
  destruct (parse_loop (skipn 1 args) 1
              (mkParse (SetDefaultSettings build home Settings0) None None))
    as [st i].
  cbn [fst] in Hinv.
  destruct (resolve_groups_numbers st) as (Hf & Hj & Hp & _).
  destruct (resolve_groups st) as [s' warned]. cbn [fst] in *.
  destruct (negb _); cbn [fst snd]; rewrite Hf, Hj, Hp; exact Hinv.
Qed.

(** ** Authorization groups (C2, C10) *)

Lemma open_without_users_file_step (t : string) (st st' : ParseState) :
  open_without_users_file st -> parse_arg t st = Some st' ->
  open_without_users_file st'.
Proof.
  unfold open_without_users_file. intros Hinv Harg.
  destruct (parse_arg_Some _ _ _ Harg) as (key & value & _ & _ & Hv & Hopt).
  destruct (apply_option_Some _ _ _ _ Hopt)
    as [[_ ->]|[[_ (g & _ & ->)]|[[_ (g & _ & ->)]|(_ & _ & Hf & Hvg & Hcg)]]].
  - simpl. intros H. contradiction.
  - exact Hinv.
  - exact Hinv.
  - rewrite Hf, Hvg, Hcg. exact Hinv.
Qed.

Lemma open_without_users_file_default
    (build : BuildConfig) (home : option string) :
  open_without_users_file
    (mkParse (SetDefaultSettings build home Settings0) None None).
Proof.
  intros _. unfold SetDefaultSettings.
  destruct home, (NDEBUG build); split; reflexivity.
Qed.

Lemma groups_ignored_true (st : ParseState) :
  groups_ignored st = true
  <-> (exists g, g <> Anyone
                 /\ (viewersGroup st = Some g \/ configGroup st = Some g))
      /\ HtDigestFileName (settings st) = "".
Proof.
  unfold groups_ignored. rewrite andb_true_iff, orb_true_iff, empty_true.
  split.
  - intros [[H|H] He]; (split; [|exact He]).
    + destruct (viewersGroup st) as [g|]; [|discriminate].
      exists g. split; [|now left]. intros ->. discriminate.
    + destruct (configGroup st) as [g|]; [|discriminate].
      exists g. split; [|now right]. intros ->. discriminate.
  - intros [(g & Hg & [H|H]) He]; (split; [|exact He]).
    + left. rewrite H. now destruct g.
    + right. rewrite H. now destruct g.
Qed.

(** C2.  From the default settings, whenever no users file is named once the
    command line is parsed, the viewers' group and the configuration group
    are both [Anyone] whatever groups the tokens asked for; and the warning
    of line 300 is printed exactly when one of the recorded overrides asks
    for a group other than [Anyone], in which case the override has no
    effect. *)
Theorem no_users_file_forces_Anyone
    (build : BuildConfig) (home : option string) (prog : string)
    (tokens : list string) :
  HtDigestFileName
    (parse_settings
       (ParseCommandLine (prog :: tokens)
          (SetDefaultSettings build home Settings0))) = "" ->
  ViewersGroup
    (parse_settings
       (ParseCommandLine (prog :: tokens)
          (SetDefaultSettings build home Settings0))) = Anyone
  /\ ConfigGroup
       (parse_settings
          (ParseCommandLine (prog :: tokens)
             (SetDefaultSettings build home Settings0))) = Anyone
  /\ (In (Printf warning_text [])
         (parse_output
            (ParseCommandLine (prog :: tokens)
               (SetDefaultSettings build home Settings0)))
      <-> exists g,
            g <> Anyone
            /\ (viewersGroup
                  (fst (parse_loop tokens 1
                          (mkParse (SetDefaultSettings build home Settings0)
                             None None))) = Some g
                \/ configGroup
                     (fst (parse_loop tokens 1
                             (mkParse (SetDefaultSettings build home Settings0)
                                None None))) = Some g)).
Proof.
  rewrite ParseCommandLine_output, ParseCommandLine_settings.
  set (st := fst (parse_loop tokens 1
                    (mkParse (SetDefaultSettings build home Settings0)
                       None None))).
  assert (Hinv : open_without_users_file st).
  { apply parse_loop_invariant.
    - exact open_without_users_file_step.
    - apply open_without_users_file_default. }
  intros Hempty.
  destruct (resolve_groups_numbers st) as (_ & _ & _ & Hfile).
  rewrite Hfile in Hempty. destruct (Hinv Hempty) as [Hv Hc].
  pose proof (groups_ignored_true st) as Hign.
  unfold resolve_groups. destruct (groups_ignored st) eqn:E.
  - cbn [fst snd]. split; [exact Hv | split; [exact Hc|]].
    split; [intros _; now apply Hign | intros _; simpl; now left].
  - assert (Hnone : forall g,
               viewersGroup st = Some g \/ configGroup st = Some g ->
               g = Anyone).
    { intros g Hg.
      destruct (UserGroup_eqb g Anyone) eqn:Eg; [now destruct g|].
      assert (Habs : false = true); [|discriminate Habs].
      apply Hign. split; [|exact Hempty].
      exists g. split; [intros ->; discriminate | exact Hg]. }
    cbn [fst snd]. split; [|split].
    + destruct (viewersGroup st) as [g|] eqn:Eg;
        destruct (configGroup st) as [g'|]; simpl; try exact Hv;
        apply Hnone; now left.
    + destruct (viewersGroup st) as [g|];
        destruct (configGroup st) as [g'|] eqn:Eg; simpl; try exact Hc;
        apply Hnone; now right.
    + split.
      * simpl. intros H.
        destruct (parse_ret _); [contradiction|].
        now apply help_text_no_warning in H.
      * intros (g & Hg & H). exfalso. apply Hg. now apply Hnone.
Qed.

Lemma no_users_file_forces_Anyone_witness :
  HtDigestFileName
    (parse_settings
       (ParseCommandLine ["pirexbot"; "-viewer:admin"]
          (SetDefaultSettings (mkBuild true None None false)
             (Some "/home/pi") Settings0))) = ""
  /\ ViewersGroup
       (parse_settings
          (ParseCommandLine ["pirexbot"; "-viewer:admin"]
             (SetDefaultSettings (mkBuild true None None false)
                (Some "/home/pi") Settings0))) = Anyone
  /\ In (Printf warning_text [])
        (parse_output
           (ParseCommandLine ["pirexbot"; "-viewer:admin"]
              (SetDefaultSettings (mkBuild true None None false)
                 (Some "/home/pi") Settings0))).
Proof.
  split; [reflexivity|].
  destruct (no_users_file_forces_Anyone (mkBuild true None None false)
              (Some "/home/pi") "pirexbot" ["-viewer:admin"] eq_refl)
    as (Hv & _ & Hw).
  split; [exact Hv|].
  apply Hw. exists Admin. split; [discriminate | now left].
Defined.

Lemma tightened_step (t : string) (st st' : ParseState) :
  tightened st -> parse_arg t st = Some st' -> tightened st'.
Proof.
  unfold tightened. intros Hinv Harg.
  destruct (parse_arg_Some _ _ _ Harg) as (key & value & _ & _ & Hv & Hopt).
  destruct (apply_option_Some _ _ _ _ Hopt)
    as [[_ ->]|[[_ (g & _ & ->)]|[[_ (g & _ & ->)]|(_ & _ & Hf & Hvg & Hcg)]]].
  - simpl. now repeat split.
  - exact Hinv.
  - exact Hinv.
  - rewrite Hf, Hvg, Hcg. exact Hinv.
Qed.

(** C10.  Let the tokens before a token [-htpass:file] with a non-empty
    [file] be consumed.  Parsing that token stores the file name and sets the
    viewers' group to [User] and the configuration group to [Admin]; and at
    the end of [ParseCommandLine] the viewers' group is [User] unless a
    viewer override was recorded, and the configuration group [Admin] unless
    a configuration override was recorded, in which case the override is
    what applies. *)
Theorem htpass_tightens_groups
    (prog : string) (pre post : list string) (file : string) (s : SettingsT) :
  file <> "" ->
  parse_ret (ParseCommandLine (prog :: pre) s) = true ->
  (exists st',
      parse_arg ("-htpass:" ++ file)
        (fst (parse_loop pre 1 (mkParse s None None))) = Some st'
      /\ HtDigestFileName (settings st') = file
      /\ ViewersGroup (settings st') = User
      /\ ConfigGroup (settings st') = Admin)
  /\ ViewersGroup
       (parse_settings
          (ParseCommandLine
             (prog :: pre ++ ("-htpass:" ++ file)%string :: post) s))
     = match viewersGroup
               (fst (parse_loop (pre ++ ("-htpass:" ++ file)%string :: post) 1
                       (mkParse s None None))) with
       | Some g => g
       | None => User
       end
  /\ ConfigGroup
       (parse_settings
          (ParseCommandLine
             (prog :: pre ++ ("-htpass:" ++ file)%string :: post) s))
     = match configGroup
               (fst (parse_loop (pre ++ ("-htpass:" ++ file)%string :: post) 1
                       (mkParse s None None))) with
       | Some g => g
       | None => Admin
       end.
Proof.
  intros Hfile Hpre. apply ParseCommandLine_true in Hpre.
  set (st := fst (parse_loop pre 1 (mkParse s None None))).
  assert (Harg : parse_arg ("-htpass:" ++ file) st
                 = Some (with_settings st
                           (set_ConfigGroup Admin
                              (set_ViewersGroup User
                                 (set_HtDigestFileName file (settings st)))))).
  { change ("-htpass:" ++ file)%string
      with (String "-" ("htpass" ++ String ":" file)).
    rewrite parse_arg_token; [apply apply_option_htpass | reflexivity
                             | discriminate | exact Hfile]. }
  split.
  { eexists. split; [exact Harg|]. now repeat split. }
  rewrite ParseCommandLine_settings, (parse_loop_prefix pre _ _ Hpre).
  fold st. cbn [parse_loop]. rewrite Harg.
  set (st1 := with_settings st _).
  set (st2 := fst (parse_loop post (S (S (List.length pre))) st1)).
  assert (Hinv : tightened st2).
  { apply parse_loop_invariant; [exact tightened_step|].
    unfold st1, tightened. simpl. now repeat split. }
  destruct Hinv as (Hf & Hv & Hc).
  unfold resolve_groups.
  assert (Hign : groups_ignored st2 = false).
  { destruct (groups_ignored st2) eqn:E; [|reflexivity].
    apply groups_ignored_true in E. tauto. }
  rewrite Hign. cbn [fst].
  destruct (viewersGroup st2), (configGroup st2); simpl; auto.
Qed.

Lemma htpass_tightens_groups_witness :
  "users.htdigest" <> ""
  /\ parse_ret (ParseCommandLine ["pirexbot"; "-port:80"]
                  (SetDefaultSettings (mkBuild true None None false)
                     (Some "/home/pi") Settings0)) = true
  /\ ViewersGroup
       (parse_settings
          (ParseCommandLine
             ["pirexbot"; "-port:80"; "-htpass:users.htdigest"; "-fps:10"]
             (SetDefaultSettings (mkBuild true None None false)
                (Some "/home/pi") Settings0))) = User
  /\ ConfigGroup
       (parse_settings
          (ParseCommandLine
             ["pirexbot"; "-port:80"; "-htpass:users.htdigest"; "-fps:10"]
             (SetDefaultSettings (mkBuild true None None false)
                (Some "/home/pi") Settings0))) = Admin.
Proof.
  assert (Hne : "users.htdigest" <> "") by discriminate.
  split; [exact Hne | split; [reflexivity|]].
  destruct (htpass_tightens_groups "pirexbot" ["-port:80"] ["-fps:10"]
              "users.htdigest"
              (SetDefaultSettings (mkBuild true None None false)
                 (Some "/home/pi") Settings0) Hne eq_refl)
    as (_ & Hv & Hc).
  split; [exact Hv | exact Hc].
Defined.

(** ** Time *)

Lemma duration_cast_ms_ge (d k : Z) :
  0 < k -> (k <= duration_cast_ms d <-> k * 1000000 <= d).
Proof.
  intros Hk. unfold duration_cast_ms.
  pose proof (Z.quot_rem' d 1000000) as Hd.
  destruct (Z_le_gt_dec 0 d) as [Hpos|Hneg].
  - pose proof (Z.rem_bound_pos_pos d 1000000 ltac:(lia) Hpos). lia.
  - pose proof (Z.rem_bound_pos_neg d 1000000 ltac:(lia) ltac:(lia)). lia.
Qed.

Lemma duration_cast_ms_lt (d k : Z) :
  0 < k -> (duration_cast_ms d < k <-> d < k * 1000000).
Proof.
  intros Hk. pose proof (duration_cast_ms_ge d k Hk). lia.
Qed.

(** ** One turn of the control loop *)

Lemma deliver_app (ns1 ns2 : list Notification) (e : XManualResetEvent) :
  deliver (ns1 ++ ns2) e =
  (fst (deliver ns1 e) ++ fst (deliver ns2 (snd (deliver ns1 e))),
   snd (deliver ns2 (snd (deliver ns1 e)))).
Proof.
  revert e. induction ns1 as [|n ns1 IH]; intros e; simpl.
  - now destruct (deliver ns2 e).
  - destruct (notify n e) as [out e1]. rewrite IH.
    destruct (deliver ns1 e1) as [out1 e2]. simpl.
    now rewrite app_assoc.
Qed.

Lemma notify_prints (n : Notification) (e : XManualResetEvent) :
  filter is_call (fst (notify n e)) = [].
Proof. destruct n; reflexivity. Qed.

(** Handlers and listeners only print. *)
Lemma deliver_prints (ns : list Notification) (e : XManualResetEvent) :
  filter is_call (fst (deliver ns e)) = [].
Proof.
  revert e. induction ns as [|n ns IH]; intros e; simpl.
  - reflexivity.
  - pose proof (notify_prints n e) as Hn.
    destruct (notify n e) as [out e1]. specialize (IH e1).
    destruct (deliver ns e1) as [out1 e2]. simpl in *.
    now rewrite filter_app, Hn, IH.
Qed.

Lemma deliver_no_save (ns : list Notification) (e : XManualResetEvent) :
  filter is_save (fst (deliver ns e)) = [].
Proof.
  revert e. induction ns as [|n ns IH]; intros e; simpl.
  - reflexivity.
  - assert (Hn : filter is_save (fst (notify n e)) = [])
      by (destruct n; reflexivity).
    destruct (notify n e) as [out e1]. specialize (IH e1).
    destruct (deliver ns e1) as [out1 e2]. simpl in *.
    now rewrite filter_app, Hn, IH.
Qed.

Lemma notify_signaled (n : Notification) (e : XManualResetEvent) :
  is_signaled (snd (notify n e)) = raises_exit n || is_signaled e.
Proof. destruct n as [s| |msg [|]]; reflexivity. Qed.

(** The exit event after a batch of notifications: set when it was set
    before or when one of them raises it. *)
Lemma deliver_signaled (ns : list Notification) (e : XManualResetEvent) :
  is_signaled (snd (deliver ns e)) = existsb raises_exit ns || is_signaled e.
Proof.
  revert e. induction ns as [|n ns IH]; intros e; simpl.
  - reflexivity.
  - pose proof (notify_signaled n e) as Hn.
    destruct (notify n e) as [out e1]. specialize (IH e1).
    destruct (deliver ns e1) as [out1 e2]. simpl in *.
    rewrite IH, Hn. now destruct (raises_exit n), (existsb raises_exit ns).
Qed.

Lemma event_eq (e1 e2 : XManualResetEvent) :
  is_signaled e1 = is_signaled e2 -> e1 = e2.
Proof. destruct e1, e2. simpl. now intros ->. Qed.

Lemma quiet_not_signals (t : TickEnv) :
  quiet t = true <-> signals_exit t = false.
Proof.
  unfold quiet, signals_exit.
  induction (notifications t) as [|n ns IH]; simpl.
  - tauto.
  - rewrite andb_true_iff, orb_false_iff, IH.
    now destruct (raises_exit n).
Qed.

(** A turn of the loop in which the exit event is not set runs the body and
    goes on; a turn in which it is set leaves the loop. *)
Lemma control_loop_turn (build : BuildConfig) (t : TickEnv)
    (rest : list TickEnv) (saveCounter : Z) :
  control_loop build (t :: rest) Event_new saveCounter =
  if signals_exit t
  then (fst (deliver (notifications t) Event_new),
        Some (mkEvent true, saveCounter))
  else (fst (deliver (notifications t) Event_new)
          ++ fst (loop_body build t saveCounter)
          ++ fst (control_loop build rest Event_new
                    (snd (loop_body build t saveCounter))),
        snd (control_loop build rest Event_new
               (snd (loop_body build t saveCounter)))).
Proof.
  cbn [control_loop].
  pose proof (deliver_signaled (notifications t) Event_new) as Hs.
  destruct (deliver (notifications t) Event_new) as [out e].
  cbn [fst snd] in *. unfold Event_Wait. rewrite Hs. fold (signals_exit t).
  change (is_signaled Event_new) with false. rewrite orb_false_r.
  destruct (signals_exit t) eqn:E.
  - f_equal. f_equal. f_equal. apply event_eq.
    rewrite Hs. fold (signals_exit t). now rewrite E.
  - assert (He : e = Event_new).
    { apply event_eq. rewrite Hs. fold (signals_exit t). now rewrite E. }
    subst e.
    destruct (loop_body build t saveCounter) as [acts c']. cbn [fst snd].
    destruct (control_loop build rest Event_new c') as [acts' r].
    reflexivity.
Qed.

Lemma loop_body_counter (build : BuildConfig) (t : TickEnv) (c : Z) :
  snd (loop_body build t c) = snd (save_tick c).
Proof. unfold loop_body. now destruct (save_tick c). Qed.

Lemma loop_body_trace (build : BuildConfig) (t : TickEnv) (c : Z) :
  fst (loop_body build t c)
  = (if fst (save_tick c) then [SerializerSaveConfiguration] else [])
    ++ watchdog t ++ activity_led build t.
Proof. unfold loop_body. now destruct (save_tick c). Qed.

(** While nothing sets the exit event the loop keeps turning, and the
    counter depends on the number of turns alone. *)
Lemma control_loop_quiet (build : BuildConfig) (before rest : list TickEnv)
    (c : Z) :
  forallb quiet before = true ->
  control_loop build (before ++ rest) Event_new c =
  (fst (control_loop build before Event_new c)
     ++ fst (control_loop build rest Event_new
               (Nat.iter (List.length before) (fun c => snd (save_tick c)) c)),
   snd (control_loop build rest Event_new
          (Nat.iter (List.length before) (fun c => snd (save_tick c)) c))).
Proof.
  revert c. induction before as [|t before IH]; intros c Hq.
  - simpl. now destruct (control_loop build rest Event_new c).
  - cbn [forallb] in Hq. apply andb_true_iff in Hq as [Ht Hq].
    apply quiet_not_signals in Ht.
    cbn [app List.length]. rewrite Nat.iter_succ_r.
    rewrite !control_loop_turn, Ht, (IH _ Hq), loop_body_counter.
    cbn [fst snd]. now rewrite !app_assoc.
Qed.

Lemma control_loop_quiet_running (build : BuildConfig) (ts : list TickEnv)
    (c : Z) :
  forallb quiet ts = true ->
  snd (control_loop build ts Event_new c) = None.
Proof.
  revert c. induction ts as [|t ts IH]; intros c Hq.
  - reflexivity.
  - cbn [forallb] in Hq. apply andb_true_iff in Hq as [Ht Hq].
    apply quiet_not_signals in Ht.
    rewrite control_loop_turn, Ht. cbn [snd]. now apply IH.
Qed.

(** ** Periodic save (C6) *)

Lemma counter_after_mod (n : nat) : counter_after n = Z.of_nat n mod 60.
Proof.
  unfold counter_after. induction n as [|n IH].
  - reflexivity.
  - rewrite Nat.iter_succ, IH. unfold save_tick.
    rewrite Nat2Z.inj_succ.
    destruct (Z.eqb_spec (Z.of_nat n mod 60 + 1) 60) as [E|E]; cbn [snd];
      Z.div_mod_to_equations; lia.
Qed.

Lemma save_tick_saves (n : nat) :
  fst (save_tick (counter_after n)) = true <-> Z.of_nat (S n) mod 60 = 0.
Proof.
  rewrite counter_after_mod. unfold save_tick. rewrite Nat2Z.inj_succ.
  destruct (Z.eqb_spec (Z.of_nat n mod 60 + 1) 60) as [E|E]; cbn [fst];
    split; intros H; try reflexivity; try discriminate;
    Z.div_mod_to_equations; lia.
Qed.

(** C6.  Let the exit event stay unset through the turns [before] and the
    turn [t] that follows them, so that [t] is turn number
    [length before + 1] of a loop started with the counter at 0.  The trace
    of the loop is that of the turns before, what the notifications of [t]
    print, the body run on [t] with the counter [length before mod 60], and
    the trace of the turns after; that body saves the configuration exactly
    when the number of the turn is a multiple of 60, and leaves the counter
    at that number modulo 60, hence at 0 after a save.  Of the first 120
    turns, the 60th and the 120th save and no other. *)
Theorem save_on_every_60th_turn
    (build : BuildConfig) (before : list TickEnv) (t : TickEnv)
    (after : list TickEnv) :
  forallb quiet (before ++ [t]) = true ->
  fst (control_loop build (before ++ t :: after) Event_new 0)
  = fst (control_loop build before Event_new 0)
      ++ fst (deliver (notifications t) Event_new)
      ++ fst (loop_body build t (counter_after (List.length before)))
      ++ fst (control_loop build after Event_new
                (counter_after (S (List.length before))))
  /\ counter_after (List.length before)
     = Z.of_nat (List.length before) mod 60
  /\ (In SerializerSaveConfiguration
        (fst (loop_body build t (counter_after (List.length before))))
      <-> Z.of_nat (S (List.length before)) mod 60 = 0)
  /\ snd (loop_body build t (counter_after (List.length before)))
     = Z.of_nat (S (List.length before)) mod 60
  /\ map (fun n => fst (save_tick (counter_after n))) (seq 0 120)
     = repeat false 59 ++ [true] ++ repeat false 59 ++ [true].
Proof.
  intros Hq. rewrite forallb_app in Hq. apply andb_true_iff in Hq as [Hb Ht].
  cbn [forallb] in Ht. rewrite andb_true_r in Ht.
  apply quiet_not_signals in Ht.
  split; [|split; [|split; [|split]]].
  - rewrite (control_loop_quiet build before (t :: after) 0 Hb).
    cbn [fst]. fold (counter_after (List.length before)).
    rewrite control_loop_turn, Ht. cbn [fst].
    rewrite loop_body_counter.
    reflexivity.
  - apply counter_after_mod.
  - rewrite loop_body_trace, <- save_tick_saves.
    destruct (fst (save_tick (counter_after (List.length before)))).
    + split; [reflexivity | intros _; now left].
    + split; [|discriminate]. cbn [app]. intros H.
      apply in_app_or in H as [H|H].
      * unfold watchdog in H. destruct (_ <=? _); simpl in H;
          [destruct H as [H|[]]; discriminate H | contradiction].
      * unfold activity_led in H.
        destruct (BOT_PIN_CONNECTION_ACTIVE_LED build); simpl in H;
          [destruct H as [H|[]]; discriminate H | contradiction].
  - rewrite loop_body_counter.
    change (snd (save_tick (counter_after (List.length before))))
      with (counter_after (S (List.length before))).
    apply counter_after_mod.
  - vm_compute. reflexivity.
Qed.

Lemma save_on_every_60th_turn_witness :
  forallb quiet ([mkTick [NewImage] 5000000000 0 5000000000 0]
                   ++ [mkTick [VideoError "frame dropped" false]
                         6000000000 0 6000000000 0]) = true
  /\ counter_after 1 = 1
  /\ snd (loop_body (mkBuild true None None false)
            (mkTick [VideoError "frame dropped" false]
               6000000000 0 6000000000 0)
            (counter_after 1)) = 2.
Proof.
  split; [reflexivity|].
  destruct (save_on_every_60th_turn (mkBuild true None None false)
              [mkTick [NewImage] 5000000000 0 5000000000 0]
              (mkTick [VideoError "frame dropped" false]
                 6000000000 0 6000000000 0)
              [] eq_refl)
    as (_ & Hc & _ & Hs & _).
  split; [exact Hc | exact Hs].
Defined.

(** ** Motor watchdog (C5) *)

Lemma loop_body_motors (build : BuildConfig) (t : TickEnv) (c : Z) :
  In MotorsStop (fst (loop_body build t c)) <-> In MotorsStop (watchdog t).
Proof.
  rewrite loop_body_trace, !in_app_iff. split; [|tauto].
  intros [H|[H|H]]; [|exact H|].
  - destruct (fst (save_tick c)); simpl in H;
      [destruct H as [H|[]]; discriminate H | contradiction].
  - unfold activity_led in H.
    destruct (BOT_PIN_CONNECTION_ACTIVE_LED build); simpl in H;
      [destruct H as [H|[]]; discriminate H | contradiction].
Qed.

(** C5.  In every run of the loop body, whatever the counter, the motors are
    stopped exactly when the time since the last access to /motors/config,
    in whole milliseconds, is at least 1000, which is when at least
    1000 ms in nanoseconds lie between that access and the reading of the
    clock; so an access 1500 ms before the clock reading stops the motors
    and an access 500 ms before it does not. *)
Theorem watchdog_stops_after_1000ms
    (build : BuildConfig) (t : TickEnv) (saveCounter : Z) :
  (In MotorsStop (fst (loop_body build t saveCounter))
   <-> 1000 <= timeSinceMotorAccess t)
  /\ (1000 <= timeSinceMotorAccess t
      <-> 1000 * 1000000 <= motor_now t - motor_access t)
  /\ In MotorsStop
       (fst (loop_body build
               (mkTick (notifications t) (motor_now t)
                  (motor_now t - 1500 * 1000000) (led_now t) (led_access t))
               saveCounter))
  /\ ~ In MotorsStop
         (fst (loop_body build
                 (mkTick (notifications t) (motor_now t)
                    (motor_now t - 500 * 1000000) (led_now t) (led_access t))
                 saveCounter)).
Proof.
  assert (Hw : forall t', In MotorsStop (watchdog t')
                          <-> 1000 <= timeSinceMotorAccess t').
  { intros t'. unfold watchdog.
    destruct (Z.leb_spec 1000 (timeSinceMotorAccess t')) as [H|H]; simpl.
    - split; [intros _; exact H | intros _; now left].
    - split; [contradiction | lia]. }
  assert (Hns : forall t', 1000 <= timeSinceMotorAccess t'
                           <-> 1000 * 1000000 <= motor_now t' - motor_access t').
  { intros t'. apply duration_cast_ms_ge. lia. }
  split; [|split; [exact (Hns t) | split]].
  - now rewrite loop_body_motors.
  - rewrite loop_body_motors, Hw, Hns. simpl. lia.
  - rewrite loop_body_motors, Hw, Hns. simpl. lia.
Qed.

(** ** Activity indicator (C8) *)

Lemma loop_body_led (build : BuildConfig) (t : TickEnv) (c : Z)
    (pin : Z) (level : PinLevel) :
  In (DigitalWrite pin level) (fst (loop_body build t c))
  <-> In (DigitalWrite pin level) (activity_led build t).
Proof.
  rewrite loop_body_trace, !in_app_iff. split; [|tauto].
  intros [H|[H|H]]; [| |exact H].
  - destruct (fst (save_tick c)); simpl in H;
      [destruct H as [H|[]]; discriminate H | contradiction].
  - unfold watchdog in H. destruct (_ <=? _); simpl in H;
      [destruct H as [H|[]]; discriminate H | contradiction].
Qed.

(** C8.  In a build with the activity LED on [pin], every run of the loop
    body writes one level to that pin: HIGH exactly when the time since
    the last access to any endpoint, in whole milliseconds, is below 2000,
    which is when less than 2000 ms in nanoseconds lie between that access
    and the reading of the clock, and LOW otherwise; 1999 ms ago gives HIGH,
    2000 ms ago gives LOW. *)
Theorem activity_led_on_below_2000ms
    (build : BuildConfig) (pin : Z) (t : TickEnv) (saveCounter : Z) :
  BOT_PIN_CONNECTION_ACTIVE_LED build = Some pin ->
  (In (DigitalWrite pin HIGH) (fst (loop_body build t saveCounter))
   <-> timeSinceLastAccess t < 2000)
  /\ (In (DigitalWrite pin LOW) (fst (loop_body build t saveCounter))
      <-> 2000 <= timeSinceLastAccess t)
  /\ (timeSinceLastAccess t < 2000
      <-> led_now t - led_access t < 2000 * 1000000)
  /\ In (DigitalWrite pin HIGH)
       (fst (loop_body build
               (mkTick (notifications t) (motor_now t) (motor_access t)
                  (led_now t) (led_now t - 1999 * 1000000))
               saveCounter))
  /\ In (DigitalWrite pin LOW)
       (fst (loop_body build
               (mkTick (notifications t) (motor_now t) (motor_access t)
                  (led_now t) (led_now t - 2000 * 1000000))
               saveCounter)).
Proof.
  intros Hpin.
  assert (Hled : forall t' level,
             In (DigitalWrite pin level) (activity_led build t')
             <-> level = if timeSinceLastAccess t' <? 2000 then HIGH else LOW).
  { intros t' level. unfold activity_led. rewrite Hpin. simpl.
    split; [intros [[= <-]|[]]; reflexivity | intros ->; now left]. }
  assert (Hns : forall t', timeSinceLastAccess t' < 2000
                           <-> led_now t' - led_access t' < 2000 * 1000000).
  { intros t'. apply duration_cast_ms_lt. lia. }
  split; [|split; [|split; [exact (Hns t) | split]]].
  - rewrite loop_body_led, Hled.
    destruct (Z.ltb_spec (timeSinceLastAccess t) 2000);
      split; try reflexivity; try discriminate; lia.
  - rewrite loop_body_led, Hled.
    destruct (Z.ltb_spec (timeSinceLastAccess t) 2000);
      split; try reflexivity; try discriminate; lia.
  - rewrite loop_body_led, Hled.
    match goal with
    | |- context [timeSinceLastAccess ?x <? 2000] =>
        destruct (Z.ltb_spec (timeSinceLastAccess x) 2000) as [H|H];
        [reflexivity | exfalso; revert H; rewrite Z.le_ngt, (Hns x)]
    end.
    simpl. lia.
  - rewrite loop_body_led, Hled.
    match goal with
    | |- context [timeSinceLastAccess ?x <? 2000] =>
        destruct (Z.ltb_spec (timeSinceLastAccess x) 2000) as [H|H];
        [exfalso; revert H; rewrite (Hns x) | reflexivity]
    end.
    simpl. lia.
Qed.

Lemma activity_led_on_below_2000ms_witness :
  BOT_PIN_CONNECTION_ACTIVE_LED (mkBuild true (Some 11) (Some 13) false)
  = Some 13
  /\ In (DigitalWrite 13 HIGH)
       (fst (loop_body (mkBuild true (Some 11) (Some 13) false)
               (mkTick [] 7000000000 0 7000000000 (7000000000 - 1999 * 1000000))
               0))
  /\ In (DigitalWrite 13 LOW)
       (fst (loop_body (mkBuild true (Some 11) (Some 13) false)
               (mkTick [] 7000000000 0 7000000000 (7000000000 - 2000 * 1000000))
               0)).
Proof.
  split; [reflexivity|].
  destruct (activity_led_on_below_2000ms
              (mkBuild true (Some 11) (Some 13) false) 13
              (mkTick [] 7000000000 0 7000000000 0) 0 eq_refl)
    as (_ & _ & _ & Hhigh & Hlow).
  split; [exact Hhigh | exact Hlow].
Defined.

(** ** main *)

Lemma main_eq (build : BuildConfig) (env : Env) :
  main build env =
  let r := ParseCommandLine (argv env)
             (SetDefaultSettings build (pw_dir env) Settings0) in
  if negb (parse_ret r) then (parse_output r, Some (-1))
  else
    let before :=
      parse_output r ++ setup build (parse_settings r) ++ [ServerStart] in
    if server_Start env
    then
      match snd (control_loop build (ticks env) Event_new 0) with
      | None =>
          (before ++ startup build env
             ++ fst (control_loop build (ticks env) Event_new 0),
           None)
      | Some _ =>
          (before ++ startup build env
             ++ fst (control_loop build (ticks env) Event_new 0)
             ++ teardown build ++ BotShutDown build,
           Some 0)
      end
    else
      (before
         ++ [Printf "Failed starting web server on port %d\n"
               [ArgInt (server_Port env)]]
         ++ BotShutDown build,
       Some 0).
Proof.
  unfold main, parse_ret, parse_output, parse_settings.
  destruct (ParseCommandLine (argv env)
              (SetDefaultSettings build (pw_dir env) Settings0))
    as [[ok Settings] printed].
  cbn [fst snd]. destruct ok; cbn [negb]; [|reflexivity].
  destruct (server_Start env); [|reflexivity].
  destruct (control_loop build (ticks env) Event_new 0) as [looped [r|]];
    reflexivity.
Qed.

(** The value [main] returns: -1 when the command line is refused; else 0
    when the server does not start, and 0 once the control loop is left. *)
Lemma main_exit_code (build : BuildConfig) (env : Env) :
  snd (main build env) =
  if negb (parse_ret (ParseCommandLine (argv env)
                        (SetDefaultSettings build (pw_dir env) Settings0)))
  then Some (-1)
  else if server_Start env
       then match snd (control_loop build (ticks env) Event_new 0) with
            | None => None
            | Some _ => Some 0
            end
       else Some 0.
Proof.
  rewrite main_eq. cbv zeta.
  destruct (negb _); [reflexivity|].
  destruct (server_Start env); [|reflexivity].
  destruct (snd (control_loop build (ticks env) Event_new 0)); reflexivity.
Qed.

(** C1 fails on the code where the server does not start.  For a command
    line without options, [main] prints that the web server failed to start
    and returns 0, where the claim asks for a value other than 0. *)
Theorem main_returns_0_when_server_fails_to_start
    (build : BuildConfig) (home : option string) (prog : string) (port : Z)
    (script : list TickEnv) :
  snd (main build (mkEnv [prog] home false port script)) = Some 0
  /\ In (Printf "Failed starting web server on port %d\n" [ArgInt port])
        (fst (main build (mkEnv [prog] home false port script))).
Proof.
  rewrite main_eq. cbv zeta. cbn [argv pw_dir server_Start server_Port].
  assert (Hok : parse_ret (ParseCommandLine [prog]
                             (SetDefaultSettings build home Settings0)) = true)
    by (apply ParseCommandLine_true; constructor).
  rewrite Hok. cbn [negb fst snd]. split; [reflexivity|].
  apply in_or_app. right. now left.
Qed.

(** ** Shutdown (C7) *)

Lemma teardown_saves_once (build : BuildConfig) :
  count_saves (teardown build ++ BotShutDown build) = 1%nat.
Proof.
  unfold count_saves, teardown, BotShutDown.
  destruct (BOT_DISTANCE_ENABLE_MEASUREMENTS build),
    (BOT_PIN_ON_LED build), (BOT_PIN_CONNECTION_ACTIVE_LED build);
    reflexivity.
Qed.

(** C7.  Let the command line be accepted and the server start, let the exit
    event stay unset through the turns [before], and let a notification of
    turn [t] set it.  Then [main] returns 0, and its trace is: the start up,
    the loop over [before], what the notifications of [t] print, and then
    nothing of the loop any more but the stop of the distance measurements
    where they are built in, one save of the configuration, the signal to the
    camera to stop, the wait for the camera to stop, the stop of the server,
    the final message and the switching off of the LEDs; the turns [after]
    play no part, and the trace from the notifications of [t] on holds
    exactly one save. *)
Theorem shutdown_after_exit_signal
    (build : BuildConfig) (env : Env) (before : list TickEnv) (t : TickEnv)
    (after : list TickEnv) :
  parse_ret (ParseCommandLine (argv env)
               (SetDefaultSettings build (pw_dir env) Settings0)) = true ->
  server_Start env = true ->
  ticks env = before ++ t :: after ->
  forallb quiet before = true ->
  signals_exit t = true ->
  snd (main build env) = Some 0
  /\ fst (main build env)
     = (parse_output
          (ParseCommandLine (argv env)
             (SetDefaultSettings build (pw_dir env) Settings0))
          ++ setup build
               (parse_settings
                  (ParseCommandLine (argv env)
                     (SetDefaultSettings build (pw_dir env) Settings0)))
          ++ [ServerStart])
         ++ startup build env
         ++ (fst (control_loop build before Event_new 0)
               ++ fst (deliver (notifications t) Event_new))
         ++ ((if BOT_DISTANCE_ENABLE_MEASUREMENTS build
              then [DistanceStopMeasurements] else [])
               ++ [SerializerSaveConfiguration;
                   CameraSignalToStop;
                   CameraWaitForStop;
                   ServerStop;
                   Printf "Done \n" []])
         ++ BotShutDown build
  /\ count_saves
       (fst (deliver (notifications t) Event_new)
          ++ teardown build ++ BotShutDown build) = 1%nat.
Proof.
  intros Hparse Hstart Hticks Hquiet Hexit.
  assert (Hloop : control_loop build (ticks env) Event_new 0
                  = (fst (control_loop build before Event_new 0)
                       ++ fst (deliver (notifications t) Event_new),
                     Some (mkEvent true,
                           Nat.iter (List.length before)
                             (fun c => snd (save_tick c)) 0))).
  { rewrite Hticks, (control_loop_quiet build before (t :: after) 0 Hquiet).
    rewrite control_loop_turn, Hexit. reflexivity. }
  split; [|split].
  - rewrite main_exit_code, Hparse, Hstart, Hloop. reflexivity.
  - rewrite main_eq. cbv zeta. rewrite Hparse, Hstart, Hloop.
    reflexivity.
  - unfold count_saves. rewrite filter_app, deliver_no_save.
    apply teardown_saves_once.
Qed.

Lemma shutdown_after_exit_signal_witness :
  parse_ret (ParseCommandLine ["pirexbot"; "-fps:15"]
               (SetDefaultSettings (mkBuild true (Some 11) (Some 13) true)
                  (Some "/home/pi") Settings0)) = true
  /\ forallb quiet [mkTick [NewImage] 1000000000 0 1000000000 0] = true
  /\ signals_exit (mkTick [SignalDelivered SIGINT] 0 0 0 0) = true
  /\ snd (main (mkBuild true (Some 11) (Some 13) true)
            (mkEnv ["pirexbot"; "-fps:15"] (Some "/home/pi") true 8000
               ([mkTick [NewImage] 1000000000 0 1000000000 0]
                  ++ mkTick [SignalDelivered SIGINT] 0 0 0 0
                  :: [mkTick [] 3000000000 0 3000000000 0]))) = Some 0.
Proof.
  split; [reflexivity | split; [reflexivity | split; [reflexivity|]]].
  exact (proj1 (shutdown_after_exit_signal
                  (mkBuild true (Some 11) (Some 13) true)
                  (mkEnv ["pirexbot"; "-fps:15"] (Some "/home/pi") true 8000
                     ([mkTick [NewImage] 1000000000 0 1000000000 0]
                        ++ mkTick [SignalDelivered SIGINT] 0 0 0 0
                        :: [mkTick [] 3000000000 0 3000000000 0]))
                  [mkTick [NewImage] 1000000000 0 1000000000 0]
                  (mkTick [SignalDelivered SIGINT] 0 0 0 0)
                  [mkTick [] 3000000000 0 3000000000 0]
                  eq_refl eq_refl eq_refl eq_refl eq_refl)).
Defined.

(** ** Camera errors (C9) *)

Lemma loop_body_same (build : BuildConfig) (t1 t2 : TickEnv) (c : Z) :
  same_readings t1 t2 -> loop_body build t1 c = loop_body build t2 c.
Proof.
  intros (H1 & H2 & H3 & H4).
  unfold loop_body, watchdog, activity_led, timeSinceMotorAccess,
    timeSinceLastAccess.
  now rewrite H1, H2, H3, H4.
Qed.

Lemma same_turn_refl (t : TickEnv) : same_turn t t.
Proof. now repeat split. Qed.

(** Turns the control thread cannot tell apart give the same result and the
    same calls. *)
Lemma control_loop_same (build : BuildConfig) (ts1 ts2 : list TickEnv) :
  Forall2 same_turn ts1 ts2 ->
  forall e c,
    snd (control_loop build ts1 e c) = snd (control_loop build ts2 e c)
    /\ filter is_call (fst (control_loop build ts1 e c))
       = filter is_call (fst (control_loop build ts2 e c)).
Proof.
  induction 1 as [|t1 t2 ts1 ts2 [Hread Hev] _ IH]; intros e c.
  - now split.
  - cbn [control_loop].
    pose proof (deliver_prints (notifications t1) e) as Hp1.
    pose proof (deliver_prints (notifications t2) e) as Hp2.
    specialize (Hev e).
    destruct (deliver (notifications t1) e) as [out1 e1].
    destruct (deliver (notifications t2) e) as [out2 e2].
    cbn [fst snd] in *. subst e2.
    destruct (Event_Wait e1 1000).
    + cbn [fst snd]. split; [reflexivity | now rewrite Hp1, Hp2].
    + rewrite (loop_body_same build t1 t2 c Hread).
      destruct (loop_body build t2 c) as [acts c'].
      destruct (IH e1 c') as [Hr Hc].
      destruct (control_loop build ts1 e1 c') as [acts1 r1].
      destruct (control_loop build ts2 e1 c') as [acts2 r2].
      cbn [fst snd] in *. subst r2. split; [reflexivity|].
      now rewrite !filter_app, Hp1, Hp2, Hc.
Qed.

Lemma main_same (build : BuildConfig) (args : list string)
    (home : option string) (started : bool) (port : Z)
    (ts1 ts2 : list TickEnv) :
  Forall2 same_turn ts1 ts2 ->
  snd (main build (mkEnv args home started port ts1))
  = snd (main build (mkEnv args home started port ts2))
  /\ filter is_call (fst (main build (mkEnv args home started port ts1)))
     = filter is_call (fst (main build (mkEnv args home started port ts2))).
Proof.
  intros Hsame.
  destruct (control_loop_same build ts1 ts2 Hsame Event_new 0) as [Hr Hc].
  rewrite !main_eq. cbv zeta. cbn [argv pw_dir server_Start server_Port ticks].
  destruct (negb _); [now split|].
  destruct started; [|now split].
  rewrite <- Hr.
  destruct (snd (control_loop build ts1 Event_new 0)); cbn [fst snd];
    (split; [reflexivity|]);
    unfold startup; cbn [server_Port];
    now rewrite !filter_app, Hc.
Qed.

Lemma same_turn_around (ts1 ts2 : list TickEnv) (t1 t2 : TickEnv) :
  same_turn t1 t2 -> Forall2 same_turn (ts1 ++ t1 :: ts2) (ts1 ++ t2 :: ts2).
Proof.
  intros H. apply Forall2_app.
  - induction ts1; constructor; [apply same_turn_refl | assumption].
  - constructor; [exact H|].
    induction ts2; constructor; [apply same_turn_refl | assumption].
Qed.

(** C9.  [OnError] leaves the exit event as [sigIntHandler] would when the
    error is fatal and untouched when it is not, so that from an unset event
    the event is set after the notification exactly when the error is fatal.
    In a run of [main], a fatal camera error gives the same result and the
    same calls to the collaborators as a handled signal delivered in its
    place, and an error that is not fatal gives the same result and calls as
    no notification at all: it is only printed. *)
Theorem fatal_camera_error_raises_exit
    (errorMessage : string) (fatal : bool) (s : SignalT)
    (ExitEvent : XManualResetEvent) :
  snd (OnError errorMessage fatal ExitEvent)
  = (if fatal then sigIntHandler s ExitEvent else ExitEvent)
  /\ is_signaled (snd (OnError errorMessage fatal Event_new)) = fatal
  /\ fst (OnError errorMessage fatal ExitEvent)
     = [Printf "[%s] : %s \n"
          [ArgStr (if fatal then "Fatal" else "Error"); ArgStr errorMessage]]
  /\ forall build args home started port before ns1 ns2 now1 access1 now2
            access2 after,
       (snd (main build
               (mkEnv args home started port
                  (before
                     ++ mkTick (ns1 ++ [VideoError errorMessage true] ++ ns2)
                          now1 access1 now2 access2
                     :: after)))
        = snd (main build
                 (mkEnv args home started port
                    (before
                       ++ mkTick (ns1 ++ [SignalDelivered s] ++ ns2)
                            now1 access1 now2 access2
                       :: after)))
        /\ filter is_call
             (fst (main build
                     (mkEnv args home started port
                        (before
                           ++ mkTick
                                (ns1 ++ [VideoError errorMessage true] ++ ns2)
                                now1 access1 now2 access2
                           :: after))))
           = filter is_call
               (fst (main build
                       (mkEnv args home started port
                          (before
                             ++ mkTick (ns1 ++ [SignalDelivered s] ++ ns2)
                                  now1 access1 now2 access2
                             :: after)))))
       /\ (snd (main build
                  (mkEnv args home started port
                     (before
                        ++ mkTick
                             (ns1 ++ [VideoError errorMessage false] ++ ns2)
                             now1 access1 now2 access2
                        :: after)))
           = snd (main build
                    (mkEnv args home started port
                       (before
                          ++ mkTick (ns1 ++ ns2) now1 access1 now2 access2
                          :: after)))
           /\ filter is_call
                (fst (main build
                        (mkEnv args home started port
                           (before
                              ++ mkTick
                                   (ns1 ++ [VideoError errorMessage false]
                                        ++ ns2)
                                   now1 access1 now2 access2
                              :: after))))
              = filter is_call
                  (fst (main build
                          (mkEnv args home started port
                             (before
                                ++ mkTick (ns1 ++ ns2)
                                     now1 access1 now2 access2
                                :: after))))).
Proof.
  split; [now destruct fatal | split; [now destruct fatal | split]];
    [reflexivity|].
  intros build args home started port before ns1 ns2 now1 access1 now2
    access2 after.
  split.
  - apply main_same, same_turn_around. split; [now repeat split|].
    intros e. cbn [notifications]. rewrite !deliver_app. reflexivity.
  - apply main_same, same_turn_around. split; [now repeat split|].
    intros e. cbn [notifications]. rewrite !deliver_app. reflexivity.
Qed.

(** * Further properties of the command line *)

Lemma apply_option_realm (value : string) (st : ParseState) :
  apply_option "realm" value st
  = Some (with_settings st (set_HtRealm value (settings st))).
Proof. reflexivity. Qed.

Lemma apply_option_fcfg (value : string) (st : ParseState) :
  apply_option "fcfg" value st
  = Some (with_settings st (set_CameraConfigFileName value (settings st))).
Proof. reflexivity. Qed.

Lemma apply_option_web (value : string) (st : ParseState) :
  apply_option "web" value st
  = Some (with_settings st (set_CustomWebContent value (settings st))).
Proof. reflexivity. Qed.

Lemma apply_option_title (value : string) (st : ParseState) :
  apply_option "title" value st
  = Some (with_settings st (set_BotTitle value (settings st))).
Proof. reflexivity. Qed.

(** Rewrites [apply_option] at a concrete key into what the option does. *)
Ltac option_equations :=
  rewrite ?apply_option_size, ?apply_option_fps, ?apply_option_jpeg,
    ?apply_option_port, ?apply_option_realm, ?apply_option_htpass,
    ?apply_option_viewer, ?apply_option_config, ?apply_option_fcfg,
    ?apply_option_web, ?apply_option_title;
  cbv zeta.

(** Splits on the scans, look-ups and tests that [option_equations]
    exposes. *)
Ltac option_cases :=
  repeat match goal with
         | H : sscanf_u ?v = _ |- context [sscanf_u ?v] => rewrite H
         | H : map_find SupportedUserGroups ?v = _
           |- context [map_find SupportedUserGroups ?v] => rewrite H
         | H : ?c = _ |- context [if ?c then _ else _] => rewrite H
         | |- context [sscanf_u ?v] => destruct (sscanf_u v) eqn:?
         | |- context [map_find SupportedUserGroups ?v] =>
             destruct (map_find SupportedUserGroups v) eqn:?
         | |- context [if ?c then _ else _] => destruct c eqn:?
         end.

Lemma parse_arg_parts (t key value : string) (st : ParseState) :
  token_parts t key value ->
  parse_arg t st
  = if empty key || empty value then None else apply_option key value st.
Proof.
  intros H. apply split_arg_parts in H. unfold parse_arg. now rewrite H.
Qed.

Lemma known_key_cases (key : string) (P : string -> Prop) :
  In key option_keys ->
  P "size" -> P "fps" -> P "jpeg" -> P "port" -> P "realm" -> P "htpass" ->
  P "viewer" -> P "config" -> P "fcfg" -> P "web" -> P "title" ->
  P key.
Proof.
  unfold option_keys. cbn [In].
  intros [<-|[<-|[<-|[<-|[<-|[<-|[<-|[<-|[<-|[<-|[<-|[]]]]]]]]]]]];
    intros; assumption.
Qed.

Lemma apply_option_known (key value : string) (st st' : ParseState) :
  apply_option key value st = Some st' -> In key option_keys.
Proof.
  intros H. destruct (in_dec string_dec key option_keys) as [Hin|Hout];
    [exact Hin|].
  rewrite (apply_option_unknown _ _ _ Hout) in H. discriminate.
Qed.

(** A later option of the same key makes the earlier one void. *)
Lemma apply_option_replaces (key v1 v2 : string) (st st1 : ParseState) :
  apply_option key v1 st = Some st1 ->
  apply_option key v2 st1 = apply_option key v2 st.
Proof.
  intros H. pose proof (apply_option_known _ _ _ _ H) as Hin.
  revert H. pattern key. apply (known_key_cases key); [exact Hin|..];
    option_equations; intros H;
    repeat match type of H with
           | context [sscanf_u ?v] => destruct (sscanf_u v)
           | context [map_find SupportedUserGroups ?v] =>
               destruct (map_find SupportedUserGroups v)
           | context [if ?c then _ else _] => destruct c
           end;
    try discriminate H; injection H as <-; reflexivity.
Qed.

(** Options of different keys can be taken in either order. *)
Lemma apply_option_commute (k1 k2 v1 v2 : string) (st : ParseState) :
  k1 <> k2 ->
  match apply_option k1 v1 st with
  | Some st1 => apply_option k2 v2 st1
  | None => None
  end
  = match apply_option k2 v2 st with
    | Some st2 => apply_option k1 v1 st2
    | None => None
    end.
Proof.
  intros Hne.
  destruct (in_dec string_dec k1 option_keys) as [H1|H1].
  2:{ rewrite (apply_option_unknown k1 v1 st H1).
      destruct (apply_option k2 v2 st) as [st2|]; [|reflexivity].
      now rewrite apply_option_unknown. }
  destruct (in_dec string_dec k2 option_keys) as [H2|H2].
  2:{ rewrite (apply_option_unknown k2 v2 st H2).
      destruct (apply_option k1 v1 st) as [st1|]; [|reflexivity].
      now rewrite apply_option_unknown. }
  revert Hne. pattern k1. apply (known_key_cases k1); [exact H1|..];
    pattern k2; apply (known_key_cases k2); try exact H2;
    intros Hne; try (exfalso; apply Hne; reflexivity);
    option_equations; option_cases; option_equations; option_cases;
    reflexivity.
Qed.

Lemma parse_two_replaces (t1 t2 key v1 v2 : string) (st st1 : ParseState) :
  token_parts t1 key v1 -> token_parts t2 key v2 ->
  parse_arg t1 st = Some st1 ->
  parse_arg t2 st1 = parse_arg t2 st.
Proof.
  intros Hp1 Hp2. rewrite (parse_arg_parts _ _ _ st Hp1),
    (parse_arg_parts _ _ _ st Hp2), (parse_arg_parts _ _ _ st1 Hp2).
  destruct (empty key || empty v1); [discriminate|].
  destruct (empty key || empty v2); [reflexivity|].
  apply apply_option_replaces.
Qed.

Lemma parse_two_commute (t1 t2 k1 k2 v1 v2 : string) (st : ParseState) :
  token_parts t1 k1 v1 -> token_parts t2 k2 v2 -> k1 <> k2 ->
  parse_two t1 t2 st = parse_two t2 t1 st.
Proof.
  intros Hp1 Hp2 Hne. unfold parse_two.
  rewrite (parse_arg_parts _ _ _ st Hp1), (parse_arg_parts _ _ _ st Hp2).
  destruct (empty k1 || empty v1) eqn:E1.
  { destruct (empty k2 || empty v2); [reflexivity|].
    destruct (apply_option k2 v2 st) as [st2|]; [|reflexivity].
    now rewrite (parse_arg_parts _ _ _ st2 Hp1), E1. }
  destruct (empty k2 || empty v2) eqn:E2.
  { destruct (apply_option k1 v1 st) as [st1|]; [|reflexivity].
    now rewrite (parse_arg_parts _ _ _ st1 Hp2), E2. }
  pose proof (apply_option_commute k1 k2 v1 v2 st Hne) as Hc.
  destruct (apply_option k1 v1 st) as [st1|];
    destruct (apply_option k2 v2 st) as [st2|];
    rewrite ?(parse_arg_parts _ _ _ st1 Hp2), ?(parse_arg_parts _ _ _ st2 Hp1),
      ?E1, ?E2; exact Hc.
Qed.

(** The loop started one index later ends one index later, in the same
    state. *)
Lemma parse_loop_shift (args : list string) (i : nat) (st : ParseState) :
  parse_loop args (S i) st
  = (fst (parse_loop args i st), S (snd (parse_loop args i st))).
Proof.
  revert i st. induction args as [|a args IH]; intros i st; simpl.
  - reflexivity.
  - destruct (parse_arg a st) as [st'|]; [apply IH | reflexivity].
Qed.

(** What the function returns, read off the loop: the flag tells whether
    the loop consumed every argument. *)
Lemma ParseCommandLine_of_loop (prog : string) (tokens : list string)
    (s : SettingsT) :
  ParseCommandLine (prog :: tokens) s
  = (Nat.eqb (snd (parse_loop tokens 1 (mkParse s None None)))
       (1 + List.length tokens),
     fst (resolve_groups (fst (parse_loop tokens 1 (mkParse s None None)))),
     snd (resolve_groups (fst (parse_loop tokens 1 (mkParse s None None))))
       ++ if Nat.eqb (snd (parse_loop tokens 1 (mkParse s None None)))
               (1 + List.length tokens)
          then [] else help_text).
Proof.
  rewrite ParseCommandLine_eq.
  destruct (parse_loop tokens 1 (mkParse s None None)) as [st i].
  cbn [fst snd]. destruct (resolve_groups st) as [s' warned].
  cbn [fst snd plus].
  destruct (Nat.eqb i (S (List.length tokens))); cbn [negb];
    [now rewrite app_nil_r | reflexivity].
Qed.

(** ** Two options of different keys *)

(** X6.  Two neighbouring tokens that the loop takes and whose keys differ can
    change places: the function returns the same flag, leaves the same
    settings and prints the same. *)
Theorem neighbouring_options_commute
    (prog : string) (pre post : list string) (t1 t2 k1 k2 v1 v2 : string)
    (s : SettingsT) :
  token_parts t1 k1 v1 -> token_parts t2 k2 v2 -> k1 <> k2 ->
  ~ rejected t1 -> ~ rejected t2 ->
  ParseCommandLine (prog :: pre ++ t1 :: t2 :: post) s
  = ParseCommandLine (prog :: pre ++ t2 :: t1 :: post) s.
Proof.
  intros Hp1 Hp2 Hne Ha1 Ha2.
  assert (Hloop : forall i st,
             parse_loop (pre ++ t1 :: t2 :: post) i st
             = parse_loop (pre ++ t2 :: t1 :: post) i st).
  { induction pre as [|a pre IH]; intros i st.
    - pose proof (parse_two_commute _ _ _ _ _ _ st Hp1 Hp2 Hne) as Hc.
      unfold parse_two in Hc. cbn [app parse_loop].
      destruct (parse_arg t1 st) as [st1|] eqn:E1.
      2:{ exfalso. apply Ha1. now apply (parse_arg_None t1 st). }
      destruct (parse_arg t2 st) as [st2|] eqn:E2.
      2:{ exfalso. apply Ha2. now apply (parse_arg_None t2 st). }
      rewrite Hc. destruct (parse_arg t1 st2) as [st12|] eqn:E12;
        [reflexivity|].
      exfalso. apply Ha1. now apply (parse_arg_None t1 st2).
    - cbn [app parse_loop].
      destruct (parse_arg a st) as [st'|]; [apply IH | reflexivity]. }
  rewrite !ParseCommandLine_of_loop, Hloop, !length_app. reflexivity.
Qed.

Lemma neighbouring_options_commute_witness :
  token_parts "-fps:10" "fps" "10"
  /\ token_parts "-htpass:users" "htpass" "users"
  /\ ParseCommandLine ["pirexbot"; "-port:80"; "-fps:10"; "-htpass:users"]
       Settings0
     = ParseCommandLine ["pirexbot"; "-port:80"; "-htpass:users"; "-fps:10"]
         Settings0.
Proof.
  assert (Hp1 : token_parts "-fps:10" "fps" "10") by (split; reflexivity).
  assert (Hp2 : token_parts "-htpass:users" "htpass" "users")
    by (split; reflexivity).
  split; [exact Hp1 | split; [exact Hp2|]].
  refine (neighbouring_options_commute "pirexbot" ["-port:80"] []
            "-fps:10" "-htpass:users" "fps" "htpass" "10" "users" Settings0
            Hp1 Hp2 _ _ _).
  - discriminate.
  - intros H. apply (parse_arg_None _ (mkParse Settings0 None None)) in H.
    discriminate H.
  - intros H. apply (parse_arg_None _ (mkParse Settings0 None None)) in H.
    discriminate H.
Defined.

(** ** Two options of the same key *)

(** X7.  Of two neighbouring tokens of the same key that the loop takes, the
    first is void: without it the function returns the same flag, leaves
    the same settings and prints the same. *)
Theorem later_option_replaces_earlier
    (prog : string) (pre post : list string) (t1 t2 key v1 v2 : string)
    (s : SettingsT) :
  token_parts t1 key v1 -> token_parts t2 key v2 ->
  ~ rejected t1 -> ~ rejected t2 ->
  ParseCommandLine (prog :: pre ++ t1 :: t2 :: post) s
  = ParseCommandLine (prog :: pre ++ t2 :: post) s.
Proof.
  intros Hp1 Hp2 Ha1 Ha2.
  assert (Hloop : forall i st,
             fst (parse_loop (pre ++ t1 :: t2 :: post) i st)
             = fst (parse_loop (pre ++ t2 :: post) i st)
             /\ Nat.eqb (snd (parse_loop (pre ++ t1 :: t2 :: post) i st))
                  (i + List.length (pre ++ t1 :: t2 :: post))
                = Nat.eqb (snd (parse_loop (pre ++ t2 :: post) i st))
                    (i + List.length (pre ++ t2 :: post))).
  { induction pre as [|a pre IH]; intros i st.
    - cbn [app parse_loop].
      destruct (parse_arg t1 st) as [st1|] eqn:E1.
      2:{ exfalso. apply Ha1. now apply (parse_arg_None t1 st). }
      rewrite (parse_two_replaces _ _ _ _ _ _ _ Hp1 Hp2 E1).
      destruct (parse_arg t2 st) as [st2|] eqn:E2.
      2:{ exfalso. apply Ha2. now apply (parse_arg_None t2 st). }
      rewrite (parse_loop_shift post (S i) st2). cbn [fst snd List.length].
      split; [reflexivity|].
      rewrite <- !plus_n_Sm. reflexivity.
    - cbn [app parse_loop List.length].
      destruct (parse_arg a st) as [st'|].
      + rewrite <- !plus_n_Sm. apply (IH (S i) st').
      + cbn [fst snd]. split; [reflexivity|].
        rewrite !length_app. cbn [List.length].
        transitivity false; [|symmetry]; apply Nat.eqb_neq; lia. }
  rewrite !ParseCommandLine_of_loop.
  destruct (Hloop 1%nat (mkParse s None None)) as [-> ->]. reflexivity.
Qed.

Lemma later_option_replaces_earlier_witness :
  token_parts "-viewer:admin" "viewer" "admin"
  /\ token_parts "-viewer:any" "viewer" "any"
  /\ ParseCommandLine ["pirexbot"; "-viewer:admin"; "-viewer:any"; "-x"]
       Settings0
     = ParseCommandLine ["pirexbot"; "-viewer:any"; "-x"] Settings0.
Proof.
  assert (Hp1 : token_parts "-viewer:admin" "viewer" "admin")
    by (split; reflexivity).
  assert (Hp2 : token_parts "-viewer:any" "viewer" "any")
    by (split; reflexivity).
  split; [exact Hp1 | split; [exact Hp2|]].
  refine (later_option_replaces_earlier "pirexbot" [] ["-x"]
            "-viewer:admin" "-viewer:any" "viewer" "admin" "any" Settings0
            Hp1 Hp2 _ _).
  - intros H. apply (parse_arg_None _ (mkParse Settings0 None None)) in H.
    discriminate H.
  - intros H. apply (parse_arg_None _ (mkParse Settings0 None None)) in H.
    discriminate H.
Defined.

(** ** What an option leaves alone *)

(** An option that is taken writes the fields of its own key and no
    other. *)
Lemma apply_option_footprint (key value : string) (st st' : ParseState) :
  apply_option key value st = Some st' ->
  (key <> "size"
   -> FrameWidth (settings st') = FrameWidth (settings st)
      /\ FrameHeight (settings st') = FrameHeight (settings st))
  /\ (key <> "fps" -> FrameRate (settings st') = FrameRate (settings st))
  /\ (key <> "jpeg"
      -> JpegQuality (settings st') = JpegQuality (settings st))
  /\ (key <> "port" -> WebPort (settings st') = WebPort (settings st))
  /\ (key <> "realm" -> HtRealm (settings st') = HtRealm (settings st))
  /\ (key <> "htpass"
      -> HtDigestFileName (settings st') = HtDigestFileName (settings st)
         /\ ViewersGroup (settings st') = ViewersGroup (settings st)
         /\ ConfigGroup (settings st') = ConfigGroup (settings st))
  /\ (key <> "fcfg"
      -> CameraConfigFileName (settings st')
         = CameraConfigFileName (settings st))
  /\ (key <> "web"
      -> CustomWebContent (settings st') = CustomWebContent (settings st))
  /\ (key <> "title" -> BotTitle (settings st') = BotTitle (settings st))
  /\ (key <> "viewer" -> viewersGroup st' = viewersGroup st)
  /\ (key <> "config" -> configGroup st' = configGroup st).
Proof.
  intros H. pose proof (apply_option_known _ _ _ _ H) as Hin.
  revert H. pattern key. apply (known_key_cases key); [exact Hin|..];
    option_equations; intros H;
    repeat match type of H with
           | context [sscanf_u ?v] => destruct (sscanf_u v)
           | context [map_find SupportedUserGroups ?v] =>
               destruct (map_find SupportedUserGroups v)
           | context [if ?c then _ else _] => destruct c
           end;
    try discriminate H; injection H as <-;
    repeat match goal with |- _ /\ _ => split end;
    intros Hk;
    first [exfalso; apply Hk; reflexivity | repeat split; reflexivity].
Qed.

Lemma parse_loop_invariant_in (P : ParseState -> Prop) (args : list string) :
  (forall t st st', In t args -> P st -> parse_arg t st = Some st' -> P st') ->
  forall i st, P st -> P (fst (parse_loop args i st)).
Proof.
  induction args as [|a args IH]; intros Hstep i st HP; simpl.
  - exact HP.
  - destruct (parse_arg a st) as [st'|] eqn:E; [|exact HP].
    apply IH.
    + intros t s1 s2 Hin. apply Hstep. now right.
    + apply (Hstep a st); [now left | exact HP | exact E].
Qed.

(** A key no token mentions keeps its fields through the loop. *)
Lemma parse_loop_untouched (key : string) (tokens : list string)
    (P : ParseState -> Prop) (i : nat) (st : ParseState) :
  ~ mentions key tokens ->
  (forall k v s1 s2, k <> key -> P s1 -> apply_option k v s1 = Some s2 -> P s2) ->
  P st -> P (fst (parse_loop tokens i st)).
Proof.
  intros Hno Hkeep. apply parse_loop_invariant_in.
  intros t s1 s2 Hin HP Harg.
  destruct (parse_arg_Some _ _ _ Harg) as (k & v & Hparts & _ & _ & Hopt).
  apply (Hkeep k v s1 s2); [|exact HP | exact Hopt].
  intros ->. apply Hno. now exists t, v.
Qed.

Lemma resolve_groups_fields (st : ParseState) :
  FrameWidth (fst (resolve_groups st)) = FrameWidth (settings st)
  /\ FrameHeight (fst (resolve_groups st)) = FrameHeight (settings st)
  /\ HtRealm (fst (resolve_groups st)) = HtRealm (settings st)
  /\ CameraConfigFileName (fst (resolve_groups st))
     = CameraConfigFileName (settings st)
  /\ CustomWebContent (fst (resolve_groups st))
     = CustomWebContent (settings st)
  /\ BotTitle (fst (resolve_groups st)) = BotTitle (settings st).
Proof.
  unfold resolve_groups.
  destruct (groups_ignored st); simpl; [tauto|].
  destruct (viewersGroup st), (configGroup st); simpl; tauto.
Qed.

Lemma resolve_groups_no_override (st : ParseState) :
  (viewersGroup st = None
   -> ViewersGroup (fst (resolve_groups st)) = ViewersGroup (settings st))
  /\ (configGroup st = None
      -> ConfigGroup (fst (resolve_groups st)) = ConfigGroup (settings st)).
Proof.
  unfold resolve_groups.
  destruct (groups_ignored st); simpl; [tauto|].
  destruct (viewersGroup st), (configGroup st); simpl;
    split; intros H; try reflexivity; discriminate H.
Qed.

(** X8.  Whatever the command line, a field whose option no token mentions is
    after [ParseCommandLine] what it was before; a group stays when neither
    the users file option nor the option of the group is mentioned. *)
Theorem unmentioned_options_keep_their_fields
    (prog : string) (tokens : list string) (s : SettingsT) :
  (~ mentions "size" tokens
   -> FrameWidth (parse_settings (ParseCommandLine (prog :: tokens) s))
      = FrameWidth s
      /\ FrameHeight (parse_settings (ParseCommandLine (prog :: tokens) s))
         = FrameHeight s)
  /\ (~ mentions "fps" tokens
      -> FrameRate (parse_settings (ParseCommandLine (prog :: tokens) s))
         = FrameRate s)
  /\ (~ mentions "jpeg" tokens
      -> JpegQuality (parse_settings (ParseCommandLine (prog :: tokens) s))
         = JpegQuality s)
  /\ (~ mentions "port" tokens
      -> WebPort (parse_settings (ParseCommandLine (prog :: tokens) s))
         = WebPort s)
  /\ (~ mentions "realm" tokens
      -> HtRealm (parse_settings (ParseCommandLine (prog :: tokens) s))
         = HtRealm s)
  /\ (~ mentions "htpass" tokens
      -> HtDigestFileName
           (parse_settings (ParseCommandLine (prog :: tokens) s))
         = HtDigestFileName s)
  /\ (~ mentions "fcfg" tokens
      -> CameraConfigFileName
           (parse_settings (ParseCommandLine (prog :: tokens) s))
         = CameraConfigFileName s)
  /\ (~ mentions "web" tokens
      -> CustomWebContent
           (parse_settings (ParseCommandLine (prog :: tokens) s))
         = CustomWebContent s)
  /\ (~ mentions "title" tokens
      -> BotTitle (parse_settings (ParseCommandLine (prog :: tokens) s))
         = BotTitle s)
  /\ (~ mentions "htpass" tokens -> ~ mentions "viewer" tokens
      -> ViewersGroup (parse_settings (ParseCommandLine (prog :: tokens) s))
         = ViewersGroup s)
  /\ (~ mentions "htpass" tokens -> ~ mentions "config" tokens
      -> ConfigGroup (parse_settings (ParseCommandLine (prog :: tokens) s))
         = ConfigGroup s).
Proof.
  rewrite ParseCommandLine_settings.
  set (st0 := mkParse s None None).
  destruct (resolve_groups_numbers (fst (parse_loop tokens 1 st0)))
    as (Er & Ej & Ep & Ef).
  destruct (resolve_groups_fields (fst (parse_loop tokens 1 st0)))
    as (Ew & Eh & Em & Ec & Eb & Et).
  destruct (resolve_groups_no_override (fst (parse_loop tokens 1 st0)))
    as (Ev & Eg).
  rewrite Er, Ej, Ep, Ef, Ew, Eh, Em, Ec, Eb, Et.
  repeat match goal with |- _ /\ _ => split end; intros Hno.
  - apply (parse_loop_untouched "size" tokens
             (fun st => FrameWidth (settings st) = FrameWidth s
                        /\ FrameHeight (settings st) = FrameHeight s));
      [exact Hno | | now split].
    intros k v s1 s2 Hk HP Hopt.
    destruct (apply_option_footprint _ _ _ _ Hopt) as (H & _).
    destruct (H Hk) as [-> ->]. exact HP.
  - apply (parse_loop_untouched "fps" tokens
             (fun st => FrameRate (settings st) = FrameRate s));
      [exact Hno | | reflexivity].
    intros k v s1 s2 Hk HP Hopt.
    destruct (apply_option_footprint _ _ _ _ Hopt) as (_ & H & _).
    rewrite (H Hk). exact HP.
  - apply (parse_loop_untouched "jpeg" tokens
             (fun st => JpegQuality (settings st) = JpegQuality s));
      [exact Hno | | reflexivity].
    intros k v s1 s2 Hk HP Hopt.
    destruct (apply_option_footprint _ _ _ _ Hopt) as (_ & _ & H & _).
    rewrite (H Hk). exact HP.
  - apply (parse_loop_untouched "port" tokens
             (fun st => WebPort (settings st) = WebPort s));
      [exact Hno | | reflexivity].
    intros k v s1 s2 Hk HP Hopt.
    destruct (apply_option_footprint _ _ _ _ Hopt) as (_ & _ & _ & H & _).
    rewrite (H Hk). exact HP.
  - apply (parse_loop_untouched "realm" tokens
             (fun st => HtRealm (settings st) = HtRealm s));
      [exact Hno | | reflexivity].
    intros k v s1 s2 Hk HP Hopt.
    destruct (apply_option_footprint _ _ _ _ Hopt)
      as (_ & _ & _ & _ & H & _).
    rewrite (H Hk). exact HP.
  - apply (parse_loop_untouched "htpass" tokens
             (fun st => HtDigestFileName (settings st) = HtDigestFileName s));
      [exact Hno | | reflexivity].
    intros k v s1 s2 Hk HP Hopt.
    destruct (apply_option_footprint _ _ _ _ Hopt)
      as (_ & _ & _ & _ & _ & H & _).
    destruct (H Hk) as (-> & _). exact HP.
  - apply (parse_loop_untouched "fcfg" tokens
             (fun st => CameraConfigFileName (settings st)
                        = CameraConfigFileName s));
      [exact Hno | | reflexivity].
    intros k v s1 s2 Hk HP Hopt.
    destruct (apply_option_footprint _ _ _ _ Hopt)
      as (_ & _ & _ & _ & _ & _ & H & _).
    rewrite (H Hk). exact HP.
  - apply (parse_loop_untouched "web" tokens
             (fun st => CustomWebContent (settings st) = CustomWebContent s));
      [exact Hno | | reflexivity].
    intros k v s1 s2 Hk HP Hopt.
    destruct (apply_option_footprint _ _ _ _ Hopt)
      as (_ & _ & _ & _ & _ & _ & _ & H & _).
    rewrite (H Hk). exact HP.
  - apply (parse_loop_untouched "title" tokens
             (fun st => BotTitle (settings st) = BotTitle s));
      [exact Hno | | reflexivity].
    intros k v s1 s2 Hk HP Hopt.
    destruct (apply_option_footprint _ _ _ _ Hopt)
      as (_ & _ & _ & _ & _ & _ & _ & _ & H & _).
    rewrite (H Hk). exact HP.
  - intros Hnov. rewrite Ev.
    + apply (parse_loop_untouched "htpass" tokens
               (fun st => ViewersGroup (settings st) = ViewersGroup s));
        [exact Hno | | reflexivity].
      intros k v s1 s2 Hk HP Hopt.
      destruct (apply_option_footprint _ _ _ _ Hopt)
        as (_ & _ & _ & _ & _ & H & _).
      destruct (H Hk) as (_ & -> & _). exact HP.
    + apply (parse_loop_untouched "viewer" tokens
               (fun st => viewersGroup st = None));
        [exact Hnov | | reflexivity].
      intros k v s1 s2 Hk HP Hopt.
      destruct (apply_option_footprint _ _ _ _ Hopt)
        as (_ & _ & _ & _ & _ & _ & _ & _ & _ & H & _).
      rewrite (H Hk). exact HP.
  - intros Hnoc. rewrite Eg.
    + apply (parse_loop_untouched "htpass" tokens
               (fun st => ConfigGroup (settings st) = ConfigGroup s));
        [exact Hno | | reflexivity].
      intros k v s1 s2 Hk HP Hopt.
      destruct (apply_option_footprint _ _ _ _ Hopt)
        as (_ & _ & _ & _ & _ & H & _).
      destruct (H Hk) as (_ & _ & ->). exact HP.
    + apply (parse_loop_untouched "config" tokens
               (fun st => configGroup st = None));
        [exact Hnoc | | reflexivity].
      intros k v s1 s2 Hk HP Hopt.
      destruct (apply_option_footprint _ _ _ _ Hopt)
        as (_ & _ & _ & _ & _ & _ & _ & _ & _ & _ & H).
      rewrite (H Hk). exact HP.
Qed.

(** ** Ranges and frame sizes *)

(** X1.  Whatever the command line, and whether or not it is accepted, the
    settings [ParseCommandLine] leaves from the defaults have a frame rate
    in [1,30], a quality in [1,100] and a port in [0,65535]. *)
Theorem ParseCommandLine_keeps_ranges
    (build : BuildConfig) (home : option string) (args : list string) :
  1 <= FrameRate (parse_settings
                    (ParseCommandLine args
                       (SetDefaultSettings build home Settings0))) <= 30
  /\ 1 <= JpegQuality (parse_settings
                         (ParseCommandLine args
                            (SetDefaultSettings build home Settings0))) <= 100
  /\ 0 <= WebPort (parse_settings
                     (ParseCommandLine args
                        (SetDefaultSettings build home Settings0))) <= 65535.
Proof. apply ParseCommandLine_in_ranges. Qed.

Lemma supported_size_step (t : string) (st st' : ParseState) :
  In (FrameWidth (settings st), FrameHeight (settings st)) supported_sizes ->
  parse_arg t st = Some st' ->
  In (FrameWidth (settings st'), FrameHeight (settings st')) supported_sizes.
Proof.
  intros Hinv Harg.
  destruct (parse_arg_Some _ _ _ Harg) as (key & value & _ & _ & _ & Hopt).
  destruct (string_dec key "size") as [->|Hk].
  - rewrite apply_option_size in Hopt. cbv zeta in Hopt.
    destruct (Z.ltb_spec (char_code (char0 value) - 48) 0) as [H1|H1];
      [discriminate|].
    destruct (Z.ltb_spec 4 (char_code (char0 value) - 48)) as [H2|H2];
      [discriminate|].
    cbn [orb] in Hopt. injection Hopt as <-. cbn [settings with_settings].
    assert (Hv : char_code (char0 value) - 48 = 0
                 \/ char_code (char0 value) - 48 = 1
                 \/ char_code (char0 value) - 48 = 2
                 \/ char_code (char0 value) - 48 = 3
                 \/ char_code (char0 value) - 48 = 4) by lia.
    destruct Hv as [->|[->|[->|[->| ->]]]]; vm_compute; tauto.
  - destruct (apply_option_footprint _ _ _ _ Hopt) as (H & _).
    destruct (H Hk) as [-> ->]. exact Hinv.
Qed.

Lemma default_run_supported_size
    (build : BuildConfig) (home : option string) (args : list string) :
  In (FrameWidth (parse_settings
                    (ParseCommandLine args
                       (SetDefaultSettings build home Settings0))),
      FrameHeight (parse_settings
                     (ParseCommandLine args
                        (SetDefaultSettings build home Settings0))))
     supported_sizes.
Proof.
  assert (Hinv :
            In (FrameWidth
                  (settings
                     (fst (parse_loop (skipn 1 args) 1
                             (mkParse (SetDefaultSettings build home Settings0)
                                None None)))),
                FrameHeight
                  (settings
                     (fst (parse_loop (skipn 1 args) 1
                             (mkParse (SetDefaultSettings build home Settings0)
                                None None)))))
               supported_sizes).
  { apply (parse_loop_invariant
             (fun st => In (FrameWidth (settings st),
                            FrameHeight (settings st)) supported_sizes));
      [exact supported_size_step|].
    unfold SetDefaultSettings.
    destruct home, (NDEBUG build); vm_compute; tauto. }
  unfold ParseCommandLine, parse_settings.
  destruct (parse_loop (skipn 1 args) 1
              (mkParse (SetDefaultSettings build home Settings0) None None))
    as [st i].
  cbn [fst] in Hinv.
  destruct (resolve_groups_fields st) as (Hw & Hh & _).
  destruct (resolve_groups st) as [s' warned]. cbn [fst] in *.
  destruct (negb _); cbn [fst snd]; rewrite Hw, Hh; exact Hinv.
Qed.

(** X2.  Whatever the command line, the frame size [ParseCommandLine] leaves
    from the defaults is one of the five pairs of the two tables, taken at
    the same index, and so has the proportions 4:3. *)
Theorem frame_size_is_supported
    (build : BuildConfig) (home : option string) (args : list string) :
  In (FrameWidth (parse_settings
                    (ParseCommandLine args
                       (SetDefaultSettings build home Settings0))),
      FrameHeight (parse_settings
                     (ParseCommandLine args
                        (SetDefaultSettings build home Settings0))))
     [(320, 240); (480, 360); (640, 480); (800, 600); (1120, 840)]
  /\ 3 * FrameWidth (parse_settings
                       (ParseCommandLine args
                          (SetDefaultSettings build home Settings0)))
     = 4 * FrameHeight (parse_settings
                          (ParseCommandLine args
                             (SetDefaultSettings build home Settings0))).
Proof.
  pose proof (default_run_supported_size build home args) as H.
  split; [exact H|].
  unfold supported_sizes in H. cbn [combine SupportedWidth SupportedHeight In] in H.
  destruct H as [H|[H|[H|[H|[H|[]]]]]]; injection H as <- <-; reflexivity.
Qed.

(** X3.  The size option looks at the first character of its value and at
    nothing after it. *)
Theorem size_option_reads_one_character
    (c : ascii) (rest : string) (st : ParseState) :
  parse_arg ("-size:" ++ String c rest) st
  = parse_arg ("-size:" ++ String c "") st.
Proof.
  change ("-size:" ++ String c rest)%string
    with (String "-" ("size" ++ String ":" (String c rest))).
  change ("-size:" ++ String c "")%string
    with (String "-" ("size" ++ String ":" (String c ""))).
  rewrite !parse_arg_token; try reflexivity; discriminate.
Qed.

(** ** Text options *)

(** X4.  When the tokens before it are consumed, a realm, camera file, web
    folder or title option with a value that is not empty leaves exactly
    that value in its field, colons and spaces included. *)
Theorem text_options_keep_their_value
    (prog : string) (pre : list string) (value : string) (s : SettingsT) :
  value <> "" ->
  parse_ret (ParseCommandLine (prog :: pre) s) = true ->
  HtRealm (parse_settings
             (ParseCommandLine (prog :: pre ++ [("-realm:" ++ value)%string]) s))
  = value
  /\ CameraConfigFileName
       (parse_settings
          (ParseCommandLine (prog :: pre ++ [("-fcfg:" ++ value)%string]) s))
     = value
  /\ CustomWebContent
       (parse_settings
          (ParseCommandLine (prog :: pre ++ [("-web:" ++ value)%string]) s))
     = value
  /\ BotTitle
       (parse_settings
          (ParseCommandLine (prog :: pre ++ [("-title:" ++ value)%string]) s))
     = value.
Proof.
  intros Hv Hpre.
  set (st := fst (parse_loop pre 1 (mkParse s None None))).
  repeat match goal with |- _ /\ _ => split end.
  - change ("-realm:" ++ value)%string
      with (String "-" ("realm" ++ String ":" value)).
    rewrite (ParseCommandLine_last_token prog pre _ s
               (with_settings st (set_HtRealm value (settings st))) Hpre).
    + now destruct (resolve_groups_fields
                      (with_settings st (set_HtRealm value (settings st))))
        as (_ & _ & -> & _).
    + rewrite parse_arg_token; [reflexivity | reflexivity | discriminate
                               | exact Hv].
  - change ("-fcfg:" ++ value)%string
      with (String "-" ("fcfg" ++ String ":" value)).
    rewrite (ParseCommandLine_last_token prog pre _ s
               (with_settings st
                  (set_CameraConfigFileName value (settings st))) Hpre).
    + now destruct (resolve_groups_fields
                      (with_settings st
                         (set_CameraConfigFileName value (settings st))))
        as (_ & _ & _ & -> & _).
    + rewrite parse_arg_token; [reflexivity | reflexivity | discriminate
                               | exact Hv].
  - change ("-web:" ++ value)%string
      with (String "-" ("web" ++ String ":" value)).
    rewrite (ParseCommandLine_last_token prog pre _ s
               (with_settings st
                  (set_CustomWebContent value (settings st))) Hpre).
    + now destruct (resolve_groups_fields
                      (with_settings st
                         (set_CustomWebContent value (settings st))))
        as (_ & _ & _ & _ & -> & _).
    + rewrite parse_arg_token; [reflexivity | reflexivity | discriminate
                               | exact Hv].
  - change ("-title:" ++ value)%string
      with (String "-" ("title" ++ String ":" value)).
    rewrite (ParseCommandLine_last_token prog pre _ s
               (with_settings st (set_BotTitle value (settings st))) Hpre).
    + now destruct (resolve_groups_fields
                      (with_settings st (set_BotTitle value (settings st))))
        as (_ & _ & _ & _ & _ & ->).
    + rewrite parse_arg_token; [reflexivity | reflexivity | discriminate
                               | exact Hv].
Qed.

Lemma text_options_keep_their_value_witness :
  "My Bot: unit 7" <> ""
  /\ parse_ret (ParseCommandLine ["pirexbot"; "-size:1"] Settings0) = true
  /\ BotTitle
       (parse_settings
          (ParseCommandLine ["pirexbot"; "-size:1"; "-title:My Bot: unit 7"]
             Settings0)) = "My Bot: unit 7".
Proof.
  assert (Hne : "My Bot: unit 7" <> "") by discriminate.
  split; [exact Hne | split; [reflexivity|]].
  destruct (text_options_keep_their_value "pirexbot" ["-size:1"]
              "My Bot: unit 7" Settings0 Hne eq_refl)
    as (_ & _ & _ & Ht).
  exact Ht.
Defined.

(** ** Tokens *)

(** X5.  A token is cut after its marker at its first colon: [split_arg] yields a
    key and a value exactly for the tokens that read marker, key, colon,
    value with no colon in the key, and then yields that key and that value;
    the value may hold further colons. *)
Theorem token_is_cut_at_first_colon (t key value : string) :
  split_arg t = Some (key, value)
  <-> t = ("-" ++ key ++ ":" ++ value)%string /\ has_char ":" key = false.
Proof. exact (split_arg_parts t key value). Qed.

(** * Further properties of main *)

Lemma filter_none (P Q : Action -> bool) (l : list Action) :
  (forall a, Q a = true -> P a = false) ->
  forallb Q l = true -> filter P l = [].
Proof.
  intros HPQ. induction l as [|a l IH]; simpl; [reflexivity|].
  intros H. apply andb_true_iff in H as [Ha Hl].
  now rewrite (HPQ a Ha), (IH Hl).
Qed.

Lemma resolve_groups_prints (st : ParseState) :
  forallb (fun a => negb (is_call a)) (snd (resolve_groups st)) = true.
Proof. unfold resolve_groups. now destruct (groups_ignored st). Qed.

(** [ParseCommandLine] calls no collaborator: it only prints. *)
Lemma ParseCommandLine_prints (args : list string) (s : SettingsT) :
  forallb (fun a => negb (is_call a))
    (parse_output (ParseCommandLine args s)) = true.
Proof.
  unfold ParseCommandLine, parse_output.
  destruct (parse_loop (skipn 1 args) 1 (mkParse s None None)) as [st i].
  pose proof (resolve_groups_prints st) as Hp.
  destruct (resolve_groups st) as [s' warned]. cbn [snd] in Hp.
  destruct (negb _); cbn [snd]; [|exact Hp].
  rewrite forallb_app, Hp. reflexivity.
Qed.

Lemma deliver_loop_actions (ns : list Notification) (e : XManualResetEvent) :
  forallb loop_action (fst (deliver ns e)) = true.
Proof.
  revert e. induction ns as [|n ns IH]; intros e; simpl.
  - reflexivity.
  - assert (Hn : forallb loop_action (fst (notify n e)) = true)
      by (destruct n; reflexivity).
    destruct (notify n e) as [out e1]. specialize (IH e1).
    destruct (deliver ns e1) as [out1 e2]. simpl in *.
    now rewrite forallb_app, Hn, IH.
Qed.

Lemma loop_body_loop_actions (build : BuildConfig) (t : TickEnv) (c : Z) :
  forallb loop_action (fst (loop_body build t c)) = true.
Proof.
  rewrite loop_body_trace. unfold watchdog, activity_led.
  destruct (fst (save_tick c)), (1000 <=? timeSinceMotorAccess t),
    (BOT_PIN_CONNECTION_ACTIVE_LED build); reflexivity.
Qed.

(** The control loop prints, saves, stops the motors and writes pins, and
    does nothing else. *)
Lemma control_loop_loop_actions (build : BuildConfig) (ts : list TickEnv)
    (e : XManualResetEvent) (c : Z) :
  forallb loop_action (fst (control_loop build ts e c)) = true.
Proof.
  revert e c. induction ts as [|t ts IH]; intros e c; cbn [control_loop].
  - reflexivity.
  - pose proof (deliver_loop_actions (notifications t) e) as Hd.
    destruct (deliver (notifications t) e) as [out e1]. cbn [fst] in Hd.
    destruct (Event_Wait e1 1000); [exact Hd|].
    pose proof (loop_body_loop_actions build t c) as Hb.
    destruct (loop_body build t c) as [acts c']. cbn [fst] in Hb.
    specialize (IH e1 c').
    destruct (control_loop build ts e1 c') as [acts' r]. cbn [fst] in *.
    now rewrite !forallb_app, Hd, Hb, IH.
Qed.

Lemma loop_action_after_setup (l : list Action) :
  forallb loop_action l = true -> forallb after_setup l = true.
Proof.
  induction l as [|a l IH]; simpl; [reflexivity|].
  intros H. apply andb_true_iff in H as [Ha Hl].
  unfold after_setup at 1. now rewrite Ha, orb_true_r, (IH Hl).
Qed.

Lemma startup_after_setup (build : BuildConfig) (env : Env) :
  forallb after_setup (startup build env) = true.
Proof.
  unfold startup. now destruct (BOT_DISTANCE_ENABLE_MEASUREMENTS build).
Qed.

Lemma teardown_after_setup (build : BuildConfig) :
  forallb after_setup (teardown build ++ BotShutDown build) = true.
Proof.
  unfold teardown, BotShutDown.
  destruct (BOT_DISTANCE_ENABLE_MEASUREMENTS build),
    (BOT_PIN_ON_LED build), (BOT_PIN_CONNECTION_ACTIVE_LED build);
    reflexivity.
Qed.

Lemma BotShutDown_loop_actions (build : BuildConfig) :
  forallb loop_action (BotShutDown build) = true.
Proof.
  unfold BotShutDown.
  destruct (BOT_PIN_ON_LED build), (BOT_PIN_CONNECTION_ACTIVE_LED build);
    reflexivity.
Qed.

(** The shape of every run that gets past the command line: what
    [ParseCommandLine] printed, the setup, the start of the server, and a
    rest made of the actions that follow a setup. *)
Lemma main_past_command_line (build : BuildConfig) (env : Env) :
  parse_ret (ParseCommandLine (argv env)
               (SetDefaultSettings build (pw_dir env) Settings0)) = true ->
  exists rest,
    fst (main build env)
    = parse_output (ParseCommandLine (argv env)
                      (SetDefaultSettings build (pw_dir env) Settings0))
        ++ setup build
             (parse_settings
                (ParseCommandLine (argv env)
                   (SetDefaultSettings build (pw_dir env) Settings0)))
        ++ ServerStart :: rest
    /\ forallb after_setup rest = true.
Proof.
  intros Hok. rewrite main_eq. cbv zeta. rewrite Hok. cbn [negb].
  pose proof (loop_action_after_setup _
                (control_loop_loop_actions build (ticks env) Event_new 0))
    as Hloop.
  destruct (server_Start env).
  - destruct (snd (control_loop build (ticks env) Event_new 0)).
    + exists (startup build env
                ++ fst (control_loop build (ticks env) Event_new 0)
                ++ teardown build ++ BotShutDown build).
      cbn [fst]. split; [now rewrite <- !app_assoc|].
      now rewrite !forallb_app, startup_after_setup, Hloop,
        <- forallb_app, teardown_after_setup.
    + exists (startup build env
                ++ fst (control_loop build (ticks env) Event_new 0)).
      cbn [fst]. split; [now rewrite <- !app_assoc|].
      now rewrite !forallb_app, startup_after_setup, Hloop.
  - exists ([Printf "Failed starting web server on port %d\n"
               [ArgInt (server_Port env)]] ++ BotShutDown build).
    cbn [fst]. split; [now rewrite <- !app_assoc|].
    apply loop_action_after_setup.
    rewrite forallb_app, BotShutDown_loop_actions. reflexivity.
Qed.

(** A kind of call that neither printing nor anything after the setup
    makes is made by the setup alone. *)
Lemma main_setup_calls (P : Action -> bool) (build : BuildConfig) (env : Env) :
  (forall a, P a = true -> after_setup a = false) ->
  P ServerStart = false ->
  parse_ret (ParseCommandLine (argv env)
               (SetDefaultSettings build (pw_dir env) Settings0)) = true ->
  filter P (fst (main build env))
  = filter P (setup build
                (parse_settings
                   (ParseCommandLine (argv env)
                      (SetDefaultSettings build (pw_dir env) Settings0)))).
Proof.
  intros HP Hstart Hok.
  destruct (main_past_command_line build env Hok) as (rest & -> & Hrest).
  assert (Hnot : forall a, after_setup a = true -> P a = false).
  { intros a Ha. destruct (P a) eqn:E; [|reflexivity].
    apply HP in E. congruence. }
  rewrite !filter_app. cbn [filter]. rewrite Hstart.
  rewrite (filter_none P after_setup rest Hnot Hrest), app_nil_r.
  rewrite (filter_none P (fun a => negb (is_call a))).
  - reflexivity.
  - intros a Ha. apply Hnot. destruct a; try discriminate Ha. reflexivity.
  - apply ParseCommandLine_prints.
Qed.

(** Splits the setup on every condition it tests. *)
Ltac setup_cases build Settings :=
  unfold setup, BotInit;
  destruct (BOT_PIN_ON_LED build), (BOT_PIN_CONNECTION_ACTIVE_LED build),
    (BOT_DISTANCE_ENABLE_MEASUREMENTS build), (NDEBUG build),
    (empty (HtRealm Settings)), (empty (HtDigestFileName Settings)),
    (empty (CustomWebContent Settings)).

Lemma setup_not_running (build : BuildConfig) (Settings : SettingsT) :
  forallb (fun a => negb (is_running a)) (setup build Settings) = true.
Proof. setup_cases build Settings; reflexivity. Qed.

Lemma setup_configuration (build : BuildConfig) (Settings : SettingsT) :
  filter is_configuration (setup build Settings)
  = [SerializerCreate (CameraConfigFileName Settings);
     ServerCreate (WebPort Settings);
     CameraSetVideoSize (FrameWidth Settings) (FrameHeight Settings);
     CameraSetFrameRate (FrameRate Settings);
     CameraSetJpegQuality (JpegQuality Settings)].
Proof. setup_cases build Settings; reflexivity. Qed.

(** ** A refused command line *)

(** X9.  When [ParseCommandLine] refuses the command line, [main] returns -1
    having called no collaborator at all: nothing but the warning, if any,
    and the help text is printed, no pin is set up, no signal handler
    installed, no camera or server created. *)
Theorem refused_command_line_touches_nothing
    (build : BuildConfig) (env : Env) :
  parse_ret (ParseCommandLine (argv env)
               (SetDefaultSettings build (pw_dir env) Settings0)) = false ->
  snd (main build env) = Some (-1)
  /\ filter is_call (fst (main build env)) = []
  /\ exists printed, fst (main build env) = printed ++ help_text.
Proof.
  intros Hno. rewrite main_eq. cbv zeta. rewrite Hno. cbn [negb fst snd].
  split; [reflexivity | split].
  - apply (filter_none is_call (fun a => negb (is_call a))).
    + intros a Ha. now destruct (is_call a).
    + apply ParseCommandLine_prints.
  - revert Hno. unfold ParseCommandLine, parse_ret, parse_output.
    destruct (parse_loop (skipn 1 (argv env)) 1 _) as [st i].
    destruct (resolve_groups st) as [s' warned].
    destruct (negb _); cbn [fst snd]; [|discriminate].
    intros _. now exists warned.
Qed.

Lemma refused_command_line_touches_nothing_witness :
  parse_ret (ParseCommandLine ["pirexbot"; "-fps:fast"]
               (SetDefaultSettings (mkBuild true (Some 11) (Some 13) true)
                  (Some "/home/pi") Settings0)) = false
  /\ snd (main (mkBuild true (Some 11) (Some 13) true)
            (mkEnv ["pirexbot"; "-fps:fast"] (Some "/home/pi") true 8000 []))
     = Some (-1).
Proof.
  split; [reflexivity|].
  exact (proj1 (refused_command_line_touches_nothing
                  (mkBuild true (Some 11) (Some 13) true)
                  (mkEnv ["pirexbot"; "-fps:fast"] (Some "/home/pi") true
                     8000 [])
                  eq_refl)).
Defined.

(** ** A server that does not start *)

Lemma main_not_started (build : BuildConfig) (env : Env) :
  parse_ret (ParseCommandLine (argv env)
               (SetDefaultSettings build (pw_dir env) Settings0)) = true ->
  server_Start env = false ->
  filter is_running (fst (main build env)) = [].
Proof.
  intros Hok Hno. rewrite main_eq. cbv zeta. rewrite Hok, Hno.
  cbn [negb fst]. rewrite !filter_app.
  assert (H1 : forall a, negb (is_call a) = true -> is_running a = false)
    by (intros a; destruct a; try discriminate; reflexivity).
  assert (H2 : forall a, negb (is_running a) = true -> is_running a = false)
    by (intros a; destruct (is_running a); [discriminate | reflexivity]).
  rewrite (filter_none _ _ _ H1 (ParseCommandLine_prints _ _)).
  rewrite (filter_none _ _ _ H2 (setup_not_running _ _)).
  unfold BotShutDown.
  destruct (BOT_PIN_ON_LED build), (BOT_PIN_CONNECTION_ACTIVE_LED build);
    reflexivity.
Qed.

(** X10.  When the command line is accepted and the server does not start, [main]
    returns 0 without having started the camera or the measurements, saved
    the configuration, stopped the motors, the camera or the server; the
    last thing it does is [BotShutDown], and the script of the control loop
    plays no part. *)
Theorem failed_server_start_runs_nothing
    (build : BuildConfig) (env : Env) :
  parse_ret (ParseCommandLine (argv env)
               (SetDefaultSettings build (pw_dir env) Settings0)) = true ->
  server_Start env = false ->
  snd (main build env) = Some 0
  /\ filter is_running (fst (main build env)) = []
  /\ (exists before, fst (main build env) = before ++ BotShutDown build)
  /\ main build env
     = main build
         (mkEnv (argv env) (pw_dir env) false (server_Port env) []).
Proof.
  intros Hok Hno.
  split; [|split; [now apply main_not_started | split]].
  - rewrite main_exit_code, Hok, Hno. reflexivity.
  - rewrite main_eq. cbv zeta. rewrite Hok, Hno. cbn [negb fst].
    eexists. rewrite app_assoc. reflexivity.
  - rewrite !main_eq. cbv zeta.
    cbn [argv pw_dir server_Start server_Port ticks].
    rewrite Hok, Hno. reflexivity.
Qed.

Lemma failed_server_start_runs_nothing_witness :
  parse_ret (ParseCommandLine ["pirexbot"; "-port:80"]
               (SetDefaultSettings (mkBuild true (Some 11) (Some 13) true)
                  (Some "/home/pi") Settings0)) = true
  /\ filter is_running
       (fst (main (mkBuild true (Some 11) (Some 13) true)
               (mkEnv ["pirexbot"; "-port:80"] (Some "/home/pi") false 80
                  [mkTick [] 0 0 0 0]))) = [].
Proof.
  split; [reflexivity|].
  destruct (failed_server_start_runs_nothing
              (mkBuild true (Some 11) (Some 13) true)
              (mkEnv ["pirexbot"; "-port:80"] (Some "/home/pi") false 80
                 [mkTick [] 0 0 0 0])
              eq_refl eq_refl)
    as (_ & H & _).
  exact H.
Defined.

(** ** The order of the starts *)

Lemma first_before (A B l1 l2 : list Action) (x y : Action) :
  A ++ x :: B = l1 ++ y :: l2 -> ~ In y A -> x <> y -> In x l1.
Proof.
  revert l1. induction A as [|a A IH]; intros l1 Heq Hy Hxy.
  - destruct l1 as [|b l1]; simpl in Heq; injection Heq as Hhd _.
    + contradiction.
    + subst b. now left.
  - destruct l1 as [|b l1]; simpl in Heq; injection Heq as Hhd Htl.
    + exfalso. apply Hy. left. exact Hhd.
    + right. apply (IH l1 Htl); [|exact Hxy].
      intros H. apply Hy. now right.
Qed.

(** X11.  In every run of [main], a start of the camera comes after the start of
    the server, and only when the server did start. *)
Theorem camera_starts_after_server
    (build : BuildConfig) (env : Env) (l1 l2 : list Action) :
  fst (main build env) = l1 ++ CameraStart :: l2 ->
  In ServerStart l1 /\ server_Start env = true.
Proof.
  intros Htrace.
  assert (Hin : In CameraStart (fst (main build env)))
    by (rewrite Htrace; apply in_or_app; right; now left).
  destruct (parse_ret (ParseCommandLine (argv env)
                         (SetDefaultSettings build (pw_dir env) Settings0)))
    eqn:Hok.
  - split.
    + destruct (main_past_command_line build env Hok) as (rest & Heq & _).
      rewrite Heq, app_assoc in Htrace.
      apply (first_before _ _ _ _ _ _ Htrace); [|discriminate].
      intros H. apply in_app_or in H as [H|H].
      * pose proof (ParseCommandLine_prints (argv env)
                      (SetDefaultSettings build (pw_dir env) Settings0)) as Hp.
        rewrite forallb_forall in Hp. specialize (Hp _ H). discriminate Hp.
      * pose proof (setup_not_running build
                      (parse_settings
                         (ParseCommandLine (argv env)
                            (SetDefaultSettings build (pw_dir env) Settings0))))
          as Hs.
        rewrite forallb_forall in Hs. specialize (Hs _ H). discriminate Hs.
    + destruct (server_Start env) eqn:Hs; [reflexivity|].
      pose proof (main_not_started build env Hok Hs) as Hnone.
      assert (Hf : In CameraStart (filter is_running (fst (main build env))))
        by (apply filter_In; now split).
      rewrite Hnone in Hf. contradiction.
  - exfalso.
    pose proof (ParseCommandLine_prints (argv env)
                  (SetDefaultSettings build (pw_dir env) Settings0)) as Hp.
    rewrite main_eq in Hin. cbv zeta in Hin. rewrite Hok in Hin.
    cbn [negb fst] in Hin.
    rewrite forallb_forall in Hp. specialize (Hp _ Hin). discriminate Hp.
Qed.

Lemma camera_starts_after_server_witness :
  fst (main (mkBuild false None None false)
         (mkEnv ["pirexbot"] None true 8000
            [mkTick [SignalDelivered SIGTERM] 0 0 0 0]))
  = firstn 28
      (fst (main (mkBuild false None None false)
              (mkEnv ["pirexbot"] None true 8000
                 [mkTick [SignalDelivered SIGTERM] 0 0 0 0])))
      ++ CameraStart
      :: skipn 29
           (fst (main (mkBuild false None None false)
                   (mkEnv ["pirexbot"] None true 8000
                      [mkTick [SignalDelivered SIGTERM] 0 0 0 0])))
  /\ In ServerStart
       (firstn 28
          (fst (main (mkBuild false None None false)
                  (mkEnv ["pirexbot"] None true 8000
                     [mkTick [SignalDelivered SIGTERM] 0 0 0 0])))).
Proof.
  assert (Htrace :
            fst (main (mkBuild false None None false)
                   (mkEnv ["pirexbot"] None true 8000
                      [mkTick [SignalDelivered SIGTERM] 0 0 0 0]))
            = firstn 28
                (fst (main (mkBuild false None None false)
                        (mkEnv ["pirexbot"] None true 8000
                           [mkTick [SignalDelivered SIGTERM] 0 0 0 0])))
                ++ CameraStart
                :: skipn 29
                     (fst (main (mkBuild false None None false)
                             (mkEnv ["pirexbot"] None true 8000
                                [mkTick [SignalDelivered SIGTERM] 0 0 0 0])))).
  { vm_compute. reflexivity. }
  split; [exact Htrace|].
  exact (proj1 (camera_starts_after_server _ _ _ _ Htrace)).
Defined.

(** ** When main returns *)

Lemma control_loop_running (build : BuildConfig) (ts : list TickEnv) (c : Z) :
  snd (control_loop build ts Event_new c) = None
  <-> forallb quiet ts = true.
Proof.
  revert c. induction ts as [|t ts IH]; intros c.
  - split; reflexivity.
  - rewrite control_loop_turn. cbn [forallb].
    destruct (signals_exit t) eqn:E.
    + assert (Hq : quiet t = false).
      { destruct (quiet t) eqn:Eq; [|reflexivity].
        apply quiet_not_signals in Eq. congruence. }
      rewrite Hq. cbn [snd andb]. split; discriminate.
    + apply quiet_not_signals in E. rewrite E. cbn [snd andb]. apply IH.
Qed.

(** X12.  Against a script of turns, [main] fails to return exactly when the
    command line is accepted, the server starts, and no notification of the
    script is a handled signal or a fatal camera error: nothing else ends
    the control loop, and nothing else keeps [main] from returning. *)
Theorem main_returns_unless_never_signalled
    (build : BuildConfig) (env : Env) :
  snd (main build env) = None
  <-> parse_ret (ParseCommandLine (argv env)
                   (SetDefaultSettings build (pw_dir env) Settings0)) = true
      /\ server_Start env = true
      /\ forallb quiet (ticks env) = true.
Proof.
  rewrite main_exit_code, <- (control_loop_running build (ticks env) 0).
  destruct (parse_ret _); cbn [negb].
  - destruct (server_Start env).
    + destruct (snd (control_loop build (ticks env) Event_new 0)).
      * split; [discriminate | intros (_ & _ & H); discriminate H].
      * tauto.
    + split; [discriminate | intros (_ & H & _); discriminate H].
  - split; [discriminate | intros (H & _); discriminate H].
Qed.

(** ** Saves and motor stops of a whole run *)

Lemma loop_body_saves (build : BuildConfig) (t : TickEnv) (c : Z) :
  filter is_save (fst (loop_body build t c))
  = if c + 1 =? 60 then [SerializerSaveConfiguration] else [].
Proof.
  rewrite loop_body_trace. unfold save_tick, watchdog, activity_led.
  destruct (c + 1 =? 60), (1000 <=? timeSinceMotorAccess t),
    (BOT_PIN_CONNECTION_ACTIVE_LED build); reflexivity.
Qed.

(** While the exit event stays unset, the loop started with the counter at
    [c] saves once for every 60 that the count of turns, added to [c],
    holds. *)
Lemma control_loop_saves (build : BuildConfig) (ts : list TickEnv) (c : Z) :
  forallb quiet ts = true -> 0 <= c < 60 ->
  Z.of_nat (count_saves (fst (control_loop build ts Event_new c)))
  = (c + Z.of_nat (List.length ts)) / 60.
Proof.
  unfold count_saves. revert c.
  induction ts as [|t ts IH]; intros c Hq Hc.
  - cbn [control_loop fst filter List.length]. rewrite Z.add_0_r.
    symmetry. apply Z.div_small. exact Hc.
  - cbn [forallb] in Hq. apply andb_true_iff in Hq as [Ht Hq].
    apply quiet_not_signals in Ht.
    rewrite control_loop_turn, Ht. cbn [fst].
    rewrite !filter_app, deliver_no_save, loop_body_saves, loop_body_counter.
    cbn [app]. rewrite length_app, Nat2Z.inj_add.
    unfold save_tick. cbn [List.length]. rewrite Nat2Z.inj_succ.
    destruct (Z.eqb_spec (c + 1) 60) as [E|E]; cbn [snd List.length].
    + rewrite (IH 0 Hq ltac:(lia)).
      replace (c + Z.succ (Z.of_nat (List.length ts)))
        with (1 * 60 + (0 + Z.of_nat (List.length ts))) by lia.
      rewrite Z.div_add_l by lia. lia.
    + rewrite (IH (c + 1) Hq ltac:(lia)). cbn [Z.of_nat]. rewrite Z.add_0_l.
      f_equal. lia.
Qed.

Lemma loop_body_motor_stops (build : BuildConfig) (t : TickEnv) (c : Z) :
  filter is_motors_stop (fst (loop_body build t c))
  = if stale t then [MotorsStop] else [].
Proof.
  rewrite loop_body_trace. unfold stale, watchdog, activity_led.
  destruct (fst (save_tick c)), (1000 <=? timeSinceMotorAccess t),
    (BOT_PIN_CONNECTION_ACTIVE_LED build); reflexivity.
Qed.

Lemma control_loop_motor_stops (build : BuildConfig) (ts : list TickEnv)
    (c : Z) :
  forallb quiet ts = true ->
  List.length (filter is_motors_stop (fst (control_loop build ts Event_new c)))
  = List.length (filter stale ts).
Proof.
  revert c. induction ts as [|t ts IH]; intros c Hq.
  - reflexivity.
  - cbn [forallb] in Hq. apply andb_true_iff in Hq as [Ht Hq].
    apply quiet_not_signals in Ht.
    rewrite control_loop_turn, Ht. cbn [fst filter].
    rewrite !filter_app, loop_body_motor_stops, !length_app, (IH _ Hq).
    assert (Hd : filter is_motors_stop
                   (fst (deliver (notifications t) Event_new)) = []).
    { apply (filter_none is_motors_stop (fun a => negb (is_call a))).
      - intros a Ha. destruct a; try discriminate Ha. reflexivity.
      - assert (Hp := deliver_prints (notifications t) Event_new).
        induction (fst (deliver (notifications t) Event_new)) as [|a l IHl];
          [reflexivity|].
        cbn [filter forallb] in *. destruct (is_call a); [discriminate|].
        now apply IHl. }
    rewrite Hd. now destruct (stale t).
Qed.

(** The trace of a run that is signalled to exit after the turns
    [before]. *)
Lemma main_signalled (build : BuildConfig) (env : Env)
    (before : list TickEnv) (t : TickEnv) (after : list TickEnv) :
  parse_ret (ParseCommandLine (argv env)
               (SetDefaultSettings build (pw_dir env) Settings0)) = true ->
  server_Start env = true ->
  ticks env = before ++ t :: after ->
  forallb quiet before = true ->
  signals_exit t = true ->
  fst (main build env)
  = parse_output (ParseCommandLine (argv env)
                    (SetDefaultSettings build (pw_dir env) Settings0))
      ++ setup build
           (parse_settings
              (ParseCommandLine (argv env)
                 (SetDefaultSettings build (pw_dir env) Settings0)))
      ++ [ServerStart]
      ++ startup build env
      ++ fst (control_loop build before Event_new 0)
      ++ fst (deliver (notifications t) Event_new)
      ++ teardown build ++ BotShutDown build.
Proof.
  intros Hparse Hstart Hticks Hquiet Hexit.
  rewrite main_eq. cbv zeta. rewrite Hparse, Hstart, Hticks.
  rewrite (control_loop_quiet build before (t :: after) 0 Hquiet).
  rewrite control_loop_turn, Hexit. cbn [negb fst snd].
  now rewrite <- !app_assoc.
Qed.

(** X13.  A run that is signalled to exit after [n] turns of the control loop
    saves the configuration [n / 60 + 1] times in all: once for every full
    60 turns, and once on the way out. *)
Theorem saves_of_a_run
    (build : BuildConfig) (env : Env) (before : list TickEnv) (t : TickEnv)
    (after : list TickEnv) :
  parse_ret (ParseCommandLine (argv env)
               (SetDefaultSettings build (pw_dir env) Settings0)) = true ->
  server_Start env = true ->
  ticks env = before ++ t :: after ->
  forallb quiet before = true ->
  signals_exit t = true ->
  Z.of_nat (count_saves (fst (main build env)))
  = Z.of_nat (List.length before) / 60 + 1.
Proof.
  intros Hparse Hstart Hticks Hquiet Hexit.
  rewrite (main_signalled build env before t after Hparse Hstart Hticks
             Hquiet Hexit).
  pose proof (control_loop_saves build before 0 Hquiet ltac:(lia)) as Hloop.
  pose proof (teardown_saves_once build) as Hdown.
  unfold count_saves in *. rewrite !filter_app, !length_app.
  rewrite (filter_none is_save (fun a => negb (is_call a))
             (parse_output _)).
  2:{ intros a Ha. destruct a; try discriminate Ha. reflexivity. }
  2:{ apply ParseCommandLine_prints. }
  rewrite (filter_none is_save (fun a => negb (is_running a)) (setup _ _)).
  2:{ intros a Ha. destruct a; try discriminate Ha; reflexivity. }
  2:{ apply setup_not_running. }
  assert (Hs : filter is_save (startup build env) = []).
  { unfold startup. now destruct (BOT_DISTANCE_ENABLE_MEASUREMENTS build). }
  rewrite Hs, deliver_no_save. cbn [filter is_save List.length plus].
  rewrite <- length_app, <- filter_app, Nat2Z.inj_add, Hloop, Hdown.
  rewrite Z.add_0_l. reflexivity.
Qed.

Lemma saves_of_a_run_witness :
  parse_ret (ParseCommandLine ["pirexbot"]
               (SetDefaultSettings (mkBuild true None None false)
                  (Some "/home/pi") Settings0)) = true
  /\ forallb quiet (repeat (mkTick [] 0 0 0 0) 125) = true
  /\ signals_exit (mkTick [SignalDelivered SIGINT] 0 0 0 0) = true
  /\ Z.of_nat
       (count_saves
          (fst (main (mkBuild true None None false)
                  (mkEnv ["pirexbot"] (Some "/home/pi") true 8000
                     (repeat (mkTick [] 0 0 0 0) 125
                        ++ mkTick [SignalDelivered SIGINT] 0 0 0 0 :: [])))))
     = Z.of_nat (List.length (repeat (mkTick [] 0 0 0 0) 125)) / 60 + 1.
Proof.
  split; [reflexivity | split; [reflexivity | split; [reflexivity|]]].
  exact (saves_of_a_run (mkBuild true None None false)
           (mkEnv ["pirexbot"] (Some "/home/pi") true 8000
              (repeat (mkTick [] 0 0 0 0) 125
                 ++ mkTick [SignalDelivered SIGINT] 0 0 0 0 :: []))
           (repeat (mkTick [] 0 0 0 0) 125)
           (mkTick [SignalDelivered SIGINT] 0 0 0 0) []
           eq_refl eq_refl eq_refl eq_refl eq_refl).
Defined.

(** X14.  In a run that is signalled to exit, the motors are stopped once in
    every turn of the loop at which the last access to /motors/config is at
    least 1000 ms old, and at no other point: neither the setup nor the
    teardown stops them. *)
Theorem motor_stops_of_a_run
    (build : BuildConfig) (env : Env) (before : list TickEnv) (t : TickEnv)
    (after : list TickEnv) :
  parse_ret (ParseCommandLine (argv env)
               (SetDefaultSettings build (pw_dir env) Settings0)) = true ->
  server_Start env = true ->
  ticks env = before ++ t :: after ->
  forallb quiet before = true ->
  signals_exit t = true ->
  List.length (filter is_motors_stop (fst (main build env)))
  = List.length (filter stale before).
Proof.
  intros Hparse Hstart Hticks Hquiet Hexit.
  rewrite (main_signalled build env before t after Hparse Hstart Hticks
             Hquiet Hexit).
  pose proof (control_loop_motor_stops build before 0 Hquiet) as Hloop.
  rewrite !filter_app, !length_app.
  rewrite (filter_none is_motors_stop (fun a => negb (is_call a))
             (parse_output _)).
  2:{ intros a Ha. destruct a; try discriminate Ha. reflexivity. }
  2:{ apply ParseCommandLine_prints. }
  rewrite (filter_none is_motors_stop (fun a => negb (is_running a))
             (setup _ _)).
  2:{ intros a Ha. destruct a; try discriminate Ha; reflexivity. }
  2:{ apply setup_not_running. }
  rewrite (filter_none is_motors_stop (fun a => negb (is_call a))
             (fst (deliver _ _))).
  2:{ intros a Ha. destruct a; try discriminate Ha. reflexivity. }
  2:{ pose proof (deliver_prints (notifications t) Event_new) as Hp.
      induction (fst (deliver (notifications t) Event_new)) as [|a l IHl];
        [reflexivity|].
      cbn [filter forallb] in *. destruct (is_call a); [discriminate|].
      now apply IHl. }
  assert (Hs : filter is_motors_stop (startup build env) = []).
  { unfold startup. now destruct (BOT_DISTANCE_ENABLE_MEASUREMENTS build). }
  assert (Hd : filter is_motors_stop (teardown build) = []).
  { unfold teardown. now destruct (BOT_DISTANCE_ENABLE_MEASUREMENTS build). }
  assert (Hb : filter is_motors_stop (BotShutDown build) = []).
  { unfold BotShutDown.
    now destruct (BOT_PIN_ON_LED build),
      (BOT_PIN_CONNECTION_ACTIVE_LED build). }
  rewrite Hs, Hd, Hb, Hloop. cbn [filter is_motors_stop List.length plus].
  now rewrite !Nat.add_0_r.
Qed.

Lemma motor_stops_of_a_run_witness :
  parse_ret (ParseCommandLine ["pirexbot"]
               (SetDefaultSettings (mkBuild true None None false)
                  (Some "/home/pi") Settings0)) = true
  /\ forallb quiet [mkTick [] 5000000000 4600000000 0 0;
                    mkTick [NewImage] 6000000000 4600000000 0 0] = true
  /\ signals_exit (mkTick [VideoError "lost" true] 0 0 0 0) = true
  /\ List.length
       (filter is_motors_stop
          (fst (main (mkBuild true None None false)
                  (mkEnv ["pirexbot"] (Some "/home/pi") true 8000
                     ([mkTick [] 5000000000 4600000000 0 0;
                       mkTick [NewImage] 6000000000 4600000000 0 0]
                        ++ mkTick [VideoError "lost" true] 0 0 0 0 :: [])))))
     = 1%nat.
Proof.
  split; [reflexivity | split; [reflexivity | split; [reflexivity|]]].
  exact (motor_stops_of_a_run (mkBuild true None None false)
           (mkEnv ["pirexbot"] (Some "/home/pi") true 8000
              ([mkTick [] 5000000000 4600000000 0 0;
                mkTick [NewImage] 6000000000 4600000000 0 0]
                 ++ mkTick [VideoError "lost" true] 0 0 0 0 :: []))
           [mkTick [] 5000000000 4600000000 0 0;
            mkTick [NewImage] 6000000000 4600000000 0 0]
           (mkTick [VideoError "lost" true] 0 0 0 0) []
           eq_refl eq_refl eq_refl eq_refl eq_refl).
Defined.

(** ** What the collaborators are given *)



(** ** Access control *)

Lemma groups_follow_users_file_step (t : string) (st st' : ParseState) :
  groups_follow_users_file st -> parse_arg t st = Some st' ->
  groups_follow_users_file st'.
Proof.
  unfold groups_follow_users_file. intros Hinv Harg.
  destruct (parse_arg_Some _ _ _ Harg) as (key & value & _ & _ & Hv & Hopt).
  destruct (apply_option_Some _ _ _ _ Hopt)
    as [[_ ->]|[[_ (g & _ & ->)]|[[_ (g & _ & ->)]|(_ & _ & Hf & Hvg & Hcg)]]].
  - simpl. split; [intros H; contradiction | intros _; now split].
  - exact Hinv.
  - exact Hinv.
  - rewrite Hf, Hvg, Hcg. exact Hinv.
Qed.

(** The groups [ParseCommandLine] leaves from the defaults: [Anyone] twice
    without a users file; with one, the recorded override of each group, or
    [User] and [Admin] where none is recorded. *)
Lemma default_run_groups
    (build : BuildConfig) (home : option string) (prog : string)
    (tokens : list string) :
  (HtDigestFileName
     (parse_settings
        (ParseCommandLine (prog :: tokens)
           (SetDefaultSettings build home Settings0))) = ""
   -> ViewersGroup
        (parse_settings
           (ParseCommandLine (prog :: tokens)
              (SetDefaultSettings build home Settings0))) = Anyone
      /\ ConfigGroup
           (parse_settings
              (ParseCommandLine (prog :: tokens)
                 (SetDefaultSettings build home Settings0))) = Anyone)
  /\ (HtDigestFileName
        (parse_settings
           (ParseCommandLine (prog :: tokens)
              (SetDefaultSettings build home Settings0))) <> ""
      -> ViewersGroup
           (parse_settings
              (ParseCommandLine (prog :: tokens)
                 (SetDefaultSettings build home Settings0)))
         = match viewersGroup
                   (fst (parse_loop tokens 1
                           (mkParse (SetDefaultSettings build home Settings0)
                              None None))) with
           | Some g => g
           | None => User
           end
         /\ ConfigGroup
              (parse_settings
                 (ParseCommandLine (prog :: tokens)
                    (SetDefaultSettings build home Settings0)))
            = match configGroup
                      (fst (parse_loop tokens 1
                              (mkParse
                                 (SetDefaultSettings build home Settings0)
                                 None None))) with
              | Some g => g
              | None => Admin
              end).
Proof.
  rewrite ParseCommandLine_settings.
  set (st := fst (parse_loop tokens 1
                    (mkParse (SetDefaultSettings build home Settings0)
                       None None))).
  assert (Hinv : groups_follow_users_file st).
  { apply parse_loop_invariant; [exact groups_follow_users_file_step|].
    unfold groups_follow_users_file, SetDefaultSettings.
    destruct home, (NDEBUG build); simpl;
      (split; [intros _; now split | intros H; now contradiction H]). }
  destruct Hinv as [Hopen Hguard].
  destruct (resolve_groups_numbers st) as (_ & _ & _ & ->).
  pose proof (groups_ignored_true st) as Hign.
  unfold resolve_groups. destruct (groups_ignored st) eqn:E; cbn [fst].
  - destruct (proj1 Hign eq_refl) as [_ He].
    split; [intros _; now apply Hopen | intros H; contradiction].
  - split.
    + intros He. destruct (Hopen He) as [Hv Hc].
      assert (Hnone : forall g,
                 viewersGroup st = Some g \/ configGroup st = Some g ->
                 g = Anyone).
      { intros g Hg.
        destruct (UserGroup_eqb g Anyone) eqn:Eg; [now destruct g|].
        assert (Habs : false = true); [|discriminate Habs].
        apply Hign. split; [|exact He].
        exists g. split; [intros ->; discriminate | exact Hg]. }
      split.
      * destruct (viewersGroup st) as [g|] eqn:Eg;
          destruct (configGroup st) as [g'|]; simpl; try exact Hv;
          apply Hnone; now left.
      * destruct (viewersGroup st) as [g|];
          destruct (configGroup st) as [g'|] eqn:Eg; simpl; try exact Hc;
          apply Hnone; now right.
    + intros Hne. destruct (Hguard Hne) as [Hv Hc].
      destruct (viewersGroup st), (configGroup st); simpl; auto.
Qed.

Lemma setup_open (build : BuildConfig) (Settings : SettingsT) :
  HtDigestFileName Settings = "" ->
  ViewersGroup Settings = Anyone -> ConfigGroup Settings = Anyone ->
  forallb (fun a => negb (is_access_control a) || open_handler a)
    (setup build Settings) = true.
Proof.
  destruct Settings as [w h r q p realm file cam web title vg cg].
  cbn [HtDigestFileName ViewersGroup ConfigGroup].
  intros -> -> ->.
  unfold setup, BotInit.
  cbn [HtDigestFileName ViewersGroup ConfigGroup HtRealm CustomWebContent
       empty].
  destruct (BOT_PIN_ON_LED build), (BOT_PIN_CONNECTION_ACTIVE_LED build),
    (BOT_DISTANCE_ENABLE_MEASUREMENTS build), (NDEBUG build),
    (empty realm), (empty web); reflexivity.
Qed.

Lemma setup_guarded (build : BuildConfig) (Settings : SettingsT) :
  ViewersGroup Settings = User -> ConfigGroup Settings = Admin ->
  forallb (fun a => negb (is_access_control a) || guarded_handler a)
    (setup build Settings) = true.
Proof.
  destruct Settings as [w h r q p realm file cam web title vg cg].
  cbn [ViewersGroup ConfigGroup].
  intros -> ->.
  unfold setup, BotInit.
  cbn [HtDigestFileName ViewersGroup ConfigGroup HtRealm CustomWebContent].
  destruct (BOT_PIN_ON_LED build), (BOT_PIN_CONNECTION_ACTIVE_LED build),
    (BOT_DISTANCE_ENABLE_MEASUREMENTS build), (NDEBUG build),
    (empty realm), (empty file), (empty web);
    reflexivity.
Qed.

(** What [main] registers or loads, it does in the setup. *)
Lemma main_access_control (build : BuildConfig) (env : Env) (a : Action) :
  parse_ret (ParseCommandLine (argv env)
               (SetDefaultSettings build (pw_dir env) Settings0)) = true ->
  is_access_control a = true ->
  In a (fst (main build env))
  <-> In a (setup build
              (parse_settings
                 (ParseCommandLine (argv env)
                    (SetDefaultSettings build (pw_dir env) Settings0)))).
Proof.
  intros Hok Ha.
  assert (Hf := main_setup_calls is_access_control build env
                  ltac:(intros b Hb; destruct b; try discriminate Hb;
                        reflexivity)
                  eq_refl Hok).
  split; intros Hin.
  - assert (H : In a (filter is_access_control (fst (main build env))))
      by (apply filter_In; now split).
    rewrite Hf in H. now apply filter_In in H.
  - assert (H : In a (filter is_access_control
                        (setup build
                           (parse_settings
                              (ParseCommandLine (argv env)
                                 (SetDefaultSettings build (pw_dir env)
                                    Settings0))))))
      by (apply filter_In; now split).
    rewrite <- Hf in H. now apply filter_In in H.
Qed.

Lemma setup_registers (build : BuildConfig) (Settings : SettingsT) :
  In (ServerAddHandler "/camera/config" (Some (ConfigGroup Settings)))
    (setup build Settings)
  /\ In (ServerAddHandler "/motors/config" (Some (ConfigGroup Settings)))
       (setup build Settings)
  /\ In (ServerAddHandler "/camera/mjpeg" (Some (ViewersGroup Settings)))
       (setup build Settings)
  /\ (HtDigestFileName Settings <> ""
      -> In (ServerLoadUsersFromFile (HtDigestFileName Settings))
           (setup build Settings)).
Proof.
  unfold setup.
  repeat match goal with |- _ /\ _ => split end.
  - do 5 (apply in_or_app; right). apply in_or_app; left.
    cbn [In]. tauto.
  - do 5 (apply in_or_app; right). apply in_or_app; left.
    cbn [In]. tauto.
  - do 5 (apply in_or_app; right). apply in_or_app; left.
    cbn [In]. tauto.
  - intros Hne. do 4 (apply in_or_app; right). apply in_or_app; left.
    destruct (empty (HtDigestFileName Settings)) eqn:E.
    + apply empty_true in E. contradiction.
    + now left.
Qed.

(** X16.  In a run that gets past a command line which names no users file,
    [main] never loads users, and every handler it registers is registered
    for [Anyone] or with the group left to its default. *)
Theorem without_users_file_all_is_open
    (build : BuildConfig) (home : option string) (prog : string)
    (tokens : list string) (started : bool) (port : Z)
    (script : list TickEnv) (a : Action) :
  parse_ret (ParseCommandLine (prog :: tokens)
               (SetDefaultSettings build home Settings0)) = true ->
  HtDigestFileName
    (parse_settings
       (ParseCommandLine (prog :: tokens)
          (SetDefaultSettings build home Settings0))) = "" ->
  In a (fst (main build (mkEnv (prog :: tokens) home started port script))) ->
  is_access_control a = true ->
  open_handler a = true.
Proof.
  intros Hok Hfile Hin Ha.
  apply (main_access_control build
           (mkEnv (prog :: tokens) home started port script) a Hok Ha) in Hin.
  cbn [argv pw_dir] in Hin.
  destruct (default_run_groups build home prog tokens) as [Hopen _].
  destruct (Hopen Hfile) as [Hv Hc].
  pose proof (setup_open build _ Hfile Hv Hc) as Hall.
  rewrite forallb_forall in Hall. specialize (Hall a Hin).
  now rewrite Ha in Hall.
Qed.

Lemma without_users_file_all_is_open_witness :
  parse_ret (ParseCommandLine ["pirexbot"; "-config:admin"]
               (SetDefaultSettings (mkBuild true None None false)
                  (Some "/home/pi") Settings0)) = true
  /\ In (ServerAddHandler "/motors/config" (Some Anyone))
        (fst (main (mkBuild true None None false)
                (mkEnv ["pirexbot"; "-config:admin"] (Some "/home/pi")
                   false 8000 [])))
  /\ open_handler (ServerAddHandler "/motors/config" (Some Anyone)) = true.
Proof.
  assert (Hin : In (ServerAddHandler "/motors/config" (Some Anyone))
                  (fst (main (mkBuild true None None false)
                          (mkEnv ["pirexbot"; "-config:admin"]
                             (Some "/home/pi") false 8000 [])))).
  { vm_compute. tauto. }
  split; [reflexivity | split; [exact Hin|]].
  exact (without_users_file_all_is_open (mkBuild true None None false)
           (Some "/home/pi") "pirexbot" ["-config:admin"] false 8000 []
           (ServerAddHandler "/motors/config" (Some Anyone))
           eq_refl eq_refl Hin eq_refl).
Defined.

(** X17.  In a run that gets past a command line which names a users file and
    mentions neither the viewer nor the config option, [main] loads the
    users from that file, registers the camera and motor configuration for
    [Admin] and the video stream for [User], and registers no handler for
    [Anyone]: each is for [User], for [Admin], or has its group left to the
    default. *)
Theorem with_users_file_control_needs_admin
    (build : BuildConfig) (home : option string) (prog : string)
    (tokens : list string) (started : bool) (port : Z)
    (script : list TickEnv) :
  parse_ret (ParseCommandLine (prog :: tokens)
               (SetDefaultSettings build home Settings0)) = true ->
  HtDigestFileName
    (parse_settings
       (ParseCommandLine (prog :: tokens)
          (SetDefaultSettings build home Settings0))) <> "" ->
  ~ mentions "viewer" tokens -> ~ mentions "config" tokens ->
  In (ServerLoadUsersFromFile
        (HtDigestFileName
           (parse_settings
              (ParseCommandLine (prog :: tokens)
                 (SetDefaultSettings build home Settings0)))))
    (fst (main build (mkEnv (prog :: tokens) home started port script)))
  /\ In (ServerAddHandler "/camera/config" (Some Admin))
       (fst (main build (mkEnv (prog :: tokens) home started port script)))
  /\ In (ServerAddHandler "/motors/config" (Some Admin))
       (fst (main build (mkEnv (prog :: tokens) home started port script)))
  /\ In (ServerAddHandler "/camera/mjpeg" (Some User))
       (fst (main build (mkEnv (prog :: tokens) home started port script)))
  /\ forall a,
       In a (fst (main build
                    (mkEnv (prog :: tokens) home started port script))) ->
       is_access_control a = true -> guarded_handler a = true.
Proof.
  intros Hok Hfile Hnv Hnc.
  set (env := mkEnv (prog :: tokens) home started port script).
  set (S := parse_settings
              (ParseCommandLine (prog :: tokens)
                 (SetDefaultSettings build home Settings0))) in *.
  assert (Hgroups : ViewersGroup S = User /\ ConfigGroup S = Admin).
  { destruct (default_run_groups build home prog tokens) as [_ Hguard].
    destruct (Hguard Hfile) as [Hv Hc]. fold S in Hv, Hc.
    rewrite Hv, Hc. split.
    - rewrite (parse_loop_untouched "viewer" tokens
                 (fun st => viewersGroup st = None) 1 _ Hnv);
        [reflexivity | | reflexivity].
      intros k v s1 s2 Hk HP Hopt.
      destruct (apply_option_footprint _ _ _ _ Hopt)
        as (_ & _ & _ & _ & _ & _ & _ & _ & _ & H & _).
      rewrite (H Hk). exact HP.
    - rewrite (parse_loop_untouched "config" tokens
                 (fun st => configGroup st = None) 1 _ Hnc);
        [reflexivity | | reflexivity].
      intros k v s1 s2 Hk HP Hopt.
      destruct (apply_option_footprint _ _ _ _ Hopt)
        as (_ & _ & _ & _ & _ & _ & _ & _ & _ & _ & H).
      rewrite (H Hk). exact HP. }
  destruct Hgroups as [Hv Hc].
  destruct (setup_registers build S) as (Hcam & Hmot & Hvid & Husers).
  rewrite Hc in Hcam, Hmot. rewrite Hv in Hvid.
  assert (Hsetup : forall a, is_access_control a = true ->
                             In a (setup build S) -> In a (fst (main build env)))
    by (intros a Ha Hin; now apply (main_access_control build env a Hok Ha)).
  repeat match goal with |- _ /\ _ => split end;
    try (apply Hsetup; [reflexivity | auto]).
  intros a Hin Ha.
  apply (main_access_control build env a Hok Ha) in Hin.
  pose proof (setup_guarded build S Hv Hc) as Hall.
  rewrite forallb_forall in Hall. specialize (Hall a Hin).
  now rewrite Ha in Hall.
Qed.

Lemma with_users_file_control_needs_admin_witness :
  parse_ret (ParseCommandLine ["pirexbot"; "-htpass:users.htdigest"]
               (SetDefaultSettings (mkBuild true None None false)
                  (Some "/home/pi") Settings0)) = true
  /\ HtDigestFileName
       (parse_settings
          (ParseCommandLine ["pirexbot"; "-htpass:users.htdigest"]
             (SetDefaultSettings (mkBuild true None None false)
                (Some "/home/pi") Settings0))) <> ""
  /\ ~ mentions "viewer" ["-htpass:users.htdigest"]
  /\ ~ mentions "config" ["-htpass:users.htdigest"]
  /\ In (ServerAddHandler "/motors/config" (Some Admin))
       (fst (main (mkBuild true None None false)
               (mkEnv ["pirexbot"; "-htpass:users.htdigest"]
                  (Some "/home/pi") false 8000 []))).
Proof.
  assert (Hp : token_parts "-htpass:users.htdigest" "htpass" "users.htdigest")
    by (split; reflexivity).
  assert (Hfile : HtDigestFileName
                    (parse_settings
                       (ParseCommandLine ["pirexbot"; "-htpass:users.htdigest"]
                          (SetDefaultSettings (mkBuild true None None false)
                             (Some "/home/pi") Settings0))) <> "")
    by discriminate.
  assert (Hnv : ~ mentions "viewer" ["-htpass:users.htdigest"]).
  { intros (t & v & [<-|[]] & H).
    destruct (token_parts_unique _ _ _ _ _ Hp H). discriminate. }
  assert (Hnc : ~ mentions "config" ["-htpass:users.htdigest"]).
  { intros (t & v & [<-|[]] & H).
    destruct (token_parts_unique _ _ _ _ _ Hp H). discriminate. }
  split; [reflexivity | split; [exact Hfile | split; [exact Hnv|]]].
  split; [exact Hnc|].
  destruct (with_users_file_control_needs_admin
              (mkBuild true None None false) (Some "/home/pi") "pirexbot"
              ["-htpass:users.htdigest"] false 8000 []
              eq_refl Hfile Hnv Hnc)
    as (_ & _ & Hmotors & _).
  exact Hmotors.
Defined.

(** ** The file of the camera settings *)

(** X18.  In a run that gets past a command line without a camera file option,
    the serializer is created on the file .cam_config of the home directory,
    and on the empty file name when no home directory was found. *)
Theorem serializer_file_defaults_to_home
    (build : BuildConfig) (home : option string) (prog : string)
    (tokens : list string) (started : bool) (port : Z)
    (script : list TickEnv) :
  parse_ret (ParseCommandLine (prog :: tokens)
               (SetDefaultSettings build home Settings0)) = true ->
  ~ mentions "fcfg" tokens ->
  In (SerializerCreate
        match home with
        | Some dir => (dir ++ "/.cam_config")%string
        | None => ""
        end)
    (fst (main build (mkEnv (prog :: tokens) home started port script))).
Proof.
  intros Hok Hno.
  set (env := mkEnv (prog :: tokens) home started port script).
  assert (Hfile : CameraConfigFileName
                    (parse_settings
                       (ParseCommandLine (prog :: tokens)
                          (SetDefaultSettings build home Settings0)))
                  = match home with
                    | Some dir => (dir ++ "/.cam_config")%string
                    | None => ""
                    end).
  { rewrite ParseCommandLine_settings.
    destruct (resolve_groups_fields
                (fst (parse_loop tokens 1
                        (mkParse (SetDefaultSettings build home Settings0)
                           None None))))
      as (_ & _ & _ & -> & _).
    apply (parse_loop_untouched "fcfg" tokens
             (fun st => CameraConfigFileName (settings st)
                        = match home with
                          | Some dir => (dir ++ "/.cam_config")%string
                          | None => ""
                          end));
      [exact Hno | |].
    - intros k v s1 s2 Hk HP Hopt.
      destruct (apply_option_footprint _ _ _ _ Hopt)
        as (_ & _ & _ & _ & _ & _ & H & _).
      rewrite (H Hk). exact HP.
    - unfold SetDefaultSettings. now destruct home, (NDEBUG build). }
  assert (Hf := main_setup_calls is_configuration build env
                  ltac:(intros b Hb; destruct b; try discriminate Hb;
                        reflexivity)
                  eq_refl Hok).
  rewrite setup_configuration in Hf. cbn [argv pw_dir env] in Hf.
  rewrite Hfile in Hf.
  assert (Hin : In (SerializerCreate
                      match home with
                      | Some dir => (dir ++ "/.cam_config")%string
                      | None => ""
                      end)
                  (filter is_configuration (fst (main build env))))
    by (rewrite Hf; now left).
  now apply filter_In in Hin.
Qed.

Lemma serializer_file_defaults_to_home_witness :
  parse_ret (ParseCommandLine ["pirexbot"; "-fps:5"]
               (SetDefaultSettings (mkBuild true None None false)
                  None Settings0)) = true
  /\ ~ mentions "fcfg" ["-fps:5"]
  /\ In (SerializerCreate "")
       (fst (main (mkBuild true None None false)
               (mkEnv ["pirexbot"; "-fps:5"] None false 8000 []))).
Proof.
  assert (Hno : ~ mentions "fcfg" ["-fps:5"]).
  { assert (Hp : token_parts "-fps:5" "fps" "5") by (split; reflexivity).
    intros (t & v & [<-|[]] & H).
    destruct (token_parts_unique _ _ _ _ _ Hp H). discriminate. }
  split; [reflexivity | split; [exact Hno|]].
  exact (serializer_file_defaults_to_home (mkBuild true None None false)
           None "pirexbot" ["-fps:5"] false 8000 [] eq_refl Hno).
Defined.
